(** * gzh-template: the Markdown-to-inline-styled-HTML renderer

    A shallow embedding of [styles.ts] (the style serializer and the
    code-theme lookup) and of [renderer.ts] (the [MarkdownRenderer] class with
    its tokenizer extensions and renderer overrides), with the properties
    stated about them.

    Conventions of the embedding.
    - A JavaScript string is a [string]; each character stands for one UTF-16
      code unit below 256 (the Latin-1 range), on which [toLowerCase], [trim]
      and the regular-expression class [\s] are modelled exactly.
    - A JavaScript number is a binary64 [float] (the kernel's primitive
      floats, IEEE 754 round-to-nearest-even, as in the language).
    - A JavaScript object read through [Object.entries] or by key is an
      association list in entry order, with unique keys.
    - A computation that may throw returns a [completion]. *)

From Stdlib Require Import Bool List Arith ZArith NArith QArith Lia.
From Stdlib Require Import Ascii String DecimalString.
From Stdlib Require Import Floats Uint63.
Import ListNotations.

Set Warnings "-inexact-float,-register-all".
Close Scope Q_scope.
Local Open Scope list_scope.
Local Open Scope string_scope.

(** ** Strings, as the language's string methods use them *)

Module Str.

Definition code (c : ascii) : N := N_of_ascii c.

(** [A-Z] *)
Definition is_upper (c : ascii) : bool :=
  (65 <=? code c)%N && (code c <=? 90)%N.

(** The class [\s], which is also the set [String.prototype.trim] strips:
    TAB, LF, VT, FF, CR, SPACE and NO-BREAK SPACE among the code units
    below 256. *)
Definition is_space (c : ascii) : bool :=
  let n := code c in
  ((9 <=? n)%N && (n <=? 13)%N) || (n =? 32)%N || (n =? 160)%N.

(** One code unit of [String.prototype.toLowerCase]: A-Z, and the Latin-1
    capitals U+00C0..U+00DE except the multiplication sign U+00D7. *)
Definition lower_char (c : ascii) : ascii :=
  let n := code c in
  if is_upper c || ((192 <=? n)%N && (n <=? 222)%N && negb (n =? 215)%N)
  then ascii_of_N (n + 32)
  else c.

Fixpoint toLowerCase (s : string) : string :=
  match s with
  | EmptyString => EmptyString
  | String c s' => String (lower_char c) (toLowerCase s')
  end.

(** [s.startsWith(p)] *)
Definition startsWith (p s : string) : bool := String.prefix p s.

(** [s.includes(needle)] *)
Fixpoint includes (needle s : string) : bool :=
  startsWith needle s ||
  match s with
  | EmptyString => false
  | String _ s' => includes needle s'
  end.

(** [s.trimStart()] *)
Fixpoint trimStart (s : string) : string :=
  match s with
  | String c s' => if is_space c then trimStart s' else s
  | EmptyString => EmptyString
  end.

(** [s.trimEnd()] *)
Fixpoint trimEnd (s : string) : string :=
  match s with
  | EmptyString => EmptyString
  | String c s' =>
      match trimEnd s' with
      | EmptyString => if is_space c then EmptyString else String c EmptyString
      | t => String c t
      end
  end.

(** [s.trim()] *)
Definition trim (s : string) : string := trimEnd (trimStart s).

(** [xs.join(sep)] on an array of strings *)
Definition join (sep : string) (xs : list string) : string := String.concat sep xs.

(** [s.slice(i, j)] for [0 <= i <= j] *)
Definition slice (i j : nat) (s : string) : string := String.substring i (j - i) s.

(** [s.split('')]: the code units of [s], each as a one-character string *)
Fixpoint chars (s : string) : list string :=
  match s with
  | EmptyString => []
  | String c s' => String c EmptyString :: chars s'
  end.

(** [s.replace(c, '')] for a one-character string pattern: the first
    occurrence is removed *)
Fixpoint remove_first (c : ascii) (s : string) : string :=
  match s with
  | EmptyString => EmptyString
  | String d s' => if Ascii.eqb d c then s' else String d (remove_first c s')
  end.

(** [s.replace(/([A-Z])/g, '-$1')] *)
Fixpoint hyphenate_upper (s : string) : string :=
  match s with
  | EmptyString => EmptyString
  | String c s' =>
      if is_upper c then String "-" (String c (hyphenate_upper s'))
      else String c (hyphenate_upper s')
  end.

(** All characters of a string satisfy a test. *)
Fixpoint all_chars (p : ascii -> bool) (s : string) : bool :=
  match s with
  | EmptyString => true
  | String c s' => p c && all_chars p s'
  end.

(** The decimal numeral of a non-negative integer, which is what a template
    literal gives for such a number. *)
Definition of_nat (n : nat) : string := NilZero.string_of_uint (Nat.to_uint n).

Lemma append_nil_r (s : string) : s ++ "" = s.
Proof. induction s as [|c s IH]; simpl; [reflexivity | now rewrite IH]. Qed.

Lemma append_assoc (a b c : string) : (a ++ b) ++ c = a ++ (b ++ c).
Proof. induction a as [|x a IH]; simpl; [reflexivity | now rewrite IH]. Qed.

Lemma length_append (a b : string) :
  String.length (a ++ b) = String.length a + String.length b.
Proof. induction a as [|x a IH]; simpl; [reflexivity | now rewrite IH]. Qed.

Lemma append_inv_head (a b c : string) : a ++ b = a ++ c -> b = c.
Proof.
  induction a as [|x a IH]; simpl; intros H; [exact H|].
  inversion H; auto.
Qed.

Lemma append_eq_nil (a b : string) : a ++ b = "" -> a = "" /\ b = "".
Proof. destruct a; simpl; intros H; [auto | discriminate]. Qed.

Lemma startsWith_app (p s : string) : startsWith p (p ++ s) = true.
Proof.
  unfold startsWith.
  induction p as [|c p IH]; simpl; [now destruct s|].
  destruct (ascii_dec c c) as [_|N]; [exact IH | now elim N].
Qed.

Lemma startsWith_inv (p s : string) :
  startsWith p s = true -> exists r, s = p ++ r.
Proof.
  unfold startsWith. revert s.
  induction p as [|c p IH]; intros s H.
  - exists s. reflexivity.
  - destruct s as [|d s]; simpl in H; [discriminate|].
    destruct (ascii_dec c d) as [->|_]; [|discriminate].
    destruct (IH s H) as [r ->]. exists r. reflexivity.
Qed.

End Str.

(** ** JavaScript values and exceptions *)

(** The outcome of evaluating an expression or a function body: a value, or a
    thrown exception (carried as its message). *)
Inductive completion (A : Type) : Type :=
| Normal (a : A)
| Throw (e : string).
Arguments Normal {A} a.
Arguments Throw {A} e.

Definition bind {A B} (m : completion A) (f : A -> completion B) : completion B :=
  match m with
  | Normal a => f a
  | Throw e => Throw e
  end.

Notation "x <- m ;; k" := (bind m (fun x => k))
  (at level 61, m at next level, right associativity).

Lemma Normal_inj {A} (a b : A) : Normal a = Normal b -> a = b.
Proof. congruence. Qed.

(** [xs.map(f)] for a callback that may throw: the first exception ends the
    loop. *)
Fixpoint mapM {A B} (f : A -> completion B) (xs : list A) : completion (list B) :=
  match xs with
  | [] => Normal []
  | x :: xs' => y <- f x ;; ys <- mapM f xs' ;; Normal (y :: ys)
  end.

(** The values a style or option property can hold.  The code tells
    [undefined], [null], numbers and strings apart ([=== undefined],
    [=== null], [typeof value === 'number'], template literals, [||]); any
    other value (a nested object such as the media-query block, a boolean, a
    symbol) is described by what those operations observe of it: whether it is
    truthy, and what converting it to a string yields.  A plain object gives
    [VOther true (Normal "[object Object]")], a symbol
    [VOther true (Throw _)]. *)
Inductive value : Type :=
| VUndefined
| VNull
| VNumber (x : float)
| VString (s : string)
| VOther (truthy : bool) (str : completion string).

(** What the host language supplies: [Number::toString], the decimal text of
    a number in a template literal, and [String.prototype.toUpperCase], whose
    results leave the Latin-1 range. *)
Class Runtime : Type := {
  Number_toString : float -> string;
  String_toUpperCase : string -> string
}.

Module JS.
Section WithRuntime.
Context {rt : Runtime}.

(** [`${v}`] *)
Definition ToString (v : value) : completion string :=
  match v with
  | VUndefined => Normal "undefined"
  | VNull => Normal "null"
  | VNumber x => Normal (Number_toString x)
  | VString s => Normal s
  | VOther _ str => str
  end.

(** [v !== undefined && v !== null] *)
Definition defined (v : value) : bool :=
  match v with
  | VUndefined | VNull => false
  | _ => true
  end.

(** Truthiness, as [if (v)], [v || w] and [v ? a : b] test it. *)
Definition truthy (v : value) : bool :=
  match v with
  | VUndefined | VNull => false
  | VNumber x => negb (PrimFloat.is_zero x || PrimFloat.is_nan x)
  | VString s => negb (s =? "")
  | VOther t _ => t
  end.

(** [v || w] *)
Definition or_else (v w : value) : value := if truthy v then v else w.

End WithRuntime.

(** An object as an association list in entry order. *)
Definition object (V : Type) : Type := list (string * V).

(** [o[k]] on own properties; [None] is [undefined]. *)
Fixpoint get {V} (k : string) (o : object V) : option V :=
  match o with
  | [] => None
  | (k', v) :: o' => if k' =? k then Some v else get k o'
  end.

(** [{...o, k: v}] and [o[k] = v]: an existing key keeps its place and takes
    the new value, a new key goes last. *)
Fixpoint set {V} (k : string) (v : V) (o : object V) : object V :=
  match o with
  | [] => [(k, v)]
  | (k', v') :: o' => if k' =? k then (k, v) :: o' else (k', v') :: set k v o'
  end.

(** [const {k: _, ...rest} = o]: the object without the key. *)
Fixpoint remove {V} (k : string) (o : object V) : object V :=
  match o with
  | [] => []
  | (k', v') :: o' => if k' =? k then remove k o' else (k', v') :: remove k o'
  end.

(** [{...a, ...b}] *)
Definition spread {V} (a b : object V) : object V :=
  fold_left (fun acc kv => set (fst kv) (snd kv) acc) b a.

(** The keys of an object, in entry order. *)
Definition keys {V} (o : object V) : list string := map fst o.

Lemma In_set_same {V} (k : string) (v : V) (o : object V) : In (k, v) (set k v o).
Proof.
  induction o as [|[k' v'] o IH]; cbn [set]; [now left|].
  destruct (k' =? k); [now left | now right].
Qed.

Lemma In_set_other {V} (k k' : string) (v v' : V) (o : object V) :
  k' <> k -> In (k', v') o -> In (k', v') (set k v o).
Proof.
  intros Hk. induction o as [|[k0 v0] o IH]; cbn [set]; intros Hin; [destruct Hin|].
  destruct (k0 =? k) eqn:E.
  - apply String.eqb_eq in E. subst k0. destruct Hin as [[= <- <-] | Hin].
    + now elim Hk.
    + now right.
  - destruct Hin as [Hin | Hin]; [now left | right; auto].
Qed.

Lemma get_set_same {V} (k : string) (v : V) (o : object V) : get k (set k v o) = Some v.
Proof.
  induction o as [|[k' v'] o IH]; cbn [set get].
  - now rewrite String.eqb_refl.
  - destruct (k' =? k) eqn:E; cbn [get]; [now rewrite String.eqb_refl | now rewrite E].
Qed.

Lemma get_set_other {V} (k k' : string) (v : V) (o : object V) :
  k' <> k -> get k' (set k v o) = get k' o.
Proof.
  intros Hk. induction o as [|[k0 v0] o IH]; cbn [set get].
  - apply String.eqb_neq in Hk. rewrite String.eqb_sym in Hk. now rewrite Hk.
  - destruct (k0 =? k) eqn:E; cbn [get].
    + apply String.eqb_eq in E. subst k0.
      apply String.eqb_neq in Hk. rewrite String.eqb_sym in Hk. now rewrite Hk.
    + destruct (k0 =? k'); [reflexivity | exact IH].
Qed.

(** Setting a key the object does not have appends the entry. *)
Lemma set_fresh {V} (k : string) (v : V) (o : object V) :
  get k o = None -> set k v o = (o ++ [(k, v)])%list.
Proof.
  induction o as [|[k' v'] o IH]; cbn [set get app]; intros H; [reflexivity|].
  destruct (k' =? k); [discriminate|]. now rewrite IH.
Qed.

Lemma get_app_none {V} (k : string) (a b : object V) :
  get k a = None -> get k (a ++ b)%list = get k b.
Proof.
  induction a as [|[k' v'] a IH]; cbn [get app]; intros H; [reflexivity|].
  destruct (k' =? k); [discriminate | auto].
Qed.

Lemma get_remove {V} (k k' : string) (o : object V) :
  get k (remove k' o) = if k' =? k then None else get k o.
Proof.
  induction o as [|[k0 v0] o IH]; cbn [remove get]; [now destruct (k' =? k)|].
  destruct (k0 =? k') eqn:E.
  - apply String.eqb_eq in E. subst k0. rewrite IH.
    destruct (k' =? k); reflexivity.
  - cbn [get]. destruct (k0 =? k) eqn:E'; [|exact IH].
    apply String.eqb_eq in E'. subst k0.
    rewrite String.eqb_sym in E. now rewrite E.
Qed.

Lemma get_not_in {V} (k : string) (o : object V) :
  ~ In k (keys o) -> get k o = None.
Proof.
  induction o as [|[k' v'] o IH]; cbn [keys map get In fst]; intros H; [reflexivity|].
  destruct (k' =? k) eqn:E.
  - apply String.eqb_eq in E. elim H. now left.
  - apply IH. intros Hin. apply H. now right.
Qed.

Lemma remove_not_in {V} (k : string) (o : object V) :
  get k o = None -> remove k o = o.
Proof.
  induction o as [|[k' v'] o IH]; cbn [remove get]; intros H; [reflexivity|].
  destruct (k' =? k); [discriminate|]. now rewrite IH.
Qed.

End JS.

(** A runtime for the worked examples: [Number::toString] on the integers
    (and NaN and the infinities), read off the binary64 value.  A fraction
    would need the shortest round-trip decimal, which the examples do not
    use; it is cut to its integer part here. *)
Module Examples.

Definition integer_text (x : float) : string :=
  match Prim2SF x with
  | S754_zero _ => "0"
  | S754_infinity false => "Infinity"
  | S754_infinity true => "-Infinity"
  | S754_nan => "NaN"
  | S754_finite s m e =>
      let z := if (0 <=? e)%Z then (Z.pos m * 2 ^ e)%Z else (Z.pos m / 2 ^ (- e))%Z in
      (if s then "-" else "") ++ NilZero.string_of_uint (N.to_uint (Z.to_N z))
  end.

(** [toUpperCase] on the ASCII letters. *)
Fixpoint ascii_upper (s : string) : string :=
  match s with
  | EmptyString => EmptyString
  | String c s' =>
      let n := Str.code c in
      String (if (97 <=? n)%N && (n <=? 122)%N then ascii_of_N (n - 32) else c)
             (ascii_upper s')
  end.

Definition runtime : Runtime :=
  {| Number_toString := integer_text; String_toUpperCase := ascii_upper |}.

End Examples.

(** ** styles.ts: the style serializer *)

Module Styles.

(** [StyleOptions]: a style description, camel-case property names to
    values. *)
Definition StyleOptions : Type := JS.object value.

Definition media_key : string := "@media (max-width: 768px)".

(** [key.replace(/([A-Z])/g, '-$1').toLowerCase()] *)
Definition cssKey (key : string) : string :=
  Str.toLowerCase (Str.hyphenate_upper key).

Definition is_number (v : value) : bool :=
  match v with VNumber _ => true | _ => false end.

(** [.filter(Boolean)] on strings keeps the non-empty ones. *)
Definition non_empty (s : string) : bool := negb (s =? "").

Section WithRuntime.
Context {rt : Runtime}.

(** The callback of [.map] in [cssPropertiesToString]: the declaration of one
    entry, or [''] for the media-query entry. *)
Definition declaration (entry : string * value) : completion string :=
  let (key, value) := entry in
  if key =? media_key then Normal ""
  else
    let cssKey := cssKey key in
    value <-
      (if is_number value && negb (Str.includes "line-height" cssKey)
       then s <- JS.ToString value ;; Normal (VString (s ++ "px"))
       else Normal value) ;;
    s <- JS.ToString value ;;
    Normal (cssKey ++ ": " ++ s).

(** [cssPropertiesToString(style)].  [None] is an absent argument
    ([undefined], which takes the default [{}], or [null], which [!style]
    catches). *)
Definition cssPropertiesToString (style : option StyleOptions) : completion string :=
  match style with
  | None => Normal ""
  | Some style =>
      ds <- mapM declaration (filter (fun e => JS.defined (snd e)) style) ;;
      Normal (Str.join ";" (filter non_empty ds))
  end.

End WithRuntime.

(** *** What the serializer is specified to do *)

(** The text of a value in a declaration: a number takes the unit [px]
    unless the CSS property name contains [line-height]. *)
Definition value_text {rt : Runtime} (cssKey : string) (v : value) : string :=
  match v with
  | VUndefined => "undefined"
  | VNull => "null"
  | VNumber x =>
      if Str.includes "line-height" cssKey then Number_toString x
      else Number_toString x ++ "px"
  | VString s => s
  | VOther _ (Normal s) => s
  | VOther _ (Throw _) => ""
  end.

Definition declaration_text {rt : Runtime} (entry : string * value) : string :=
  cssKey (fst entry) ++ ": " ++ value_text (cssKey (fst entry)) (snd entry).

(** The entries that give a declaration. *)
Definition emitted (entry : string * value) : bool :=
  JS.defined (snd entry) && negb (fst entry =? media_key).

(** A value whose conversion to a string does not throw. *)
Definition convertible (v : value) : bool :=
  match v with
  | VOther _ (Throw _) => false
  | _ => true
  end.

(** The declaration the sentence "each entry with a defined, non-null value
    appears as [<kebab-case key>: <value>]" describes, read literally. *)
Definition literal_declaration {rt : Runtime} (entry : string * value) : completion string :=
  s <- JS.ToString (snd entry) ;; Normal (cssKey (fst entry) ++ ": " ++ s).

(** Two declaration strings put together as [join(';')] puts them. *)
Definition glue (a b : string) : string :=
  if a =? "" then b else if b =? "" then a else a ++ ";" ++ b.

Section Proofs.
Context {rt : Runtime}.

Lemma declaration_media (v : value) : declaration (media_key, v) = Normal "".
Proof. reflexivity. Qed.

Lemma declaration_emitted (k : string) (v : value) :
  (k =? media_key) = false -> convertible v = true ->
  declaration (k, v) = Normal (declaration_text (k, v)).
Proof.
  intros Hk Hv. unfold declaration, declaration_text, value_text. simpl fst; simpl snd.
  rewrite Hk.
  destruct v as [| |x|s|t [s|e]]; simpl; try reflexivity; try discriminate.
  destruct (Str.includes "line-height" (cssKey k)); simpl; reflexivity.
Qed.

Lemma declaration_text_non_empty (e : string * value) :
  non_empty (declaration_text e) = true.
Proof.
  unfold declaration_text, non_empty.
  destruct (cssKey (fst e)) as [|c s]; reflexivity.
Qed.

Lemma declaration_non_empty (k : string) (v : value) (s : string) :
  (k =? media_key) = false -> declaration (k, v) = Normal s -> non_empty s = true.
Proof.
  intros Hk. unfold declaration. rewrite Hk.
  destruct (is_number v && negb (Str.includes "line-height" (cssKey k))).
  - destruct (JS.ToString v) as [t|e]; simpl; [|discriminate].
    intros [= <-]. unfold non_empty. now destruct (cssKey k).
  - simpl. destruct (JS.ToString v) as [t|e]; simpl; [|discriminate].
    intros [= <-]. unfold non_empty. now destruct (cssKey k).
Qed.

(** The declarations of a style and of the style without its media-query
    entries differ by empty strings only, and throw alike. *)
Lemma mapM_declaration_drop_media (style : StyleOptions) :
  match mapM declaration (filter (fun e => JS.defined (snd e)) style),
        mapM declaration (filter (fun e => JS.defined (snd e))
                            (filter (fun e => negb (fst e =? media_key)) style)) with
  | Normal ds, Normal ds' => filter non_empty ds = ds'
  | Throw e, Throw e' => e = e'
  | _, _ => False
  end.
Proof.
  induction style as [|[k v] style IH]; [reflexivity|].
  cbn [filter fst snd].
  destruct (k =? media_key) eqn:Hk; cbn [negb filter snd].
  - destruct (JS.defined v); [|exact IH].
    apply String.eqb_eq in Hk. subst k.
    cbn [mapM]. rewrite declaration_media. cbn [bind].
    destruct (mapM declaration (filter (fun e => JS.defined (snd e)) style)) as [ds|e];
      cbn [bind]; exact IH.
  - destruct (JS.defined v); [|exact IH].
    cbn [mapM]. destruct (declaration (k, v)) as [d|e] eqn:Hd; cbn [bind]; [|reflexivity].
    pose proof (declaration_non_empty _ _ _ Hk Hd) as Hne.
    destruct (mapM declaration (filter (fun e => JS.defined (snd e)) style)) as [ds|e];
    destruct (mapM declaration (filter (fun e => JS.defined (snd e))
                (filter (fun e => negb (fst e =? media_key)) style))) as [ds'|e'];
      cbn [bind]; try exact IH.
    cbn [filter]. rewrite Hne. now f_equal.
Qed.

Lemma filter_non_empty_idem (ds : list string) :
  filter non_empty (filter non_empty ds) = filter non_empty ds.
Proof.
  induction ds as [|d ds IH]; [reflexivity|].
  cbn [filter]. destruct (non_empty d) eqn:E; [|exact IH].
  cbn [filter]. rewrite E. now f_equal.
Qed.

(** Media-query entries never reach the output: serializing a style is
    serializing it without them. *)
Lemma css_drop_media (style : StyleOptions) :
  cssPropertiesToString (Some style) =
  cssPropertiesToString (Some (filter (fun e => negb (fst e =? media_key)) style)).
Proof.
  unfold cssPropertiesToString.
  pose proof (mapM_declaration_drop_media style) as H.
  destruct (mapM declaration (filter (fun e => JS.defined (snd e)) style)) as [ds|e];
  destruct (mapM declaration (filter (fun e => JS.defined (snd e))
              (filter (fun e => negb (fst e =? media_key)) style))) as [ds'|e'];
    cbn [bind]; try contradiction.
  - subst ds'. now rewrite filter_non_empty_idem.
  - now subst.
Qed.

(** On a style whose values convert to strings, the declarations are those
    of the emitted entries, in entry order. *)
Lemma mapM_declaration_convertible (style : StyleOptions) :
  forallb (fun e => convertible (snd e)) style = true ->
  exists ds,
    mapM declaration (filter (fun e => JS.defined (snd e)) style) = Normal ds /\
    filter non_empty ds = map declaration_text (filter emitted style).
Proof.
  induction style as [|[k v] style IH]; intros Hc.
  - exists []. split; reflexivity.
  - cbn [forallb snd] in Hc. apply andb_true_iff in Hc as [Hv Hc].
    destruct (IH Hc) as (ds & Hds & Hf).
    unfold emitted. cbn [filter fst snd].
    destruct (JS.defined v); cbn [andb].
    + destruct (k =? media_key) eqn:Hk; cbn [negb].
      * apply String.eqb_eq in Hk. subst k.
        exists ("" :: ds). cbn [mapM]. rewrite declaration_media, Hds.
        split; [reflexivity | exact Hf].
      * exists (declaration_text (k, v) :: ds). cbn [mapM].
        rewrite (declaration_emitted _ _ Hk Hv), Hds. split; [reflexivity|].
        cbn [filter map]. rewrite declaration_text_non_empty. now f_equal.
    + exists ds. split; assumption.
Qed.

Lemma join_non_empty_nil (ds : list string) :
  Str.join ";" (filter non_empty ds) = "" -> filter non_empty ds = [].
Proof.
  induction ds as [|d ds IH]; [reflexivity|].
  cbn [filter]. destruct (non_empty d) eqn:E; [|exact IH].
  intros H. exfalso. unfold Str.join in H. cbn [String.concat] in H.
  unfold non_empty in E. destruct d as [|c d]; [discriminate|].
  destruct (filter non_empty ds); discriminate.
Qed.

Lemma join_cons (d : string) (ds : list string) :
  Str.join ";" (d :: ds) = match ds with [] => d | _ => d ++ ";" ++ Str.join ";" ds end.
Proof. destruct ds; reflexivity. Qed.

(** [join(';')] of a concatenation of arrays of non-empty strings. *)
Lemma join_app (a b : list string) :
  Str.join ";" (filter non_empty (a ++ b)) =
  glue (Str.join ";" (filter non_empty a)) (Str.join ";" (filter non_empty b)).
Proof.
  induction a as [|d a IH].
  - cbn [app filter]. unfold glue. reflexivity.
  - cbn [app filter]. destruct (non_empty d) eqn:E; [|exact IH].
    rewrite !join_cons.
    assert (Hd : exists c d', d = String c d').
    { unfold non_empty in E. destruct d; [discriminate | eauto]. }
    destruct Hd as (c & d' & ->).
    destruct (filter non_empty (a ++ b)) as [|x xs] eqn:Hab.
    + rewrite filter_app in Hab. apply app_eq_nil in Hab as [Ha Hb].
      rewrite Ha, Hb. reflexivity.
    + rewrite IH. clear IH.
      destruct (filter non_empty a) as [|y ys] eqn:Ha.
      * cbn [Str.join String.concat]. unfold glue at 1. cbn [String.eqb].
        rewrite filter_app, Ha in Hab. cbn [app] in Hab. rewrite Hab.
        unfold glue. cbn [String.eqb String.append].
        destruct (Str.join ";" (x :: xs) =? "") eqn:Hx; [|reflexivity].
        apply String.eqb_eq in Hx. rewrite <- Hab in Hx.
        apply join_non_empty_nil in Hx. rewrite Hab in Hx. discriminate.
      * unfold glue.
        destruct (Str.join ";" (y :: ys) =? "") eqn:Hy.
        { apply String.eqb_eq in Hy. rewrite <- Ha in Hy.
          apply join_non_empty_nil in Hy. rewrite Ha in Hy. discriminate. }
        cbn [String.append String.eqb].
        destruct (Str.join ";" (filter non_empty b) =? "") eqn:Hb.
        { reflexivity. }
        f_equal. now rewrite Str.append_assoc.
Qed.

Lemma mapM_declaration_length (style : StyleOptions) (ds : list string) :
  mapM declaration (filter (fun e => JS.defined (snd e)) style) = Normal ds ->
  List.length (filter non_empty ds) = List.length (filter emitted style).
Proof.
  revert ds. induction style as [|[k v] style IH]; intros ds H.
  - injection H as <-. reflexivity.
  - unfold emitted in *. cbn [filter fst snd] in *.
    destruct (JS.defined v); cbn [andb]; [|now apply IH].
    cbn [mapM] in H. destruct (declaration (k, v)) as [d|e] eqn:Hd; [|discriminate].
    cbn [bind] in H.
    destruct (mapM declaration (filter (fun e => JS.defined (snd e)) style)) as [ds'|e];
      [|discriminate].
    injection H as <-. specialize (IH ds' eq_refl). cbn [filter].
    destruct (k =? media_key) eqn:Hk; cbn [negb].
    + apply String.eqb_eq in Hk. subst k. rewrite declaration_media in Hd.
      injection Hd as <-. exact IH.
    + rewrite (declaration_non_empty _ _ _ Hk Hd). cbn [List.length]. now f_equal.
Qed.

(** The serialization of a style is empty exactly when no entry gives a
    declaration. *)
Lemma css_empty_iff (style : StyleOptions) (s : string) :
  cssPropertiesToString (Some style) = Normal s ->
  (s = "" <-> filter emitted style = []).
Proof.
  unfold cssPropertiesToString.
  destruct (mapM declaration (filter (fun e => JS.defined (snd e)) style)) as [ds|e] eqn:Hds;
    [|discriminate].
  cbn [bind]. intros [= <-]. apply mapM_declaration_length in Hds. split.
  - intros H. apply join_non_empty_nil in H. rewrite H in Hds.
    now destruct (filter emitted style).
  - intros H. rewrite H in Hds. destruct (filter non_empty ds); [reflexivity|discriminate].
Qed.

Lemma mapM_app {A B} (f : A -> completion B) (xs ys : list A) :
  mapM f (xs ++ ys) = (a <- mapM f xs ;; b <- mapM f ys ;; Normal (a ++ b)%list).
Proof.
  induction xs as [|x xs IH]; cbn [app mapM bind].
  - destruct (mapM f ys); reflexivity.
  - destruct (f x) as [y|e]; cbn [bind]; [|reflexivity].
    rewrite IH. destruct (mapM f xs) as [a|e]; cbn [bind]; [|reflexivity].
    destruct (mapM f ys) as [b|e]; reflexivity.
Qed.

(** Serializing two styles one after the other: the two declaration strings,
    with a [;] between them when neither is empty (and the exception of the
    first that throws). *)
Lemma css_app (a b : StyleOptions) :
  cssPropertiesToString (Some (a ++ b)%list) =
  (x <- cssPropertiesToString (Some a) ;;
   y <- cssPropertiesToString (Some b) ;;
   Normal (glue x y)).
Proof.
  unfold cssPropertiesToString. rewrite filter_app, mapM_app.
  destruct (mapM declaration (filter (fun e => JS.defined (snd e)) a)) as [da|e];
    cbn [bind]; [|reflexivity].
  destruct (mapM declaration (filter (fun e => JS.defined (snd e)) b)) as [db|e];
    cbn [bind]; [|reflexivity].
  now rewrite join_app.
Qed.

Lemma css_number (k : string) (x : float) :
  (k =? media_key) = false ->
  cssPropertiesToString (Some [(k, VNumber x)]) =
  Normal (cssKey k ++ ": " ++ Number_toString x ++
          (if Str.includes "line-height" (cssKey k) then "" else "px")).
Proof.
  intros Hk. unfold cssPropertiesToString. cbn [filter snd JS.defined mapM].
  rewrite (declaration_emitted k (VNumber x) Hk eq_refl). cbn [bind filter].
  rewrite declaration_text_non_empty. cbn [Str.join String.concat].
  unfold declaration_text, value_text. cbn [fst snd].
  destruct (Str.includes "line-height" (cssKey k)); [now rewrite Str.append_nil_r | reflexivity].
Qed.

(** C4 (as amended).  On a style whose values convert to strings,
    [cssPropertiesToString] returns the declarations of the entries that have
    a defined, non-null value and are not the media-query entry, each as
    [<kebab-case key>: <value>] with a number followed by [px] unless the
    kebab-case key contains [line-height], joined by [;] in entry order; the
    empty and the absent object give the empty string. *)
Theorem css_declarations_in_entry_order (style : StyleOptions) :
  forallb (fun e => convertible (snd e)) style = true ->
  cssPropertiesToString (Some style) =
    Normal (Str.join ";" (map declaration_text (filter emitted style))) /\
  cssPropertiesToString (Some []) = Normal "" /\
  cssPropertiesToString None = Normal "".
Proof.
  intros Hc. split; [|split; reflexivity].
  destruct (mapM_declaration_convertible style Hc) as (ds & Hds & Hf).
  unfold cssPropertiesToString. rewrite Hds. cbn [bind]. now rewrite Hf.
Qed.

(** C8.  A media-query entry is dropped wherever it stands, and a numeric
    value is emitted, wherever its entry stands, with the unit [px] unless its
    kebab-case key contains [line-height], in which case it is emitted without
    a unit. *)
Theorem css_media_dropped_numbers_px
    (pre post : StyleOptions) (k : string) (x : float) (v : value) :
  (k =? media_key) = false ->
  cssPropertiesToString (Some (pre ++ (media_key, v) :: post)%list) =
    cssPropertiesToString (Some (pre ++ post)%list) /\
  cssPropertiesToString (Some (pre ++ (k, VNumber x) :: post)%list) =
    (p <- cssPropertiesToString (Some pre) ;;
     q <- cssPropertiesToString (Some post) ;;
     Normal (glue p (glue (cssKey k ++ ": " ++ Number_toString x ++
                           (if Str.includes "line-height" (cssKey k) then "" else "px")) q))).
Proof.
  intros Hk. split.
  - etransitivity; [apply css_drop_media|].
    etransitivity; [|symmetry; apply css_drop_media].
    rewrite !filter_app. cbn [filter fst]. now rewrite String.eqb_refl.
  - etransitivity; [apply css_app|].
    change ((k, VNumber x) :: post) with ([(k, VNumber x)] ++ post)%list.
    replace (cssPropertiesToString (Some ([(k, VNumber x)] ++ post)%list))
      with (d <- cssPropertiesToString (Some [(k, VNumber x)]) ;;
            q <- cssPropertiesToString (Some post) ;; Normal (glue d q))
      by (symmetry; apply css_app).
    rewrite (css_number k x Hk).
    destruct (cssPropertiesToString (Some pre)) as [p|e]; cbn [bind]; [|reflexivity].
    destruct (cssPropertiesToString (Some post)) as [q|e]; reflexivity.
Qed.

Lemma css_convertible (style : StyleOptions) :
  forallb (fun e => convertible (snd e)) style = true ->
  cssPropertiesToString (Some style) =
  Normal (Str.join ";" (map declaration_text (filter emitted style))).
Proof.
  intros Hc. destruct (mapM_declaration_convertible style Hc) as (ds & Hds & Hf).
  unfold cssPropertiesToString. rewrite Hds. cbn [bind]. now rewrite Hf.
Qed.

Lemma css_declarations_in_entry_order_aux (style : StyleOptions) :
  forallb (fun e => convertible (snd e)) style = true ->
  exists s, cssPropertiesToString (Some style) = Normal s.
Proof.
  intros Hc. destruct (mapM_declaration_convertible style Hc) as (ds & Hds & _).
  unfold cssPropertiesToString. rewrite Hds. cbn [bind]. eauto.
Qed.

Lemma forallb_set {V} (P : string * V -> bool) (k : string) (v : V) (o : JS.object V) :
  forallb P o = true -> P (k, v) = true -> forallb P (JS.set k v o) = true.
Proof.
  intros Ho Hv. induction o as [|[k' v'] o IH]; cbn [JS.set forallb] in *.
  - now rewrite Hv.
  - apply andb_true_iff in Ho as [H1 H2].
    destruct (k' =? k); cbn [forallb]; [now rewrite Hv, H2 | now rewrite H1, IH].
Qed.

(** On a style whose values convert, an entry that gives a declaration has
    its declaration in the output. *)
Lemma css_has_declaration (style : StyleOptions) (k : string) (v : value) :
  forallb (fun e => convertible (snd e)) style = true ->
  In (k, v) style -> emitted (k, v) = true ->
  exists ds,
    cssPropertiesToString (Some style) = Normal (Str.join ";" ds) /\
    ds = map declaration_text (filter emitted style) /\
    In (declaration_text (k, v)) ds /\
    (Str.join ";" ds =? "") = false.
Proof.
  intros Hc Hin He.
  exists (map declaration_text (filter emitted style)).
  pose proof (css_convertible style Hc) as Hcss.
  split; [exact Hcss|]. split; [reflexivity|].
  assert (Hf : In (k, v) (filter emitted style)) by (apply filter_In; now split).
  split; [now apply in_map|].
  apply String.eqb_neq. intros E.
  apply (css_empty_iff style _ Hcss) in E. rewrite E in Hf. destruct Hf.
Qed.

(** Setting a property to [undefined] and deleting it serialize alike. *)
Lemma css_set_undefined (k : string) (o : StyleOptions) :
  NoDup (JS.keys o) ->
  cssPropertiesToString (Some (JS.set k VUndefined o)) =
  cssPropertiesToString (Some (JS.remove k o)).
Proof.
  intros Hnd. unfold cssPropertiesToString.
  replace (filter (fun e => JS.defined (snd e)) (JS.set k VUndefined o))
    with (filter (fun e : string * value => JS.defined (snd e)) (JS.remove k o));
    [reflexivity|].
  induction o as [|[k' v'] o IH]; [reflexivity|].
  cbn [JS.keys map fst] in Hnd. inversion Hnd as [|? ? Hnotin Hnd']; subst.
  cbn [JS.set JS.remove]. destruct (k' =? k) eqn:E.
  - apply String.eqb_eq in E. subst k'.
    rewrite (JS.remove_not_in k o (JS.get_not_in k o Hnotin)). reflexivity.
  - cbn [filter snd]. rewrite (IH Hnd'). reflexivity.
Qed.

(** *** Further properties of the serializer *)

Lemma lower_char_facts (c : ascii) :
  Str.is_upper (Str.lower_char c) = false /\
  Str.lower_char (Str.lower_char c) = Str.lower_char c.
Proof. destruct c as [[] [] [] [] [] [] [] []]; split; reflexivity. Qed.

Lemma hyphenate_upper_lower (s : string) :
  Str.hyphenate_upper (Str.toLowerCase s) = Str.toLowerCase s.
Proof.
  induction s as [|c s IH]; [reflexivity|].
  cbn [Str.toLowerCase Str.hyphenate_upper].
  rewrite (proj1 (lower_char_facts c)). now rewrite IH.
Qed.

Lemma toLowerCase_idem (s : string) :
  Str.toLowerCase (Str.toLowerCase s) = Str.toLowerCase s.
Proof.
  induction s as [|c s IH]; [reflexivity|].
  cbn [Str.toLowerCase]. now rewrite (proj2 (lower_char_facts c)), IH.
Qed.

Lemma toLowerCase_no_upper (s : string) :
  Str.all_chars (fun c => negb (Str.is_upper c)) (Str.toLowerCase s) = true.
Proof.
  induction s as [|c s IH]; [reflexivity|].
  cbn [Str.toLowerCase Str.all_chars]. now rewrite (proj1 (lower_char_facts c)), IH.
Qed.

(** The CSS property name of a key has no capital letter [A-Z], and
    converting it again changes nothing: an already kebab-case key is kept as
    it is. *)
Theorem cssKey_idempotent (key : string) :
  cssKey (cssKey key) = cssKey key /\
  Str.all_chars (fun c => negb (Str.is_upper c)) (cssKey key) = true.
Proof.
  unfold cssKey. split.
  - now rewrite hyphenate_upper_lower, toLowerCase_idem.
  - apply toLowerCase_no_upper.
Qed.

(** Serializing the entries of two styles one after the other gives the two
    declaration strings, joined by [;] when neither is empty; when one of the
    two throws, so does the whole, with the exception of the first. *)
Theorem css_of_concatenation (a b : StyleOptions) :
  cssPropertiesToString (Some (a ++ b)%list) =
  (x <- cssPropertiesToString (Some a) ;;
   y <- cssPropertiesToString (Some b) ;;
   Normal (if x =? "" then y else if y =? "" then x else x ++ ";" ++ y)).
Proof. apply css_app. Qed.

(** The serializer throws when the conversion of a value to a string
    throws: with the exception of the first such entry that has a defined
    value and is not the media-query entry.  A media-query entry is dropped
    before its value is looked at, so its value cannot make the call throw. *)
Theorem css_throws_first_conversion_error
    (pre post : StyleOptions) (k : string) (t : bool) (e : string) :
  forallb (fun entry => convertible (snd entry)) pre = true ->
  (k =? media_key) = false ->
  cssPropertiesToString (Some (pre ++ (k, VOther t (Throw e)) :: post)%list) = Throw e /\
  cssPropertiesToString (Some (pre ++ (media_key, VOther t (Throw e)) :: post)%list) =
    cssPropertiesToString (Some (pre ++ post)%list).
Proof.
  intros Hpre Hk. split.
  - etransitivity; [apply css_app|].
    destruct (css_declarations_in_entry_order_aux pre Hpre) as [x ->]. cbn [bind].
    change ((k, VOther t (Throw e)) :: post) with ([(k, VOther t (Throw e))] ++ post)%list.
    replace (cssPropertiesToString (Some ([(k, VOther t (Throw e))] ++ post)%list))
      with (d <- cssPropertiesToString (Some [(k, VOther t (Throw e))]) ;;
            q <- cssPropertiesToString (Some post) ;; Normal (glue d q))
      by (symmetry; apply css_app).
    unfold cssPropertiesToString at 1. cbn [filter snd JS.defined mapM].
    unfold declaration. rewrite Hk. reflexivity.
  - etransitivity; [apply css_drop_media|].
    etransitivity; [|symmetry; apply css_drop_media].
    rewrite !filter_app. cbn [filter fst]. now rewrite String.eqb_refl.
Qed.

(** The serialization is the empty string exactly when no entry gives a
    declaration: when every entry is [undefined], [null] or the media-query
    entry. *)
Theorem css_empty_exactly_when_nothing_emitted (style : StyleOptions) (s : string) :
  cssPropertiesToString (Some style) = Normal s ->
  (s = "" <->
   forall k v, In (k, v) style -> JS.defined v = false \/ k = media_key).
Proof.
  intros H. rewrite (css_empty_iff style s H). split.
  - intros Hf k v Hin.
    destruct (JS.defined v) eqn:Dv; [|now left]. right.
    destruct (k =? media_key) eqn:Hk; [now apply String.eqb_eq|].
    assert (Hin' : In (k, v) (filter emitted style)).
    { apply filter_In. split; [exact Hin|]. unfold emitted. cbn [fst snd].
      now rewrite Dv, Hk. }
    rewrite Hf in Hin'. destruct Hin'.
  - intros Hall. destruct (filter emitted style) as [|[k v] l] eqn:Hf; [reflexivity|].
    assert (Hin : In (k, v) (filter emitted style)) by (rewrite Hf; now left).
    apply filter_In in Hin as [Hin He]. unfold emitted in He. cbn [fst snd] in He.
    apply andb_true_iff in He as [Dv Hk].
    destruct (Hall k v Hin) as [D | ->]; [congruence|].
    rewrite String.eqb_refl in Hk. discriminate.
Qed.

End Proofs.

#[local] Existing Instance Examples.runtime.

Lemma css_throws_first_conversion_error_witness :
  cssPropertiesToString
    (Some [("color", VString "red");
           ("border", VOther true (Throw "TypeError: Cannot convert a Symbol value to a string"));
           ("margin", VNumber 4)]) =
  Throw "TypeError: Cannot convert a Symbol value to a string".
Proof.
  exact (proj1 (css_throws_first_conversion_error
                  [("color", VString "red")] [("margin", VNumber 4)] "border" true
                  "TypeError: Cannot convert a Symbol value to a string" eq_refl eq_refl)).
Defined.

Lemma css_empty_exactly_when_nothing_emitted_witness :
  "" = "" <->
  forall k v, In (k, v) [("color", VUndefined); (media_key, VString "x")] ->
              JS.defined v = false \/ k = media_key.
Proof.
  exact (css_empty_exactly_when_nothing_emitted
           [("color", VUndefined); (media_key, VString "x")] "" eq_refl).
Defined.

Lemma css_declarations_in_entry_order_witness :
  forallb (fun e => convertible (snd e))
    [("fontSize", VNumber 16); ("lineHeight", VNumber 2); ("color", VNull);
     ("textAlign", VString "center")] = true /\
  cssPropertiesToString
    (Some [("fontSize", VNumber 16); ("lineHeight", VNumber 2); ("color", VNull);
           ("textAlign", VString "center")]) =
  Normal "font-size: 16px;line-height: 2;text-align: center".
Proof.
  split; [reflexivity|].
  exact (proj1 (css_declarations_in_entry_order
    [("fontSize", VNumber 16); ("lineHeight", VNumber 2); ("color", VNull);
     ("textAlign", VString "center")] eq_refl)).
Defined.

(** C4 as it is worded fails on a style with a media-query entry: the entry
    has a defined, non-null value and yet no declaration. *)
Lemma css_literal_reading_fails :
  ~ (forall (rt : Runtime) (style : StyleOptions),
       cssPropertiesToString (Some style) =
       (ds <- mapM literal_declaration (filter (fun e => JS.defined (snd e)) style) ;;
        Normal (Str.join ";" ds))).
Proof.
  intros H.
  specialize (H Examples.runtime
    [("color", VString "red");
     (media_key, VOther true (Normal "[object Object]"))]).
  vm_compute in H. discriminate H.
Qed.

Lemma css_media_dropped_numbers_px_witness :
  ("marginTop" =? media_key) = false /\
  cssPropertiesToString
    (Some [("color", VString "red"); ("marginTop", VNumber 8);
           (media_key, VString "x")]) =
  Normal "color: red;margin-top: 8px".
Proof.
  split; [reflexivity|].
  exact (proj2 (css_media_dropped_numbers_px
    [("color", VString "red")] [(media_key, VString "x")]
    "marginTop" 8%float VNull eq_refl)).
Defined.

End Styles.

(** ** styles.ts: the code-theme lookup *)

Module Themes.
Import Styles.

(** One palette of [codeThemes]: the background and text colours, and the
    colours of the token types, by token type. *)
Record Theme : Type := {
  background : string;
  text : string;
  tokens : JS.object string
}.

(** One entry of [codeThemes]. *)
Record ThemeConfig : Type := {
  id : string;
  theme : Theme
}.

(** What [theme[key]] can hold: a colour of the palette, or a member the
    palette object inherits from [Object.prototype], which is truthy and
    which a template literal writes as [text]. *)
Inductive member : Type :=
| Colour (colour : string)
| Inherited (text : string).

(** The source text of a native function, as Node writes it. *)
Definition native_function (name : string) : string :=
  "function " ++ name ++ "() { [native code] }".

(** The members of [Object.prototype], each with what a template literal
    makes of it: the native functions, and under [__proto__] the prototype
    object itself. *)
Definition Object_prototype : JS.object string :=
  [("constructor", native_function "Object");
   ("__defineGetter__", native_function "__defineGetter__");
   ("__defineSetter__", native_function "__defineSetter__");
   ("hasOwnProperty", native_function "hasOwnProperty");
   ("__lookupGetter__", native_function "__lookupGetter__");
   ("__lookupSetter__", native_function "__lookupSetter__");
   ("isPrototypeOf", native_function "isPrototypeOf");
   ("propertyIsEnumerable", native_function "propertyIsEnumerable");
   ("toString", native_function "toString");
   ("valueOf", native_function "valueOf");
   ("__proto__", "[object Object]");
   ("toLocaleString", native_function "toLocaleString")].

(** [theme[key]]; [None] is [undefined].  The own properties of the palette
    come first, then what it inherits. *)
Definition theme_get (t : Theme) (key : string) : option member :=
  if key =? "background" then Some (Colour (background t))
  else if key =? "text" then Some (Colour (text t))
  else match JS.get key (tokens t) with
       | Some colour => Some (Colour colour)
       | None => option_map Inherited (JS.get key Object_prototype)
       end.

(** [a || b] on what [theme[key]] found and a colour: an absent member and
    an empty string are falsy. *)
Definition or_text (a : option member) (b : string) : member :=
  match a with
  | Some (Colour s) => if s =? "" then Colour b else Colour s
  | Some (Inherited text) => Inherited text
  | None => Colour b
  end.

(** [!m] *)
Definition falsy (m : member) : bool :=
  match m with
  | Colour s => s =? ""
  | Inherited _ => false
  end.

(** [`${m}`] *)
Definition member_text (m : member) : string :=
  match m with
  | Colour s => s
  | Inherited text => text
  end.

(** *** [parseInt(s, 16)] *)

Definition hex_digit (c : ascii) : option Z :=
  let n := Str.code c in
  if (48 <=? n)%N && (n <=? 57)%N then Some (Z.of_N n - 48)%Z
  else if (65 <=? n)%N && (n <=? 70)%N then Some (Z.of_N n - 55)%Z
  else if (97 <=? n)%N && (n <=? 102)%N then Some (Z.of_N n - 87)%Z
  else None.

(** The value of the longest prefix of hexadecimal digits, [None] when there
    is none. *)
Fixpoint hex_prefix (acc : option Z) (s : string) : option Z :=
  match s with
  | EmptyString => acc
  | String c s' =>
      match hex_digit c with
      | Some d => hex_prefix (Some (16 * match acc with Some a => a | None => 0 end + d)%Z) s'
      | None => acc
      end
  end.

(** The number nearest to an integer (round to nearest, ties to even). *)
Definition number_of_Z (negative : bool) (z : Z) : float :=
  SF2Prim (binary_normalize prec emax (if negative then - z else z)%Z 0 negative).

(** [parseInt(s, 16)]: leading white space, a sign, an [0x] marker, then the
    longest run of hexadecimal digits; [NaN] when there is no digit. *)
Definition parseInt16 (s : string) : float :=
  let s := Str.trimStart s in
  let '(negative, s) :=
    match s with
    | String c s' =>
        if Ascii.eqb c "-" then (true, s')
        else if Ascii.eqb c "+" then (false, s')
        else (false, s)
    | EmptyString => (false, s)
    end in
  let s :=
    match s with
    | String c (String x s') =>
        if Ascii.eqb c "0" && (Ascii.eqb x "x" || Ascii.eqb x "X") then s' else s
    | _ => s
    end in
  match hex_prefix None s with
  | Some z => number_of_Z negative z
  | None => nan
  end.

(** [luminance > 0.7] for the three channels. *)
Definition luminance_gt (r g b : float) : bool :=
  (0.7 <? (0.299 * r + 0.587 * g + 0.114 * b) / 255)%float.

(** [isLightColor(color)] *)
Definition isLightColor (color : string) : bool :=
  let hex := Str.remove_first "#" color in
  let parsed :=
    if Nat.eqb (String.length hex) 3
    then map (fun c => parseInt16 (c ++ c)) (Str.chars hex)
    else map parseInt16 [Str.slice 0 2 hex; Str.slice 2 4 hex; Str.slice 4 6 hex] in
  match parsed with
  | r :: g :: b :: _ => luminance_gt r g b
  | _ => false
  end.

Section WithThemes.
(** The [codeThemes] table of the configuration module. *)
Variable codeThemes : list ThemeConfig.

(** [codeThemes.find(t => t.id === theme)] *)
Definition find_theme (theme : string) : option ThemeConfig :=
  find (fun t => id t =? theme) codeThemes.

(** [getCodeThemeStyles(theme)] *)
Definition getCodeThemeStyles (theme : string) : StyleOptions :=
  match find_theme theme with
  | None => []
  | Some themeConfig =>
      [("background", VString (background (Themes.theme themeConfig)));
       ("color", VString (text (Themes.theme themeConfig)))]
  end.

(** [getTokenStyles(theme, tokenType, forceDarkPalette)] *)
Definition getTokenStyles (theme tokenType : string) (forceDarkPalette : bool) : string :=
  match find_theme theme with
  | None => ""
  | Some themeConfig =>
      let themeConfig :=
        if forceDarkPalette && isLightColor (background (Themes.theme themeConfig))
        then match find_theme "monokai" with
             | Some fallbackTheme => fallbackTheme
             | None => themeConfig
             end
        else themeConfig in
      let tokenColor :=
        or_text (theme_get (Themes.theme themeConfig) tokenType)
                (text (Themes.theme themeConfig)) in
      if falsy tokenColor then "" else "color: " ++ member_text tokenColor ++ ";"
  end.

(** [isLightCodeTheme(theme)] *)
Definition isLightCodeTheme (theme : string) : bool :=
  match find_theme theme with
  | None => false
  | Some themeConfig => isLightColor (background (Themes.theme themeConfig))
  end.

End WithThemes.

(** *** The luminance test against exact arithmetic *)

(** A channel value as the number the code computes with, next to the same
    value as a machine integer for the exact weighted sum. *)
Definition channel_entry (z : Z) : float * int := (number_of_Z false z, Uint63.of_Z z).

Definition channel_table : list (float * int) :=
  map (fun n => channel_entry (Z.of_nat n)) (seq 0 256).

(** The floating-point test and the exact one, [299 r + 587 g + 114 b >
    178500], on two table entries and on a third. *)
Definition luminance_agrees (r g b : float * int) : bool :=
  Bool.eqb (luminance_gt (fst r) (fst g) (fst b))
           (178500 <? 299 * snd r + 587 * snd g + 114 * snd b)%uint63.

(** They agree on every triple of channel values (by evaluation of the
    256^3 cases). *)
Lemma luminance_table_agrees :
  forallb (fun r =>
    forallb (fun g =>
      forallb (fun b => luminance_agrees r g b) channel_table)
      channel_table)
    channel_table = true.
Proof. vm_cast_no_check (eq_refl true). Qed.

Lemma channel_entry_in_table (z : Z) :
  (0 <= z < 256)%Z -> In (channel_entry z) channel_table.
Proof.
  intros Hz. unfold channel_table.
  apply in_map_iff. exists (Z.to_nat z). split.
  - f_equal. lia.
  - apply in_seq. lia.
Qed.

Lemma channel_sum_exact (r g b : Z) :
  (0 <= r < 256)%Z -> (0 <= g < 256)%Z -> (0 <= b < 256)%Z ->
  (178500 <? 299 * Uint63.of_Z r + 587 * Uint63.of_Z g + 114 * Uint63.of_Z b)%uint63 =
  (178500 <? 299 * r + 587 * g + 114 * b)%Z.
Proof.
  intros Hr Hg Hb.
  assert (W : Uint63.wB = 9223372036854775808%Z) by reflexivity.
  assert (E : forall z, (0 <= z < 256)%Z -> Uint63.to_Z (Uint63.of_Z z) = z).
  { intros z Hz. rewrite Uint63.of_Z_spec. apply Z.mod_small. lia. }
  assert (S : Uint63.to_Z (299 * Uint63.of_Z r + 587 * Uint63.of_Z g + 114 * Uint63.of_Z b)
              = (299 * r + 587 * g + 114 * b)%Z).
  { rewrite !Uint63.add_spec, !Uint63.mul_spec, !E by assumption.
    change (Uint63.to_Z 299) with 299%Z. change (Uint63.to_Z 587) with 587%Z.
    change (Uint63.to_Z 114) with 114%Z.
    rewrite (Z.mod_small (299 * r)), (Z.mod_small (587 * g)), (Z.mod_small (114 * b)) by lia.
    rewrite (Z.mod_small (299 * r + 587 * g)) by lia.
    apply Z.mod_small. lia. }
  destruct (178500 <? 299 * r + 587 * g + 114 * b)%Z eqn:Hz.
  - apply Uint63.ltb_spec. rewrite S. change (Uint63.to_Z 178500) with 178500%Z.
    now apply Z.ltb_lt.
  - apply not_true_is_false. intros H. apply Uint63.ltb_spec in H.
    rewrite S in H. change (Uint63.to_Z 178500) with 178500%Z in H.
    apply Z.ltb_ge in Hz. lia.
Qed.

Lemma forallb3_forall {A} (f : A -> A -> A -> bool) (l : list A) :
  forallb (fun r => forallb (fun g => forallb (fun b => f r g b) l) l) l = true ->
  forall r g b, In r l -> In g l -> In b l -> f r g b = true.
Proof.
  intros T r g b Hr Hg Hb.
  rewrite forallb_forall in T. specialize (T _ Hr).
  rewrite forallb_forall in T. specialize (T _ Hg).
  rewrite forallb_forall in T. exact (T _ Hb).
Qed.

(** On channel values, the floating-point luminance test is the exact one. *)
Lemma luminance_gt_exact (r g b : Z) :
  (0 <= r < 256)%Z -> (0 <= g < 256)%Z -> (0 <= b < 256)%Z ->
  luminance_gt (number_of_Z false r) (number_of_Z false g) (number_of_Z false b) =
  (178500 <? 299 * r + 587 * g + 114 * b)%Z.
Proof.
  intros Hr Hg Hb.
  rewrite <- (channel_sum_exact r g b Hr Hg Hb).
  apply eqb_prop.
  exact (forallb3_forall luminance_agrees channel_table luminance_table_agrees
           (channel_entry r) (channel_entry g) (channel_entry b)
           (channel_entry_in_table r Hr) (channel_entry_in_table g Hg)
           (channel_entry_in_table b Hb)).
Qed.

(** *** Colour strings *)

(** The digits of a string of hexadecimal digits. *)
Fixpoint hex_digits (h : string) : option (list Z) :=
  match h with
  | EmptyString => Some []
  | String c h' =>
      match hex_digit c, hex_digits h' with
      | Some d, Some ds => Some (d :: ds)
      | _, _ => None
      end
  end.

(** The red, green and blue channels a 3- or 6-digit hex colour denotes. *)
Definition hex_channels (h : string) : option (Z * Z * Z) :=
  match hex_digits h with
  | Some [r; g; b] => Some (16 * r + r, 16 * g + g, 16 * b + b)%Z
  | Some [r1; r2; g1; g2; b1; b2] => Some (16 * r1 + r2, 16 * g1 + g2, 16 * b1 + b2)%Z
  | _ => None
  end.

(** The relative luminance [(0.299 r + 0.587 g + 0.114 b) / 255], in exact
    rational arithmetic. *)
Definition relative_luminance (r g b : Z) : Q :=
  (((299 # 1000) * inject_Z r + (587 # 1000) * inject_Z g + (114 # 1000) * inject_Z b)
   / inject_Z 255)%Q.

Lemma hex_digit_facts (c : ascii) (v : Z) :
  hex_digit c = Some v ->
  (0 <= v < 16)%Z /\ Str.is_space c = false /\
  Ascii.eqb c "-" = false /\ Ascii.eqb c "+" = false /\
  Ascii.eqb c "x" = false /\ Ascii.eqb c "X" = false /\ Ascii.eqb c "#" = false.
Proof.
  destruct c as [[] [] [] [] [] [] [] []]; vm_compute; intros H;
    try discriminate H; injection H as <-; repeat split; discriminate.
Qed.

Lemma parseInt16_two_digits (c d : ascii) (v w : Z) :
  hex_digit c = Some v -> hex_digit d = Some w ->
  parseInt16 (String c (String d "")) = number_of_Z false (16 * v + w).
Proof.
  intros Hc Hd.
  destruct (hex_digit_facts c v Hc) as (_ & Sc & Mc & Pc & _).
  destruct (hex_digit_facts d w Hd) as (_ & _ & _ & _ & Xd & XXd & _).
  unfold parseInt16. cbn [Str.trimStart]. rewrite Sc, Mc, Pc, Xd, XXd.
  rewrite andb_false_r. cbn [hex_prefix]. rewrite Hc, Hd.
  reflexivity.
Qed.

Lemma remove_first_hash_digits (h : string) (ds : list Z) :
  hex_digits h = Some ds -> Str.remove_first "#" h = h.
Proof.
  revert ds. induction h as [|c h IH]; intros ds H; [reflexivity|].
  cbn [hex_digits] in H. destruct (hex_digit c) as [v|] eqn:Hc; [|discriminate].
  destruct (hex_digits h) as [ds'|] eqn:Hh; [|discriminate].
  cbn [Str.remove_first]. destruct (hex_digit_facts c v Hc) as (_ & _ & _ & _ & _ & _ & E).
  rewrite E. f_equal. eauto.
Qed.

Lemma hex_channels_range (h : string) (r g b : Z) :
  hex_channels h = Some (r, g, b) ->
  (0 <= r < 256)%Z /\ (0 <= g < 256)%Z /\ (0 <= b < 256)%Z.
Proof.
  unfold hex_channels. intros H.
  destruct (hex_digits h) as [ds|] eqn:Hd; [|discriminate].
  assert (R : Forall (fun d => 0 <= d < 16)%Z ds).
  { clear H. revert ds Hd. induction h as [|c h IH]; intros ds Hd; cbn [hex_digits] in Hd.
    - injection Hd as <-. constructor.
    - destruct (hex_digit c) as [v|] eqn:Hc; [|discriminate].
      destruct (hex_digits h) as [ds'|]; [|discriminate].
      injection Hd as <-. constructor; [apply (hex_digit_facts c v Hc) | now apply IH]. }
  destruct ds as [|d1 [|d2 [|d3 [|d4 [|d5 [|d6 [|d7 ds]]]]]]]; try discriminate;
    apply (f_equal (fun o => match o with Some x => x | None => (r, g, b) end)) in H;
    apply pair_equal_spec in H as [H <-]; apply pair_equal_spec in H as [<- <-];
    repeat match goal with H : Forall _ (_ :: _) |- _ => inversion_clear H end; lia.
Qed.

Ltac rewrite_two_digits :=
  repeat match goal with
    | Hc : hex_digit ?c = Some _, Hd : hex_digit ?d = Some _
      |- context [parseInt16 (String ?c (String ?d ""))] =>
        rewrite (parseInt16_two_digits c d _ _ Hc Hd)
    | Hc : hex_digit ?c = Some _
      |- context [parseInt16 (String ?c (String ?c ""))] =>
        rewrite (parseInt16_two_digits c c _ _ Hc Hc)
    end.

(** The code's luminance test on a 3- or 6-digit hex string. *)
Lemma isLightColor_digits (h : string) (r g b : Z) :
  hex_channels h = Some (r, g, b) ->
  isLightColor h = (178500 <? 299 * r + 587 * g + 114 * b)%Z.
Proof.
  intros H. pose proof (hex_channels_range h r g b H) as (Hr & Hg & Hb).
  rewrite <- (luminance_gt_exact r g b Hr Hg Hb).
  unfold hex_channels in H.
  destruct (hex_digits h) as [ds|] eqn:Hd; [|discriminate].
  unfold isLightColor. rewrite (remove_first_hash_digits h ds Hd).
  destruct h as [|c1 [|c2 [|c3 [|c4 [|c5 [|c6 [|c7 h]]]]]]]; cbn [hex_digits] in Hd;
    repeat match type of Hd with
           | context [hex_digit ?c] =>
               let E := fresh "E" in destruct (hex_digit c) eqn:E; [|discriminate Hd]
           | context [hex_digits ?h] => destruct (hex_digits h); [|discriminate Hd]
           end;
    injection Hd as <-; try discriminate H;
    apply (f_equal (fun o => match o with Some x => x | None => (r, g, b) end)) in H;
    apply pair_equal_spec in H as [H <-]; apply pair_equal_spec in H as [<- <-].
  - cbn [String.length Nat.eqb Str.chars map String.append].
    now rewrite_two_digits.
  - cbn [String.length Nat.eqb map].
    change (Str.slice 0 2 (String c1 (String c2 (String c3 (String c4 (String c5 (String c6 "")))))))
      with (String c1 (String c2 "")).
    change (Str.slice 2 4 (String c1 (String c2 (String c3 (String c4 (String c5 (String c6 "")))))))
      with (String c3 (String c4 "")).
    change (Str.slice 4 6 (String c1 (String c2 (String c3 (String c4 (String c5 (String c6 "")))))))
      with (String c5 (String c6 "")).
    now rewrite_two_digits.
Qed.

Lemma relative_luminance_gt (r g b : Z) :
  (7 # 10 < relative_luminance r g b)%Q <-> (178500 < 299 * r + 587 * g + 114 * b)%Z.
Proof.
  unfold relative_luminance, Qlt, Qdiv, Qmult, Qplus, Qinv, inject_Z. cbn. lia.
Qed.

Lemma isLightColor_hash (h : string) (ds : list Z) :
  hex_digits h = Some ds -> isLightColor (String "#" h) = isLightColor h.
Proof.
  intros H. unfold isLightColor.
  change (Str.remove_first "#" (String "#" h)) with h.
  now rewrite (remove_first_hash_digits h ds H).
Qed.

Lemma find_theme_none (codeThemes : list ThemeConfig) (theme : string) :
  (forall t, In t codeThemes -> id t <> theme) ->
  find_theme codeThemes theme = None.
Proof.
  intros H. unfold find_theme.
  induction codeThemes as [|t ts IH]; [reflexivity|].
  cbn [find]. destruct (id t =? theme) eqn:E.
  - apply String.eqb_eq in E. exfalso. apply (H t); [now left | exact E].
  - apply IH. intros t' Ht'. apply H. now right.
Qed.

(** C3.  For a colour written with 3 or 6 hexadecimal digits, with or
    without the leading [#], [isLightColor] is true exactly when the relative
    luminance [(0.299 r + 0.587 g + 0.114 b) / 255] of its channels exceeds
    [0.7] (the binary64 computation of the code decides the exact rational
    comparison), and [isLightCodeTheme] returns this classification of the
    background of the theme it finds. *)
Theorem isLightColor_luminance_threshold
    (codeThemes : list ThemeConfig) (theme color h : string) (r g b : Z) :
  color = h \/ color = String "#" h ->
  hex_channels h = Some (r, g, b) ->
  (isLightColor color = true <-> (7 # 10 < relative_luminance r g b)%Q) /\
  (forall themeConfig,
     find_theme codeThemes theme = Some themeConfig ->
     background (Themes.theme themeConfig) = color ->
     (isLightCodeTheme codeThemes theme = true <->
      (7 # 10 < relative_luminance r g b)%Q)).
Proof.
  intros Hcolor Hch.
  assert (L : isLightColor color = true <-> (7 # 10 < relative_luminance r g b)%Q).
  { rewrite relative_luminance_gt, <- Z.ltb_lt, <- (isLightColor_digits h r g b Hch).
    destruct Hcolor as [-> | ->]; [reflexivity|].
    unfold hex_channels in Hch. destruct (hex_digits h) as [ds|] eqn:Hd; [|discriminate].
    now rewrite (isLightColor_hash h ds Hd). }
  split; [exact L|].
  intros themeConfig Hfind Hbg. unfold isLightCodeTheme. now rewrite Hfind, Hbg.
Qed.

(** C10.  For a theme id that is not in [codeThemes], [getCodeThemeStyles]
    returns the empty style object, [getTokenStyles] the empty string and
    [isLightCodeTheme] false. *)
Theorem unknown_theme_defaults
    (codeThemes : list ThemeConfig) (theme tokenType : string) (forceDarkPalette : bool) :
  (forall t, In t codeThemes -> id t <> theme) ->
  getCodeThemeStyles codeThemes theme = [] /\
  getTokenStyles codeThemes theme tokenType forceDarkPalette = "" /\
  isLightCodeTheme codeThemes theme = false.
Proof.
  intros H. apply find_theme_none in H.
  unfold getCodeThemeStyles, getTokenStyles, isLightCodeTheme. rewrite H.
  repeat split.
Qed.

(** *** Further properties of the theme lookup *)

Lemma hex_digit_lower (c : ascii) (v : Z) :
  hex_digit c = Some v -> hex_digit (Str.lower_char c) = Some v.
Proof.
  destruct c as [[] [] [] [] [] [] [] []]; vm_compute; intros H;
    try discriminate H; exact H.
Qed.

Lemma hex_digits_lower (h : string) (ds : list Z) :
  hex_digits h = Some ds -> hex_digits (Str.toLowerCase h) = Some ds.
Proof.
  revert ds. induction h as [|c h IH]; intros ds H; [exact H|].
  cbn [Str.toLowerCase hex_digits] in *.
  destruct (hex_digit c) as [v|] eqn:Hc; [|discriminate].
  destruct (hex_digits h) as [ds'|]; [|discriminate].
  now rewrite (hex_digit_lower c v Hc), (IH ds' eq_refl).
Qed.

(** A 3-digit colour is classified as the 6-digit colour that doubles each
    of its digits, with or without the leading [#]. *)
Theorem shorthand_colour_classified_as_expansion
    (c1 c2 c3 : ascii) (v1 v2 v3 : Z) :
  hex_digit c1 = Some v1 -> hex_digit c2 = Some v2 -> hex_digit c3 = Some v3 ->
  isLightColor (String c1 (String c2 (String c3 ""))) =
    isLightColor (String c1 (String c1 (String c2 (String c2 (String c3 (String c3 "")))))) /\
  isLightColor (String "#" (String c1 (String c2 (String c3 "")))) =
    isLightColor (String c1 (String c1 (String c2 (String c2 (String c3 (String c3 "")))))).
Proof.
  intros H1 H2 H3.
  assert (S : hex_channels (String c1 (String c2 (String c3 ""))) =
              Some (16 * v1 + v1, 16 * v2 + v2, 16 * v3 + v3)%Z).
  { unfold hex_channels. cbn [hex_digits]. now rewrite H1, H2, H3. }
  assert (L : hex_channels
                (String c1 (String c1 (String c2 (String c2 (String c3 (String c3 "")))))) =
              Some (16 * v1 + v1, 16 * v2 + v2, 16 * v3 + v3)%Z).
  { unfold hex_channels. cbn [hex_digits]. now rewrite H1, H2, H3. }
  rewrite (isLightColor_hash (String c1 (String c2 (String c3 ""))) [v1; v2; v3]).
  - now rewrite (isLightColor_digits _ _ _ _ S), (isLightColor_digits _ _ _ _ L).
  - cbn [hex_digits]. now rewrite H1, H2, H3.
Qed.

(** The classification does not depend on the letter case of the digits. *)
Theorem colour_classification_ignores_case (h : string) (r g b : Z) :
  hex_channels h = Some (r, g, b) ->
  isLightColor (Str.toLowerCase h) = isLightColor h.
Proof.
  intros H.
  assert (H' : hex_channels (Str.toLowerCase h) = Some (r, g, b)).
  { unfold hex_channels in *. destruct (hex_digits h) as [ds|] eqn:Hd; [|discriminate].
    now rewrite (hex_digits_lower h ds Hd). }
  now rewrite (isLightColor_digits _ _ _ _ H), (isLightColor_digits _ _ _ _ H').
Qed.

(** The binary64 computation is monotone on colours: raising channels of a
    light colour gives a light colour. *)
Theorem lighter_colour_is_light (h h' : string) (r g b r' g' b' : Z) :
  hex_channels h = Some (r, g, b) ->
  hex_channels h' = Some (r', g', b') ->
  (r <= r')%Z -> (g <= g')%Z -> (b <= b')%Z ->
  isLightColor h = true -> isLightColor h' = true.
Proof.
  intros H H' Hr Hg Hb.
  rewrite (isLightColor_digits _ _ _ _ H), (isLightColor_digits _ _ _ _ H').
  rewrite !Z.ltb_lt. lia.
Qed.

(** For a theme whose background is not light, and for an unknown theme,
    [forceDarkPalette] changes nothing. *)
Theorem forceDarkPalette_only_affects_light_themes
    (codeThemes : list ThemeConfig) (theme tokenType : string) :
  isLightCodeTheme codeThemes theme = false ->
  getTokenStyles codeThemes theme tokenType true =
  getTokenStyles codeThemes theme tokenType false.
Proof.
  unfold isLightCodeTheme, getTokenStyles.
  destruct (find_theme codeThemes theme) as [themeConfig|]; [|reflexivity].
  intros ->. reflexivity.
Qed.

(** The styles of a configured theme serialize to its background and text
    colours. *)
Theorem code_theme_styles_serialized
    {rt : Runtime} (codeThemes : list ThemeConfig) (theme : string)
    (themeConfig : ThemeConfig) :
  find_theme codeThemes theme = Some themeConfig ->
  cssPropertiesToString (Some (getCodeThemeStyles codeThemes theme)) =
  Normal ("background: " ++ background (Themes.theme themeConfig)
          ++ ";color: " ++ text (Themes.theme themeConfig)).
Proof.
  intros H. unfold getCodeThemeStyles. rewrite H.
  rewrite css_convertible by reflexivity.
  reflexivity.
Qed.

(** A sample [codeThemes] table for the worked examples. *)
Definition sample_themes : list ThemeConfig :=
  [ {| id := "github";
       theme := {| background := "#f6f8fa"; text := "#24292e";
                   tokens := [("keyword", "#d73a49"); ("string", "#032f62")] |} |};
    {| id := "monokai";
       theme := {| background := "#272822"; text := "#f8f8f2";
                   tokens := [("keyword", "#f92672")] |} |} ].

Lemma isLightColor_luminance_threshold_witness :
  isLightColor "#f6f8fa" = true /\ (7 # 10 < relative_luminance 246 248 250)%Q.
Proof.
  pose proof (isLightColor_luminance_threshold sample_themes "github" "#f6f8fa" "f6f8fa"
                246 248 250 (or_intror eq_refl) eq_refl) as [H _].
  split; [reflexivity | apply H; reflexivity].
Defined.

Lemma shorthand_colour_classified_as_expansion_witness :
  isLightColor "#fc8" = isLightColor "ffcc88".
Proof.
  exact (proj2 (shorthand_colour_classified_as_expansion "f" "c" "8" 15 12 8
                  eq_refl eq_refl eq_refl)).
Defined.

Lemma colour_classification_ignores_case_witness :
  isLightColor (Str.toLowerCase "F6F8FA") = isLightColor "F6F8FA".
Proof. exact (colour_classification_ignores_case "F6F8FA" 246 248 250 eq_refl). Defined.

Lemma lighter_colour_is_light_witness : isLightColor "d0e0f0" = true.
Proof.
  apply (lighter_colour_is_light "c0c0c0" "d0e0f0" 192 192 192 208 224 240);
    try reflexivity; lia.
Defined.

Lemma forceDarkPalette_only_affects_light_themes_witness :
  getTokenStyles sample_themes "monokai" "keyword" true =
  getTokenStyles sample_themes "monokai" "keyword" false.
Proof.
  exact (forceDarkPalette_only_affects_light_themes sample_themes "monokai" "keyword" eq_refl).
Defined.

Lemma code_theme_styles_serialized_witness :
  cssPropertiesToString (rt := Examples.runtime)
    (Some (getCodeThemeStyles sample_themes "monokai")) =
  Normal "background: #272822;color: #f8f8f2".
Proof.
  exact (code_theme_styles_serialized (rt := Examples.runtime) sample_themes "monokai"
           {| id := "monokai";
              theme := {| background := "#272822"; text := "#f8f8f2";
                          tokens := [("keyword", "#f92672")] |} |} eq_refl).
Defined.

Lemma unknown_theme_defaults_witness :
  getCodeThemeStyles sample_themes "dracula" = [] /\
  getTokenStyles sample_themes "dracula" "keyword" true = "" /\
  isLightCodeTheme sample_themes "dracula" = false.
Proof.
  apply unknown_theme_defaults.
  intros t [<- | [<- | []]]; discriminate.
Defined.

End Themes.

(** ** Regular expressions, as the tokenizers and renderers use them

    A backtracking matcher for the constructs that occur in the patterns of
    [renderer.ts]: characters and character classes, sequence, alternation,
    greedy and lazy repetition, one capturing group, the assertions [^] and
    [$] (without the [m] flag) and a one-character negative lookbehind.  The
    matcher explores alternatives in the order the language prescribes, so
    the match it finds is the one [RegExp.prototype.exec] returns. *)

Module Regex.

Inductive regex : Type :=
| Empty
| Char (p : ascii -> bool)
| Seq (r1 r2 : regex)
| Alt (r1 r2 : regex)
| Star (greedy : bool) (r : regex)
| Group (r : regex)
| Bol
| Eol
| NotAfter (p : ascii -> bool).

(** A position in the subject: the character before it ([None] at the
    start), the text from it on, and what group 1 has captured so far. *)
Record state : Type := {
  prev : option ascii;
  rest : string;
  capture : option string
}.

(** The part of [before] that was consumed to reach [after]. *)
Definition consumed (before after : string) : string :=
  String.substring 0 (String.length before - String.length after) before.

Definition or_try {A} (a : option A) (b : unit -> option A) : option A :=
  match a with
  | Some x => Some x
  | None => b tt
  end.

(** Repetition of [body], followed by the continuation [k].  An iteration
    that consumes nothing is rejected, so an iteration shortens the rest and
    [fuel], which starts as the length of the rest, never runs out before the
    rest does. *)
Fixpoint star_loop (greedy : bool)
    (body : state -> (state -> option state) -> option state)
    (k : state -> option state) (fuel : nat) (st : state) : option state :=
  match fuel with
  | O => k st
  | S fuel' =>
      let again (_ : unit) :=
        body st (fun st1 =>
          if Nat.ltb (String.length (rest st1)) (String.length (rest st))
          then star_loop greedy body k fuel' st1
          else None) in
      if greedy then or_try (again tt) (fun _ => k st)
      else or_try (k st) again
  end.

(** [run r st k]: match [r] at [st], then the continuation [k]; the first
    success in backtracking order. *)
Fixpoint run (r : regex) (st : state) (k : state -> option state) : option state :=
  match r with
  | Empty => k st
  | Char p =>
      match rest st with
      | String c s =>
          if p c then k {| prev := Some c; rest := s; capture := capture st |} else None
      | EmptyString => None
      end
  | Seq r1 r2 => run r1 st (fun st1 => run r2 st1 k)
  | Alt r1 r2 => or_try (run r1 st k) (fun _ => run r2 st k)
  | Star greedy r1 => star_loop greedy (run r1) k (String.length (rest st)) st
  | Group r1 =>
      run r1 st (fun st1 =>
        k {| prev := prev st1; rest := rest st1;
             capture := Some (consumed (rest st) (rest st1)) |})
  | Bol => match prev st with None => k st | Some _ => None end
  | Eol => match rest st with EmptyString => k st | String _ _ => None end
  | NotAfter p =>
      match prev st with
      | Some c => if p c then None else k st
      | None => k st
      end
  end.

(** What [exec] returns: [match.index], [match[0]], [match[1]] and the text
    after the match. *)
Record match_result : Type := {
  index : nat;
  matched : string;
  group1 : option string;
  after : string
}.

(** The leftmost match at or after a position. *)
Fixpoint search (r : regex) (before : option ascii) (s : string) (i : nat)
    : option match_result :=
  match run r {| prev := before; rest := s; capture := None |} Some with
  | Some st =>
      Some {| index := i; matched := consumed s (rest st);
              group1 := capture st; after := rest st |}
  | None =>
      match s with
      | EmptyString => None
      | String c s' => search r (Some c) s' (S i)
      end
  end.

(** [r.exec(s)] for a pattern without the [g] flag. *)
Definition exec (r : regex) (s : string) : option match_result := search r None s 0.

(** [s.match(r)] used as a test *)
Definition test (r : regex) (s : string) : bool :=
  match exec r s with Some _ => true | None => false end.

(** [s.replace(r, replacement)] for a pattern without the [g] flag and a
    replacement text without [$] patterns. *)
Definition replace_first (r : regex) (replacement s : string) : string :=
  match exec r s with
  | Some m => String.substring 0 (index m) s ++ replacement ++ after m
  | None => s
  end.

(** The last character of [l], or [p] when [l] is empty. *)
Fixpoint last_char (p : option ascii) (l : string) : option ascii :=
  match l with
  | EmptyString => p
  | String c l' => last_char (Some c) l'
  end.

(** [s.replace(r, f)] for a pattern with the [g] flag and a replacement
    function, which may have effects of type [E]: every match, from left to
    right, each search starting where the last match ended (one character
    further after an empty match).  The text left to search shortens at each
    step, so [fuel], which starts above its length, does not run out. *)
Fixpoint replace_all_loop {E} (fuel : nat) (r : regex)
    (f : match_result -> list E * string) (before : option ascii) (s : string)
    : list E * string :=
  match fuel with
  | O => ([], s)
  | S fuel' =>
      match search r before s 0 with
      | None => ([], s)
      | Some m =>
          let skipped := String.substring 0 (index m) s in
          let (evs, out) := f m in
          match matched m, after m with
          | EmptyString, EmptyString => (evs, skipped ++ out)
          | EmptyString, String c s' =>
              let (evs', tail) := replace_all_loop fuel' r f (Some c) s' in
              ((evs ++ evs')%list, skipped ++ out ++ String c tail)
          | String _ _, _ =>
              let (evs', tail) :=
                replace_all_loop fuel' r f (last_char before (skipped ++ matched m))
                                 (after m) in
              ((evs ++ evs')%list, skipped ++ out ++ tail)
          end
      end
  end.

Definition replace_all {E} (r : regex) (f : match_result -> list E * string) (s : string)
    : list E * string :=
  replace_all_loop (S (String.length s)) r f None s.

(** *** The pattern syntax used in the sources *)

(** A literal text *)
Fixpoint Lit (s : string) : regex :=
  match s with
  | EmptyString => Empty
  | String c s' => Seq (Char (Ascii.eqb c)) (Lit s')
  end.

(** [r+] and [r+?] *)
Definition Plus (greedy : bool) (r : regex) : regex := Seq r (Star greedy r).

(** [r?] *)
Definition Opt (r : regex) : regex := Alt r Empty.

(** [\s] *)
Definition space : regex := Char Str.is_space.

(** [[\s\S]] *)
Definition any : regex := Char (fun _ => true).

Definition LF : ascii := ascii_of_nat 10.

(** [\n] *)
Definition newline : regex := Char (Ascii.eqb LF).

(** *** Properties of the matcher *)

(** [r] captures on every path to success. *)
Fixpoint sets_group (r : regex) : bool :=
  match r with
  | Group _ => true
  | Seq r1 r2 => sets_group r1 || sets_group r2
  | Alt r1 r2 => sets_group r1 && sets_group r2
  | _ => false
  end.

Definition is_some {A} (o : option A) : bool :=
  match o with Some _ => true | None => false end.

(** [t] is what is left of [s] after some prefix. *)
Definition suffix_of (t s : string) : Prop := exists pre, s = pre ++ t.

Lemma suffix_of_refl (s : string) : suffix_of s s.
Proof. now exists "". Qed.

Lemma suffix_of_trans (a b c : string) : suffix_of a b -> suffix_of b c -> suffix_of a c.
Proof.
  intros [p ->] [q ->]. exists (q ++ p). now rewrite Str.append_assoc.
Qed.

Lemma suffix_of_length (t s : string) :
  suffix_of t s -> String.length t <= String.length s.
Proof. intros [p ->]. rewrite Str.length_append. lia. Qed.

Lemma or_try_none {A} (a : option A) : or_try a (fun _ => None) = a.
Proof. now destruct a. Qed.

Lemma or_try_some {A} (a : option A) (b : unit -> option A) (x : A) :
  or_try a b = Some x -> a = Some x \/ (a = None /\ b tt = Some x).
Proof. destruct a; cbn; intros H; [now left | now right]. Qed.

Lemma substring_0_app (pre t : string) :
  String.substring 0 (String.length pre) (pre ++ t) = pre.
Proof. induction pre as [|c pre IH]; cbn; [now destruct t | now rewrite IH]. Qed.

Lemma consumed_app (pre t : string) : consumed (pre ++ t) t = pre.
Proof.
  unfold consumed. rewrite Str.length_append.
  replace (String.length pre + String.length t - String.length t) with (String.length pre) by lia.
  apply substring_0_app.
Qed.

Lemma consumed_app_eq (s pre t : string) : s = pre ++ t -> consumed s t = pre.
Proof. intros ->. apply consumed_app. Qed.

(** The invariant every success of the matcher keeps: the continuation was
    entered at a position further in the subject, and with a capture when
    there was one before or the pattern sets it. *)
Definition reaches (r_sets : bool) (st st' : state) : Prop :=
  suffix_of (rest st') (rest st) /\
  (is_some (capture st) || r_sets = true -> is_some (capture st') = true).

Lemma star_loop_inv (greedy : bool) (body : state -> (state -> option state) -> option state) :
  (forall st k x, body st k = Some x ->
     exists st', k st' = Some x /\ reaches false st st') ->
  forall fuel st k x,
    star_loop greedy body k fuel st = Some x ->
    exists st', k st' = Some x /\ reaches false st st'.
Proof.
  intros Hbody. induction fuel as [|fuel IH]; intros st k x H; cbn [star_loop] in H.
  - exists st. split; [exact H|]. split; [apply suffix_of_refl|].
    now rewrite orb_false_r.
  - assert (Again : forall y,
      body st (fun st1 =>
        if Nat.ltb (String.length (rest st1)) (String.length (rest st))
        then star_loop greedy body k fuel st1 else None) = Some y ->
      exists st', k st' = Some y /\ reaches false st st').
    { intros y Hy. apply Hbody in Hy as (st1 & Hk1 & Hs1 & Hc1).
      destruct (Nat.ltb (String.length (rest st1)) (String.length (rest st)));
        [|discriminate].
      apply IH in Hk1 as (st' & Hk' & Hs' & Hc').
      exists st'. split; [exact Hk'|]. split.
      - eapply suffix_of_trans; eassumption.
      - rewrite orb_false_r in *. auto. }
    assert (Here : forall y, k st = Some y ->
      exists st', k st' = Some y /\ reaches false st st').
    { intros y Hy. exists st. split; [exact Hy|]. split; [apply suffix_of_refl|].
      now rewrite orb_false_r. }
    destruct greedy; apply or_try_some in H as [H | [_ H]]; auto.
Qed.

Lemma run_inv (r : regex) :
  forall st k x, run r st k = Some x ->
    exists st', k st' = Some x /\ reaches (sets_group r) st st'.
Proof.
  induction r as [|p|r1 IH1 r2 IH2|r1 IH1 r2 IH2|greedy r1 IH1|r1 IH1| | |p];
    intros st k x H; cbn [run sets_group] in *.
  - exists st. split; [exact H|]. split; [apply suffix_of_refl | now rewrite orb_false_r].
  - destruct (rest st) as [|c s] eqn:E; [discriminate|].
    destruct (p c); [|discriminate].
    eexists. split; [exact H|]. split; cbn.
    + rewrite E. now exists (String c "").
    + now rewrite orb_false_r.
  - apply IH1 in H as (st1 & H & Hs1 & Hc1).
    apply IH2 in H as (st2 & H & Hs2 & Hc2).
    exists st2. split; [exact H|]. split.
    + eapply suffix_of_trans; eassumption.
    + intros Hc. apply Hc2.
      destruct (sets_group r2); [now rewrite orb_true_r|]. rewrite orb_false_r in *.
      apply Hc1. exact Hc.
  - apply or_try_some in H as [H | [_ H]].
    + apply IH1 in H as (st' & H & Hs & Hc). exists st'. split; [exact H|].
      split; [exact Hs|]. intros G. apply Hc.
      destruct (is_some (capture st)); [reflexivity|]. cbn in *.
      now apply andb_true_iff in G as [G _].
    + apply IH2 in H as (st' & H & Hs & Hc). exists st'. split; [exact H|].
      split; [exact Hs|]. intros G. apply Hc.
      destruct (is_some (capture st)); [reflexivity|]. cbn in *.
      now apply andb_true_iff in G as [_ G].
  - apply (star_loop_inv greedy (run r1)) in H; [exact H|].
    intros st0 k0 x0 H0. apply IH1 in H0 as (st' & H0 & Hs & Hc).
    exists st'. split; [exact H0|]. split; [exact Hs|].
    intros G. apply Hc. rewrite orb_false_r in G. now rewrite G.
  - apply IH1 in H as (st1 & H & Hs & _).
    eexists. split; [exact H|]. split; [exact Hs | reflexivity].
  - destruct (prev st); [discriminate|].
    exists st. split; [exact H|]. split; [apply suffix_of_refl | now rewrite orb_false_r].
  - destruct (rest st) eqn:E; [|discriminate].
    exists st. split; [exact H|]. split; [apply suffix_of_refl | now rewrite orb_false_r].
  - assert (k st = Some x) as H'.
    { destruct (prev st) as [c|]; [destruct (p c); [discriminate | exact H] | exact H]. }
    exists st. split; [exact H'|]. split; [apply suffix_of_refl | now rewrite orb_false_r].
Qed.

Lemma run_some_split (r : regex) (before : option ascii) (s : string) (st : state) :
  run r {| prev := before; rest := s; capture := None |} Some = Some st ->
  s = consumed s (rest st) ++ rest st /\
  (sets_group r = true -> is_some (capture st) = true).
Proof.
  intros R. apply run_inv in R as (st' & [= <-] & [pre Hs] & Hc). cbn [rest capture] in *.
  split; [|exact Hc]. now rewrite (consumed_app_eq s pre (rest st') Hs).
Qed.

(** A match splits the text it was searched in: what was skipped, the match
    and the rest; group 1 is set when the pattern sets it. *)
Lemma search_inv (r : regex) (s : string) :
  forall before i m,
    search r before s i = Some m ->
    exists skipped,
      s = skipped ++ matched m ++ after m /\
      index m = i + String.length skipped /\
      (sets_group r = true -> is_some (group1 m) = true).
Proof.
  induction s as [|c s IH]; intros before i m H; cbn [search] in H.
  - destruct (run r _ Some) as [st|] eqn:R; [|discriminate].
    injection H as <-. cbn [index matched group1 after].
    apply run_some_split in R as [Hs Hc].
    exists "". cbn [String.append String.length]. auto with arith.
  - destruct (run r _ Some) as [st|] eqn:R.
    + injection H as <-. cbn [index matched group1 after].
      apply run_some_split in R as [Hs Hc].
      exists "". cbn [String.append String.length]. auto with arith.
    + apply IH in H as (skipped & Hs & Hi & Hg).
      exists (String c skipped). cbn [String.append String.length].
      rewrite <- Hs. split; [reflexivity|]. split; [lia | exact Hg].
Qed.

(** *** Literals and repetitions of a character class *)

Lemma prefix_cons (c d : ascii) (l s : string) :
  String.prefix (String c l) (String d s) = Ascii.eqb c d && String.prefix l s.
Proof.
  cbn [String.prefix]. destruct (ascii_dec c d) as [->|N].
  - now rewrite Ascii.eqb_refl.
  - apply Ascii.eqb_neq in N. now rewrite N.
Qed.

Lemma run_Lit_app (l : string) :
  forall p s cap k,
    run (Lit l) {| prev := p; rest := l ++ s; capture := cap |} k =
    k {| prev := last_char p l; rest := s; capture := cap |}.
Proof.
  induction l as [|c l IH]; intros p s cap k; [reflexivity|].
  cbn [Lit run rest String.append capture]. rewrite Ascii.eqb_refl. apply IH.
Qed.

Lemma run_Lit_none (l : string) :
  forall st k, Str.startsWith l (rest st) = false -> run (Lit l) st k = None.
Proof.
  unfold Str.startsWith.
  induction l as [|c l IH]; intros st k H.
  - cbn in H. destruct (rest st); discriminate.
  - cbn [Lit run]. destruct (rest st) as [|d s] eqn:E; [reflexivity|].
    rewrite prefix_cons in H. destruct (Ascii.eqb c d); [|reflexivity].
    apply IH. exact H.
Qed.

(** [p*?] followed by [k]: [k] is tried at each position in turn, as long as
    the characters passed satisfy [p]. *)
Fixpoint lazy_scan (p : ascii -> bool) (k : state -> option state)
    (before : option ascii) (s : string) (cap : option string) : option state :=
  or_try (k {| prev := before; rest := s; capture := cap |})
    (fun _ =>
       match s with
       | String c s' => if p c then lazy_scan p k (Some c) s' cap else None
       | EmptyString => None
       end).

(** [p*] followed by [k]: [k] is tried after the longest run of characters
    satisfying [p] first, then after shorter ones. *)
Fixpoint greedy_scan (p : ascii -> bool) (k : state -> option state)
    (before : option ascii) (s : string) (cap : option string) : option state :=
  match s with
  | String c s' =>
      if p c
      then or_try (greedy_scan p k (Some c) s' cap)
                  (fun _ => k {| prev := before; rest := s; capture := cap |})
      else k {| prev := before; rest := s; capture := cap |}
  | EmptyString => k {| prev := before; rest := s; capture := cap |}
  end.

Lemma lazy_scan_unfold (p : ascii -> bool) (k : state -> option state)
    (before : option ascii) (s : string) (cap : option string) :
  lazy_scan p k before s cap =
  or_try (k {| prev := before; rest := s; capture := cap |})
    (fun _ =>
       match s with
       | String c s' => if p c then lazy_scan p k (Some c) s' cap else None
       | EmptyString => None
       end).
Proof. destruct s; reflexivity. Qed.

Lemma star_lazy_char (p : ascii -> bool) (k : state -> option state) :
  forall fuel before s cap,
    String.length s <= fuel ->
    star_loop false (run (Char p)) k fuel {| prev := before; rest := s; capture := cap |} =
    lazy_scan p k before s cap.
Proof.
  induction fuel as [|fuel IH]; intros before s cap Hf.
  - destruct s; [|cbn in Hf; lia]. cbn. now rewrite or_try_none.
  - cbn [star_loop]. destruct s as [|c s].
    + reflexivity.
    + cbn [lazy_scan run rest capture String.length].
      destruct (k _) as [x|]; [reflexivity|]. cbn [or_try].
      destruct (p c); [|reflexivity].
      rewrite (proj2 (Nat.ltb_lt _ _)) by lia.
      apply IH. cbn in Hf. lia.
Qed.

Lemma star_greedy_char (p : ascii -> bool) (k : state -> option state) :
  forall fuel before s cap,
    String.length s <= fuel ->
    star_loop true (run (Char p)) k fuel {| prev := before; rest := s; capture := cap |} =
    greedy_scan p k before s cap.
Proof.
  induction fuel as [|fuel IH]; intros before s cap Hf.
  - destruct s; [|cbn in Hf; lia]. reflexivity.
  - cbn [star_loop]. destruct s as [|c s].
    + reflexivity.
    + cbn [greedy_scan run rest capture String.length].
      destruct (p c); [|reflexivity].
      rewrite (proj2 (Nat.ltb_lt _ _)) by lia.
      rewrite IH by (cbn in Hf; lia). reflexivity.
Qed.

Lemma run_star_lazy_char (p : ascii -> bool) (k : state -> option state)
    (before : option ascii) (s : string) (cap : option string) :
  run (Star false (Char p)) {| prev := before; rest := s; capture := cap |} k =
  lazy_scan p k before s cap.
Proof. cbn [run rest]. now apply star_lazy_char. Qed.

Lemma run_star_greedy_char (p : ascii -> bool) (k : state -> option state)
    (before : option ascii) (s : string) (cap : option string) :
  run (Star true (Char p)) {| prev := before; rest := s; capture := cap |} k =
  greedy_scan p k before s cap.
Proof. cbn [run rest]. now apply star_greedy_char. Qed.

Lemma run_Seq (r1 r2 : regex) (st : state) (k : state -> option state) :
  run (Seq r1 r2) st k = run r1 st (fun st1 => run r2 st1 k).
Proof. reflexivity. Qed.

Lemma run_Alt (r1 r2 : regex) (st : state) (k : state -> option state) :
  run (Alt r1 r2) st k = or_try (run r1 st k) (fun _ => run r2 st k).
Proof. reflexivity. Qed.

(** [p+] and [p+?] on a character class: one character, then the
    repetition. *)
Lemma run_Plus_char (greedy : bool) (p : ascii -> bool) (k : state -> option state)
    (before : option ascii) (s : string) (cap : option string) :
  run (Plus greedy (Char p)) {| prev := before; rest := s; capture := cap |} k =
  match s with
  | String c s' =>
      if p c
      then (if greedy then greedy_scan p k (Some c) s' cap else lazy_scan p k (Some c) s' cap)
      else None
  | EmptyString => None
  end.
Proof.
  unfold Plus. rewrite run_Seq. cbn [run rest capture].
  destruct s as [|c s']; [reflexivity|]. destruct (p c); [|reflexivity].
  destruct greedy.
  - apply (star_greedy_char p k). apply Nat.le_refl.
  - apply (star_lazy_char p k). apply Nat.le_refl.
Qed.

(** A greedy repetition followed by a continuation that always succeeds
    succeeds. *)
Lemma greedy_scan_total (p : ascii -> bool) (k : state -> option state) :
  (forall st, k st <> None) ->
  forall s before cap, greedy_scan p k before s cap <> None.
Proof.
  intros Hk. induction s as [|c s IH]; intros before cap; cbn [greedy_scan]; [apply Hk|].
  destruct (p c); [|apply Hk].
  specialize (IH (Some c) cap). destruct (greedy_scan p k (Some c) s cap); [discriminate|].
  now elim IH.
Qed.

(** A pattern anchored with [^] matches at the start of the subject or not
    at all. *)
Lemma search_Bol_later (r : regex) (s : string) :
  forall c i, search (Seq Bol r) (Some c) s i = None.
Proof.
  induction s as [|d s IH]; intros c i; cbn [search run prev]; [reflexivity|apply IH].
Qed.

Lemma exec_Bol (r : regex) (s : string) :
  exec (Seq Bol r) s =
  match run r {| prev := None; rest := s; capture := None |} Some with
  | Some st => Some {| index := 0; matched := consumed s (rest st);
                       group1 := capture st; after := rest st |}
  | None => None
  end.
Proof.
  unfold exec. destruct s as [|c s]; cbn [search run prev];
    destruct (run r _ Some); try reflexivity.
  apply search_Bol_later.
Qed.

(** [s.includes(needle)] says that [needle] occurs in [s]. *)
Lemma includes_spec (needle s : string) :
  Str.includes needle s = true <-> exists a b, s = a ++ needle ++ b.
Proof.
  split.
  - induction s as [|c s IH]; cbn [Str.includes]; intros H.
    + rewrite orb_false_r in H. apply Str.startsWith_inv in H as [r ->]. now exists "", r.
    + apply orb_true_iff in H as [H | H].
      * apply Str.startsWith_inv in H as [r ->]. now exists "", r.
      * destruct (IH H) as (a & b & ->). now exists (String c a), b.
  - intros (a & b & ->). induction a as [|c a IH].
    + cbn [String.append]. destruct (needle ++ b) eqn:E; cbn [Str.includes];
        rewrite <- E, Str.startsWith_app; reflexivity.
    + cbn [String.append Str.includes]. rewrite IH. apply orb_true_r.
Qed.

(** What a match of an anchored pattern looks like: it starts the subject. *)
Lemma exec_Bol_inv (r : regex) (s : string) (m : match_result) :
  exec (Seq Bol r) s = Some m ->
  index m = 0 /\ s = matched m ++ after m /\
  (sets_group r = true -> is_some (group1 m) = true).
Proof.
  rewrite exec_Bol.
  destruct (run r _ Some) as [st|] eqn:R; [|discriminate].
  intros [= <-]. cbn [index matched group1 after].
  apply run_some_split in R as [Hs Hc]. auto.
Qed.

(** A greedy repetition over a run of characters of the class that goes to
    the end of the subject, followed by [$]. *)
Lemma greedy_scan_to_end (p : ascii -> bool) (cap : option string) :
  forall ws before,
    Str.all_chars p ws = true ->
    greedy_scan p (fun st => run Eol st Some) before ws cap =
    Some {| prev := last_char before ws; rest := ""; capture := cap |}.
Proof.
  induction ws as [|w ws IH]; intros before H; [reflexivity|].
  cbn [Str.all_chars] in H. apply andb_true_iff in H as [Hw H].
  cbn [greedy_scan last_char]. rewrite Hw, (IH (Some w) H). reflexivity.
Qed.

(** The same repetition when the run is followed by another character: [$]
    does not hold anywhere, and the match fails. *)
Lemma greedy_scan_not_at_end (p : ascii -> bool) (cap : option string)
    (c : ascii) (rest : string) :
  p c = false ->
  forall ws before,
    Str.all_chars p ws = true ->
    greedy_scan p (fun st => run Eol st Some) before (ws ++ String c rest) cap = None.
Proof.
  intros Hc. induction ws as [|w ws IH]; intros before H.
  - cbn [String.append greedy_scan]. now rewrite Hc.
  - cbn [Str.all_chars] in H. apply andb_true_iff in H as [Hw H].
    cbn [String.append greedy_scan]. rewrite Hw, (IH (Some w) H). reflexivity.
Qed.

(** Replacing every match by itself gives the text back. *)
Lemma replace_all_loop_identity {E} (r : regex) (f : match_result -> list E * string) :
  (forall m, snd (f m) = matched m) ->
  forall fuel before s, snd (replace_all_loop fuel r f before s) = s.
Proof.
  intros Hf. induction fuel as [|fuel IH]; intros before s; cbn [replace_all_loop];
    [reflexivity|].
  destruct (search r before s 0) as [m|] eqn:Hm; [|reflexivity].
  apply search_inv in Hm as (skipped & Hs & Hi & _). cbn [Nat.add] in Hi.
  specialize (Hf m). destruct (f m) as [evs out]. cbn [snd] in Hf. subst out.
  assert (Hsk : String.substring 0 (index m) s = skipped).
  { rewrite Hi, Hs. apply substring_0_app. }
  rewrite Hsk.
  destruct (matched m) as [|c0 mt] eqn:Hmt.
  - destruct (after m) as [|c s'] eqn:Ha.
    + cbn [snd]. now rewrite Hs.
    + specialize (IH (Some c) s').
      destruct (replace_all_loop fuel r f (Some c) s') as [evs' tail].
      cbn [snd] in *. now rewrite IH, Hs.
  - specialize (IH (last_char before (skipped ++ String c0 mt)) (after m)).
    destruct (replace_all_loop fuel r f _ (after m)) as [evs' tail].
    cbn [snd] in *. now rewrite IH, Hs.
Qed.

End Regex.

(** ** renderer.ts: tokens, options and the libraries it calls *)

(** A token of the Markdown parser, with the fields this code reads. *)
Inductive Token : Type := mkToken {
  type : string;
  raw : string;
  text : string;
  tokens : list Token
}.

(** [RendererOptions['base']] *)
Record BaseOptions : Type := {
  themeColor : value;
  fontSize : value;
  lineHeight : value;
  textAlign : value
}.

(** [RendererOptions]; [None] is an absent property. *)
Record RendererOptions : Type := {
  base : option BaseOptions;
  block : option (JS.object Styles.StyleOptions);
  inline : option (JS.object Styles.StyleOptions);
  codeTheme : option string
}.

(** What the program does besides computing its result. *)
Inductive event : Type :=
| KatexCall (tex : string) (displayMode : bool)
| ConsoleError (label : string) (error : string).

(** The libraries the renderer calls, and the configuration table:
    [katex.renderToString(tex, {displayMode, throwOnError: false})], which
    may throw; [marked.Lexer.lexInline] and [marked.Parser.parseInline] with
    the renderer built from the given options; [highlightCode] of
    [code-highlight.ts]; [codeThemes] of the configuration module. *)
Class Libraries : Type := {
  katex_renderToString : string -> bool -> completion string;
  lexInline : string -> list Token;
  parseInline : RendererOptions -> list Token -> string;
  highlightCode : string -> string -> string -> bool -> string;
  codeThemes : list Themes.ThemeConfig
}.

(** ** styles.ts: the base styles *)

Module BaseStyles.
Section WithRuntime.
Context {rt : Runtime}.

(** [if (v) styles.push(`${name}: ${v}`)] *)
Definition push_if (name : string) (v : value) (styles : list string)
    : completion (list string) :=
  if JS.truthy v
  then s <- JS.ToString v ;; Normal (app styles [name ++ ": " ++ s])
  else Normal styles.

(** [baseStylesToString(base)]; [None] is an absent argument. *)
Definition baseStylesToString (base : option BaseOptions) : completion string :=
  match base with
  | None => Normal ""
  | Some base =>
      styles <- push_if "line-height" (lineHeight base) [] ;;
      styles <- push_if "font-size" (fontSize base) styles ;;
      styles <- push_if "text-align" (textAlign base) styles ;;
      styles <- push_if "--theme-color" (themeColor base) styles ;;
      Normal (Str.join ";" styles)
  end.

End WithRuntime.

(** A property that is absent or holds a non-empty string. *)
Definition string_or_absent (v : value) : bool :=
  match v with
  | VUndefined => true
  | VString s => negb (s =? "")
  | _ => false
  end.

Section Proofs.
Context {rt : Runtime}.

(** On base options that hold strings, [baseStylesToString] gives what
    [cssPropertiesToString] gives for the same four properties in the order
    line height, font size, text alignment, theme colour (the last under the
    custom property name [--theme-color]). *)
Theorem base_styles_agree_with_serializer (base : BaseOptions) :
  string_or_absent (lineHeight base) = true ->
  string_or_absent (fontSize base) = true ->
  string_or_absent (textAlign base) = true ->
  string_or_absent (themeColor base) = true ->
  baseStylesToString (Some base) =
  Styles.cssPropertiesToString
    (Some [("lineHeight", lineHeight base); ("fontSize", fontSize base);
           ("textAlign", textAlign base); ("--theme-color", themeColor base)]).
Proof.
  destruct base as [tc fs lh ta]. cbn [lineHeight fontSize textAlign themeColor].
  unfold string_or_absent.
  intros Hlh Hfs Hta Htc.
  destruct lh as [| | |lh|]; try discriminate Hlh;
  destruct fs as [| | |fs|]; try discriminate Hfs;
  destruct ta as [| | |ta|]; try discriminate Hta;
  destruct tc as [| | |tc|]; try discriminate Htc;
  unfold baseStylesToString, push_if, JS.truthy;
  cbn [lineHeight fontSize textAlign themeColor];
  rewrite ?Hlh, ?Hfs, ?Hta, ?Htc; reflexivity.
Qed.

(** The two serializers differ on numbers: [baseStylesToString] writes a
    number without a unit, where [cssPropertiesToString] adds [px], and it
    leaves out a zero, which [cssPropertiesToString] writes. *)
Theorem base_styles_write_numbers_without_unit (x : float) :
  (JS.truthy (VNumber x) = true ->
   baseStylesToString
     (Some {| themeColor := VUndefined; fontSize := VNumber x;
              lineHeight := VUndefined; textAlign := VUndefined |}) =
     Normal ("font-size: " ++ Number_toString x) /\
   Styles.cssPropertiesToString (Some [("fontSize", VNumber x)]) =
     Normal ("font-size: " ++ Number_toString x ++ "px")) /\
  (JS.truthy (VNumber x) = false ->
   baseStylesToString
     (Some {| themeColor := VUndefined; fontSize := VNumber x;
              lineHeight := VUndefined; textAlign := VUndefined |}) = Normal "").
Proof.
  split; intros H.
  - split.
    + unfold baseStylesToString, push_if.
      cbn [lineHeight fontSize textAlign themeColor]. rewrite H. reflexivity.
    + reflexivity.
  - unfold baseStylesToString, push_if.
    cbn [lineHeight fontSize textAlign themeColor]. rewrite H. reflexivity.
Qed.

End Proofs.

Lemma base_styles_agree_with_serializer_witness :
  baseStylesToString (rt := Examples.runtime)
    (Some {| themeColor := VString "#00b38a"; fontSize := VString "16px";
             lineHeight := VUndefined; textAlign := VString "justify" |}) =
  Normal "font-size: 16px;text-align: justify;--theme-color: #00b38a".
Proof.
  exact (base_styles_agree_with_serializer (rt := Examples.runtime)
           {| themeColor := VString "#00b38a"; fontSize := VString "16px";
              lineHeight := VUndefined; textAlign := VString "justify" |}
           eq_refl eq_refl eq_refl eq_refl).
Defined.

End BaseStyles.

(** ** renderer.ts: the tokenizer extensions *)

Module Tokenizers.
Import Regex.

Definition dollar : ascii := "$".
Definition backtick : ascii := "`".

(** [/^\$\$/] *)
Definition latex_start_rule : regex := Seq Bol (Lit "$$").

(** [/^\$\$([\s\S]*?)\$\$/] *)
Definition latex_rule : regex :=
  Seq Bol (Seq (Lit "$$") (Seq (Group (Star false any)) (Lit "$$"))).

(** [match[1].trim()]; reading [trim] of a group that did not take part in
    the match throws. *)
Definition group1_trim (m : match_result) : completion string :=
  match group1 m with
  | Some g => Normal (Str.trim g)
  | None => Throw "TypeError: Cannot read properties of undefined (reading 'trim')"
  end.

(** [latexBlockTokenizer.start(src)] *)
Definition latexBlock_start (src : string) : option nat :=
  option_map index (exec latex_start_rule src).

(** [latexBlockTokenizer.tokenizer(src)]; [None] is no token
    ([undefined]). *)
Definition latexBlock_tokenizer (src : string) : completion (option Token) :=
  match exec latex_rule src with
  | Some m =>
      content <- group1_trim m ;;
      Normal (Some {| type := "latexBlock"; raw := matched m; tokens := []; text := content |})
  | None => Normal None
  end.

(** [/^```(?:mermaid\s*$|[\s\n]*pie\s+|[\s\n]*graph\s+|...)/] *)
Definition mermaid_start_rule : regex :=
  let pre := Star true (Char (fun c => Str.is_space c || Ascii.eqb LF c)) in
  let kind (k : string) := Seq pre (Seq (Lit k) (Plus true space)) in
  Seq Bol (Seq (Lit "```")
    (Alt (Seq (Lit "mermaid") (Seq (Star true space) Eol))
    (Alt (kind "pie")
    (Alt (kind "graph")
    (Alt (kind "sequenceDiagram")
    (Alt (kind "gantt")
    (Alt (kind "classDiagram")
         (kind "flowchart")))))))).

(** [/^```(?:mermaid\s*\n)?([\s\S]*?)\n*```(?:\s*\n|$)/] *)
Definition mermaid_rule : regex :=
  Seq Bol (Seq (Lit "```")
    (Seq (Opt (Seq (Lit "mermaid") (Seq (Star true space) newline)))
    (Seq (Group (Star false any))
    (Seq (Star true newline)
    (Seq (Lit "```")
         (Alt (Seq (Star true space) newline) Eol)))))).

(** [/^(?:pie\s+|graph\s+|sequenceDiagram\s+|gantt\s+|classDiagram\s+|flowchart\s+)/] *)
Definition diagram_rule : regex :=
  let kind (k : string) := Seq (Lit k) (Plus true space) in
  Seq Bol
    (Alt (kind "pie")
    (Alt (kind "graph")
    (Alt (kind "sequenceDiagram")
    (Alt (kind "gantt")
    (Alt (kind "classDiagram")
         (kind "flowchart")))))).

(** [/^pie\s*/] *)
Definition pie_rule : regex := Seq Bol (Seq (Lit "pie") (Star true space)).

(** [mermaidBlockTokenizer.start(src)] *)
Definition mermaidBlock_start (src : string) : option nat :=
  option_map index (exec mermaid_start_rule src).

(** [mermaidBlockTokenizer.tokenizer(src)] *)
Definition mermaidBlock_tokenizer (src : string) : completion (option Token) :=
  match exec mermaid_rule src with
  | Some m =>
      content <- group1_trim m ;;
      if test diagram_rule content then
        let processedContent :=
          if Str.startsWith "pie" content
          then "pie showData" ++ String LF (Str.trim (replace_first pie_rule "" content))
          else content in
        Normal (Some {| type := "mermaidBlock"; raw := matched m; tokens := [];
                        text := processedContent |})
      else Normal None
  | None => Normal None
  end.

(** *** The formula-block tokenizer *)

(** After the opening [$$] and the lazily captured text, the closing [$$]:
    the continuation of the group in [latex_rule], for the text [body] after
    the opening delimiter. *)
Definition close_latex (body : string) (st1 : state) : option state :=
  run (Lit "$$")
    {| prev := prev st1; rest := rest st1;
       capture := Some (consumed body (rest st1)) |} Some.

Lemma startsWith_dollars_cons (c : ascii) (x y : string) :
  Str.startsWith "$$" (String c (x ++ "$" ++ y)) = Str.startsWith "$$" (String c (x ++ "$")).
Proof.
  unfold Str.startsWith. rewrite !prefix_cons. f_equal.
  destruct x as [|d x]; cbn [String.append]; rewrite !prefix_cons.
  - now destruct y.
  - f_equal. now destruct x.
Qed.

Lemma latex_scan_first (body rest : string) :
  forall inner pre before,
    body = pre ++ inner ++ "$$" ++ rest ->
    Str.includes "$$" (inner ++ "$") = false ->
    lazy_scan (fun _ => true) (close_latex body) before (inner ++ "$$" ++ rest) None =
    Some {| prev := Some dollar; rest := rest; capture := Some (pre ++ inner) |}.
Proof.
  induction inner as [|c inner IH]; intros pre before Hbody Hfirst.
  - change ("" ++ "$$" ++ rest) with ("$$" ++ rest) in *.
    rewrite lazy_scan_unfold. unfold close_latex. cbn [prev Regex.rest].
    rewrite (run_Lit_app "$$" before rest _ Some).
    rewrite (consumed_app_eq body pre _ Hbody), Str.append_nil_r. reflexivity.
  - change (String c inner ++ "$") with (String c (inner ++ "$")) in Hfirst.
    cbn [Str.includes] in Hfirst.
    apply orb_false_iff in Hfirst as [Hhere Hlater].
    change (String c inner ++ "$$" ++ rest) with (String c (inner ++ "$$" ++ rest)).
    rewrite lazy_scan_unfold. unfold close_latex at 1. rewrite run_Lit_none.
    + cbn [or_try]. rewrite (IH (pre ++ String c "") (Some c)).
      * now rewrite Str.append_assoc.
      * rewrite Hbody, Str.append_assoc. reflexivity.
      * exact Hlater.
    + cbn [Regex.rest]. change ("$$" ++ rest) with ("$" ++ "$" ++ rest).
      now rewrite startsWith_dollars_cons.
Qed.

Lemma latex_scan_none (body : string) :
  forall s before,
    Str.includes "$$" s = false ->
    lazy_scan (fun _ => true) (close_latex body) before s None = None.
Proof.
  induction s as [|c s IH]; intros before H; cbn [lazy_scan Str.includes] in *.
  - unfold close_latex. rewrite run_Lit_none; [reflexivity|].
    cbn [Regex.rest]. now rewrite orb_false_r in H.
  - apply orb_false_iff in H as [Hhere Hlater].
    unfold close_latex at 1. rewrite run_Lit_none by exact Hhere.
    cbn [or_try]. now apply IH.
Qed.

(** The first occurrence of [$$] in a text that has one. *)
Lemma first_dollars (body : string) :
  Str.includes "$$" body = true ->
  exists inner rest,
    body = inner ++ "$$" ++ rest /\ Str.includes "$$" (inner ++ "$") = false.
Proof.
  induction body as [|c body IH]; cbn [Str.includes]; intros H.
  - discriminate.
  - destruct (Str.startsWith "$$" (String c body)) eqn:Hhere.
    + apply Str.startsWith_inv in Hhere as [r Hr]. exists "", r. split; [exact Hr|reflexivity].
    + cbn [orb] in H. destruct (IH H) as (inner & rest & -> & Hfirst).
      exists (String c inner), rest. split; [reflexivity|].
      cbn [String.append Str.includes]. rewrite Hfirst, orb_false_r.
      change ("$$" ++ rest) with ("$" ++ "$" ++ rest) in Hhere.
      now rewrite startsWith_dollars_cons in Hhere.
Qed.

Lemma exec_latex_rule_body (body : string) :
  exec latex_rule ("$$" ++ body) =
  match lazy_scan (fun _ => true) (close_latex body) (Some dollar) body None with
  | Some st => Some {| index := 0; matched := consumed ("$$" ++ body) (rest st);
                       group1 := capture st; after := rest st |}
  | None => None
  end.
Proof.
  unfold latex_rule. rewrite exec_Bol. cbn [run].
  rewrite (run_Lit_app "$$" None body None). cbn [last_char Regex.rest].
  unfold any. rewrite star_lazy_char by apply Nat.le_refl. reflexivity.
Qed.

Lemma exec_latex_rule_no_open (src : string) :
  Str.startsWith "$$" src = false -> exec latex_rule src = None.
Proof.
  intros H. unfold latex_rule. rewrite exec_Bol. cbn [run].
  now rewrite run_Lit_none.
Qed.

(** C5.  On an input that starts with [$$] and has a later [$$], the
    tokenizer emits a [latexBlock] token whose [raw] is the text from the
    opening [$$] through the first closing [$$] (whatever characters, line
    breaks included, stand between them) and whose [text] is the text between
    them, trimmed; on any other input it emits no token. *)
Theorem latexBlock_tokenizer_first_match (src : string) :
  ((exists a b, src = "$$" ++ a ++ "$$" ++ b) ->
   exists inner rest,
     src = "$$" ++ inner ++ "$$" ++ rest /\
     Str.includes "$$" (inner ++ "$") = false /\
     latexBlock_tokenizer src =
     Normal (Some {| type := "latexBlock"; raw := "$$" ++ inner ++ "$$";
                     tokens := []; text := Str.trim inner |})) /\
  ((~ exists a b, src = "$$" ++ a ++ "$$" ++ b) ->
   latexBlock_tokenizer src = Normal None).
Proof.
  split.
  - intros (a & b & ->).
    destruct (first_dollars (a ++ "$$" ++ b)) as (inner & rest & Hbody & Hfirst).
    { apply includes_spec. now exists a, b. }
    exists inner, rest. split; [now rewrite Hbody|]. split; [exact Hfirst|].
    unfold latexBlock_tokenizer. rewrite exec_latex_rule_body, Hbody.
    rewrite (latex_scan_first (inner ++ "$$" ++ rest) rest inner "" (Some dollar) eq_refl Hfirst).
    cbn [Regex.rest capture group1_trim group1 bind matched String.append].
    do 3 f_equal.
    change (String "$" (String "$" (inner ++ "$$" ++ rest)))
      with ("$$" ++ (inner ++ "$$" ++ rest)).
    apply (consumed_app_eq _ ("$$" ++ inner ++ "$$") rest).
    cbn [String.append]. do 2 f_equal.
    symmetry. apply (Str.append_assoc inner "$$" rest).
  - intros Hno. unfold latexBlock_tokenizer.
    destruct (Str.startsWith "$$" src) eqn:Hopen.
    + apply Str.startsWith_inv in Hopen as [body ->].
      rewrite exec_latex_rule_body, latex_scan_none; [reflexivity|].
      apply not_true_is_false. intros Hin. apply includes_spec in Hin as (a & b & ->).
      apply Hno. now exists a, b.
    + now rewrite exec_latex_rule_no_open.
Qed.

Lemma latexBlock_tokenizer_first_match_witness :
  exists inner rest,
    String "$" (String "$" (String LF "x^2 $$ and $$y$$")) = "$$" ++ inner ++ "$$" ++ rest /\
    Str.includes "$$" (inner ++ "$") = false /\
    latexBlock_tokenizer (String "$" (String "$" (String LF "x^2 $$ and $$y$$"))) =
    Normal (Some {| type := "latexBlock"; raw := "$$" ++ inner ++ "$$";
                    tokens := []; text := Str.trim inner |}).
Proof.
  apply (proj1 (latexBlock_tokenizer_first_match _)).
  exists (String LF "x^2 "), " and $$y$$". reflexivity.
Defined.

(** *** The diagram-block tokenizer *)

(** The diagram types the tokenizer accepts. *)
Definition diagram_kinds : list string :=
  ["pie"; "graph"; "sequenceDiagram"; "gantt"; "classDiagram"; "flowchart"].

(** [content] begins with [kind] followed by white space. *)
Definition begins_with_kind (kind content : string) : Prop :=
  exists c rest, content = kind ++ String c rest /\ Str.is_space c = true.

(** [content] begins with one of the diagram types, followed by white
    space. *)
Definition begins_diagram (content : string) : Prop :=
  exists kind, In kind diagram_kinds /\ begins_with_kind kind content.

Lemma is_some_or_try {A} (a : option A) (b : unit -> option A) :
  is_some (or_try a b) = is_some a || is_some (b tt).
Proof. now destruct a. Qed.

Lemma is_some_true {A} (o : option A) : is_some o = true <-> o <> None.
Proof. destruct o; cbn; split; congruence. Qed.

Lemma run_kind (kind content : string) :
  is_some (run (Seq (Lit kind) (Plus true space))
                {| prev := None; rest := content; capture := None |} Some) = true <->
  begins_with_kind kind content.
Proof.
  rewrite run_Seq. split.
  - intros H. destruct (Str.startsWith kind content) eqn:P.
    + apply Str.startsWith_inv in P as [r ->].
      rewrite run_Lit_app in H. unfold space in H. rewrite run_Plus_char in H.
      destruct r as [|c r]; [discriminate|].
      destruct (Str.is_space c) eqn:Sc; [|discriminate].
      now exists c, r.
    + rewrite run_Lit_none in H by exact P. discriminate.
  - intros (c & r & -> & Sc).
    rewrite run_Lit_app. unfold space. rewrite run_Plus_char, Sc.
    apply is_some_true. apply greedy_scan_total. discriminate.
Qed.

(** The test [content.match(/^(?:pie\s+|graph\s+|...)/)]. *)
Lemma test_diagram_rule (content : string) :
  test diagram_rule content = true <-> begins_diagram content.
Proof.
  unfold test, diagram_rule. rewrite exec_Bol.
  set (st := {| prev := None; rest := content; capture := None |}).
  assert (E : forall o : option state,
            match match o with
                  | Some st' => Some {| index := 0; matched := consumed content (rest st');
                                        group1 := capture st'; after := rest st' |}
                  | None => None
                  end with Some _ => true | None => false end = is_some o)
    by (now intros [|]).
  rewrite E. rewrite !run_Alt, !is_some_or_try.
  pose proof (fun k => run_kind k content) as K. subst st.
  unfold begins_diagram, diagram_kinds. rewrite !orb_true_iff, !K. split.
  - intros H. repeat destruct H as [H | H]; eexists; (split; [|exact H]); cbn; tauto.
  - intros (kind & Hin & H). cbn [In] in Hin.
    repeat destruct Hin as [<- | Hin]; tauto.
Qed.

Lemma sets_group_mermaid_rule : sets_group mermaid_rule = true.
Proof. reflexivity. Qed.

(** **** What the tokenizer takes as a fence and as its content *)

Definition not_backtick (c : ascii) : bool := negb (Ascii.eqb backtick c).

(** The line break at the start of a text: its leading white space through
    the last line feed of that white space, and what follows; [None] when
    the leading white space holds no line feed. *)
Fixpoint line_break (s : string) : option (string * string) :=
  match s with
  | String c s' =>
      if Str.is_space c
      then match line_break s' with
           | Some (e, r) => Some (String c e, r)
           | None => if Ascii.eqb LF c then Some (String c "", s') else None
           end
      else None
  | EmptyString => None
  end.

(** What may follow a closing fence: the end of the input, or a line break.
    [Some e] gives the part [e] of the text that ends the fence. *)
Definition fence_end (tail : string) : option string :=
  match line_break tail with
  | Some (e, _) => Some e
  | None => if tail =? "" then Some "" else None
  end.

(** [s] without the prefix [p] *)
Fixpoint strip_prefix (p s : string) : option string :=
  match p, s with
  | EmptyString, _ => Some s
  | String a p', String b s' => if Ascii.eqb a b then strip_prefix p' s' else None
  | String _ _, EmptyString => None
  end.

(** The content of a fence as the tokenizer reads it, of the text between
    the opening and the closing fence: all of that text, the info string of
    the opening fence included; only a leading [mermaid] goes, with the line
    break after it, when one follows. *)
Definition fence_content (between : string) : string :=
  match strip_prefix "mermaid" between with
  | Some after =>
      match line_break after with
      | Some (_, body) => body
      | None => between
      end
  | None => between
  end.

(** The [text] of the token for a diagram: a pie chart gets [showData]. *)
Definition diagram_text (content : string) : string :=
  match strip_prefix "pie" content with
  | Some rest => "pie showData" ++ String LF (Str.trim rest)
  | None => content
  end.

(** A fenced code block as Markdown has it: the opening fence with its info
    string, the lines of the content, and the closing fence. *)
Definition fenced_block (info content : string) : string :=
  "```" ++ info ++ String LF (content ++ String LF "```").

Lemma strip_prefix_spec (p s after : string) :
  strip_prefix p s = Some after <-> s = p ++ after.
Proof.
  revert s. induction p as [|a p IH]; intros s; cbn [strip_prefix String.append].
  - split; [now intros [= ->] | now intros ->].
  - destruct s as [|b s]; [split; discriminate|].
    destruct (Ascii.eqb a b) eqn:E.
    + apply Ascii.eqb_eq in E. subst b. rewrite IH. split; [now intros -> | now intros [= ->]].
    + split; [discriminate|]. intros [= -> _]. now rewrite Ascii.eqb_refl in E.
Qed.

Lemma strip_prefix_none (p s : string) :
  strip_prefix p s = None -> Str.startsWith p s = false.
Proof.
  intros H. destruct (Str.startsWith p s) eqn:P; [|reflexivity].
  apply Str.startsWith_inv in P as [r ->].
  now rewrite (proj2 (strip_prefix_spec p (p ++ r) r) eq_refl) in H.
Qed.

Lemma line_break_split (s e r : string) :
  line_break s = Some (e, r) -> s = e ++ r /\ Str.all_chars Str.is_space e = true.
Proof.
  revert e r. induction s as [|c s IH]; intros e r; cbn [line_break]; [discriminate|].
  destruct (Str.is_space c) eqn:Sc; [|discriminate].
  destruct (line_break s) as [[e' r']|].
  - intros [= <- <-]. destruct (IH e' r' eq_refl) as [-> He].
    cbn [String.append Str.all_chars]. now rewrite Sc, He.
  - destruct (Ascii.eqb LF c); [|discriminate]. intros [= <- <-].
    cbn [String.append Str.all_chars]. now rewrite Sc.
Qed.

(** A line break is found in the leading white space: what follows a
    character that is not white space does not matter. *)
Lemma line_break_app (a : string) (c : ascii) (s : string) :
  Str.is_space c = false ->
  line_break (a ++ String c s) =
  match line_break a with
  | Some (e, r) => Some (e, r ++ String c s)
  | None => None
  end.
Proof.
  intros Hc. induction a as [|x a IH]; cbn [String.append line_break].
  - now rewrite Hc.
  - destruct (Str.is_space x); [|reflexivity]. rewrite IH.
    destruct (line_break a) as [[e r]|]; [reflexivity|].
    now destruct (Ascii.eqb LF x).
Qed.

Lemma all_chars_app (p : ascii -> bool) (a b : string) :
  Str.all_chars p (a ++ b) = Str.all_chars p a && Str.all_chars p b.
Proof.
  induction a as [|c a IH]; cbn [String.append Str.all_chars]; [reflexivity|].
  now rewrite IH, andb_assoc.
Qed.

Lemma line_feeds_are_space (s : string) :
  Str.all_chars (Ascii.eqb LF) s = true -> Str.all_chars Str.is_space s = true.
Proof.
  induction s as [|c s IH]; cbn [Str.all_chars]; [reflexivity|].
  intros H. apply andb_true_iff in H as [Hc H]. apply Ascii.eqb_eq in Hc. subst c.
  now rewrite IH.
Qed.

Lemma trimStart_space (w s : string) :
  Str.all_chars Str.is_space w = true -> Str.trimStart (w ++ s) = Str.trimStart s.
Proof.
  induction w as [|c w IH]; cbn [Str.all_chars String.append]; [reflexivity|].
  intros H. apply andb_true_iff in H as [Hc H]. cbn [Str.trimStart]. now rewrite Hc, IH.
Qed.

Lemma trimEnd_space (w : string) :
  Str.all_chars Str.is_space w = true -> Str.trimEnd w = "".
Proof.
  induction w as [|c w IH]; cbn [Str.all_chars Str.trimEnd]; [reflexivity|].
  intros H. apply andb_true_iff in H as [Hc H]. now rewrite (IH H), Hc.
Qed.

Lemma trimEnd_app_space (s w : string) :
  Str.all_chars Str.is_space w = true -> Str.trimEnd (s ++ w) = Str.trimEnd s.
Proof.
  intros H. induction s as [|c s IH]; cbn [String.append Str.trimEnd].
  - now apply trimEnd_space.
  - now rewrite IH.
Qed.

Lemma trimStart_app_space (s w : string) :
  Str.all_chars Str.is_space w = true ->
  Str.trimEnd (Str.trimStart (s ++ w)) = Str.trimEnd (Str.trimStart s).
Proof.
  intros H. induction s as [|c s IH]; cbn [String.append].
  - rewrite <- (Str.append_nil_r w) at 1. rewrite (trimStart_space w "" H). reflexivity.
  - cbn [Str.trimStart]. destruct (Str.is_space c); [exact IH|].
    change (String c (s ++ w)) with (String c s ++ w). now apply trimEnd_app_space.
Qed.

(** Trimming does away with white space at either end. *)
Lemma trim_space (l s r : string) :
  Str.all_chars Str.is_space l = true -> Str.all_chars Str.is_space r = true ->
  Str.trim (l ++ s ++ r) = Str.trim s.
Proof.
  intros Hl Hr. unfold Str.trim. rewrite (trimStart_space l _ Hl).
  now apply trimStart_app_space.
Qed.

(** **** The fence pattern on a fenced input *)

(** [\s*\n] followed by [k]: the white space is given back down to its last
    line feed, and [k] goes on from there, when it succeeds there. *)
Lemma greedy_line_break (k : state -> option state) (cap : option string) :
  forall s before,
    (forall e r, line_break s = Some (e, r) ->
       k {| prev := Some LF; rest := r; capture := cap |} <> None) ->
    greedy_scan Str.is_space (fun st => run newline st k) before s cap =
    match line_break s with
    | Some (_, r) => k {| prev := Some LF; rest := r; capture := cap |}
    | None => None
    end.
Proof.
  induction s as [|c s IH]; intros before Hk; cbn [greedy_scan line_break];
    [reflexivity|].
  destruct (Str.is_space c) eqn:Sc.
  - rewrite IH.
    + destruct (line_break s) as [[e r]|] eqn:L.
      * destruct (k {| prev := Some LF; rest := r; capture := cap |}) eqn:K; [reflexivity|].
        elim (Hk (String c e) r); [|exact K]. cbn [line_break]. now rewrite Sc, L.
      * cbn [or_try run newline rest capture].
        destruct (Ascii.eqb LF c) eqn:E; [|reflexivity].
        apply Ascii.eqb_eq in E. now subst c.
    + intros e r L. apply (Hk (String c e) r). cbn [line_break]. now rewrite Sc, L.
  - cbn [run newline rest]. destruct (Ascii.eqb LF c) eqn:E; [|reflexivity].
    apply Ascii.eqb_eq in E. subst c. discriminate Sc.
Qed.

(** The end of a fence, [(?:\s*\n|$)]. *)
Lemma run_fence_end (tail e : string) (before : option ascii) (cap : option string) :
  fence_end tail = Some e ->
  exists p r,
    tail = e ++ r /\
    run (Alt (Seq (Star true space) newline) Eol)
      {| prev := before; rest := tail; capture := cap |} Some =
    Some {| prev := p; rest := r; capture := cap |}.
Proof.
  unfold fence_end. intros H. rewrite run_Alt, run_Seq. unfold space.
  rewrite run_star_greedy_char, greedy_line_break by discriminate.
  destruct (line_break tail) as [[e' r]|] eqn:L.
  - injection H as ->. exists (Some LF), r.
    split; [exact (proj1 (line_break_split _ _ _ L)) | reflexivity].
  - destruct (tail =? "") eqn:E; [|discriminate]. injection H as <-.
    apply String.eqb_eq in E. subst tail. exists before, "". split; reflexivity.
Qed.

(** The closing fence, [\n*```(?:\s*\n|$)], after line feeds only. *)
Lemma run_fence_close (tail e : string) (cap : option string) :
  fence_end tail = Some e ->
  forall y before,
    Str.all_chars (Ascii.eqb LF) y = true ->
    exists p r,
      tail = e ++ r /\
      greedy_scan (Ascii.eqb LF)
        (fun st =>
           run (Seq (Lit "```") (Alt (Seq (Star true space) newline) Eol)) st Some)
        before (y ++ "```" ++ tail) cap =
      Some {| prev := p; rest := r; capture := cap |}.
Proof.
  intros He. induction y as [|c y IH]; intros before Hy.
  - destruct (run_fence_end tail e (Some backtick) cap He) as (p & r & Ht & R).
    exists p, r. split; [exact Ht|].
    change ("" ++ "```" ++ tail) with (String backtick ("``" ++ tail)).
    cbn [greedy_scan]. replace (Ascii.eqb LF backtick) with false by reflexivity.
    change (String backtick ("``" ++ tail)) with ("```" ++ tail).
    rewrite run_Seq, run_Lit_app. exact R.
  - cbn [Str.all_chars] in Hy. apply andb_true_iff in Hy as [Hc Hy].
    destruct (IH (Some c) Hy) as (p & r & Ht & R).
    exists p, r. split; [exact Ht|].
    change (String c y ++ "```" ++ tail) with (String c (y ++ "```" ++ tail)).
    cbn [greedy_scan]. now rewrite Hc, R.
Qed.

(** The closing fence does not match before a character that is neither a
    line feed nor a backtick. *)
Lemma run_fence_close_none (r2 : regex) (k : state -> option state)
    (cap : option string) (s : string) :
  forall y before,
    Str.all_chars not_backtick y = true ->
    Str.all_chars (Ascii.eqb LF) y = false ->
    greedy_scan (Ascii.eqb LF) (fun st => run (Seq (Lit "```") r2) st k) before (y ++ s) cap =
    None.
Proof.
  induction y as [|c y IH]; intros before Hb Hl; [discriminate Hl|].
  cbn [Str.all_chars] in Hb, Hl. apply andb_true_iff in Hb as [Hc Hb].
  change (String c y ++ s) with (String c (y ++ s)). cbn [greedy_scan].
  assert (Here : run (Seq (Lit "```") r2)
                    {| prev := before; rest := String c (y ++ s); capture := cap |} k
                 = None).
  { rewrite run_Seq. apply run_Lit_none. cbn [rest]. unfold Str.startsWith. rewrite prefix_cons.
    unfold not_backtick in Hc. apply negb_true_iff in Hc.
    change (Ascii.eqb "`" c) with (Ascii.eqb backtick c). now rewrite Hc. }
  destruct (Ascii.eqb LF c) eqn:E.
  - cbn [andb] in Hl. now rewrite (IH (Some c) Hb Hl), Here.
  - exact Here.
Qed.

(** The content and the closing fence, [([\s\S]*?)\n*```(?:\s*\n|$)]: the
    content ends where only line feeds are left before the closing fence. *)
Lemma lazy_fence_content (full tail e : string) (cap : option string) :
  fence_end tail = Some e ->
  forall x pre before,
    full = pre ++ x ++ "```" ++ tail ->
    Str.all_chars not_backtick x = true ->
    exists g lfs p r,
      x = g ++ lfs /\ Str.all_chars (Ascii.eqb LF) lfs = true /\ tail = e ++ r /\
      lazy_scan (fun _ => true)
        (fun st1 =>
           run (Seq (Star true newline)
                  (Seq (Lit "```") (Alt (Seq (Star true space) newline) Eol)))
             {| prev := prev st1; rest := rest st1;
                capture := Some (consumed full (rest st1)) |} Some)
        before (x ++ "```" ++ tail) cap =
      Some {| prev := p; rest := r; capture := Some (pre ++ g) |}.
Proof.
  intros He. induction x as [|c x IH]; intros pre before Hfull Hb.
  - destruct (run_fence_close tail e (Some (consumed full ("" ++ "```" ++ tail))) He
                "" before eq_refl) as (p & r & Ht & R).
    exists "", "", p, r. repeat split; [exact Ht|].
    rewrite lazy_scan_unfold. cbn [prev rest]. rewrite run_Seq.
    change (Star true newline) with (Star true (Char (Ascii.eqb LF))).
      rewrite run_star_greedy_char, R. cbn [or_try].
    now rewrite (consumed_app_eq full pre _ Hfull), Str.append_nil_r.
  - destruct (Str.all_chars (Ascii.eqb LF) (String c x)) eqn:Hl.
    + destruct (run_fence_close tail e
                  (Some (consumed full (String c x ++ "```" ++ tail))) He
                  (String c x) before Hl) as (p & r & Ht & R).
      exists "", (String c x), p, r. repeat split; [exact Hl | exact Ht|].
      rewrite lazy_scan_unfold. cbn [prev rest]. rewrite run_Seq.
      change (Star true newline) with (Star true (Char (Ascii.eqb LF))).
      rewrite run_star_greedy_char, R. cbn [or_try].
      now rewrite (consumed_app_eq full pre _ Hfull), Str.append_nil_r.
    + pose proof Hb as Hb'. cbn [Str.all_chars] in Hb'.
      apply andb_true_iff in Hb' as [Hc Hx].
      destruct (IH (pre ++ String c "") (Some c)) as (g & lfs & p & r & Hg & Hlfs & Ht & R).
      { rewrite Hfull, Str.append_assoc. reflexivity. }
      { exact Hx. }
      exists (String c g), lfs, p, r. split; [now rewrite Hg|].
      split; [exact Hlfs|]. split; [exact Ht|].
      change (String c x ++ "```" ++ tail) with (String c (x ++ "```" ++ tail)).
      rewrite lazy_scan_unfold. cbn [prev rest]. rewrite run_Seq.
      change (Star true newline) with (Star true (Char (Ascii.eqb LF))).
      rewrite run_star_greedy_char.
      change (String c (x ++ "```" ++ tail)) with (String c x ++ "```" ++ tail).
      rewrite (run_fence_close_none _ _ _ ("```" ++ tail) (String c x) before Hb Hl).
      cbn [or_try].
      change (Star true (Char (Ascii.eqb LF))) with (Star true newline).
      rewrite R. now rewrite Str.append_assoc.
Qed.

Lemma run_fence_body (x tail e : string) (before : option ascii) (cap : option string) :
  Str.all_chars not_backtick x = true ->
  fence_end tail = Some e ->
  exists g lfs p r,
    x = g ++ lfs /\ Str.all_chars (Ascii.eqb LF) lfs = true /\ tail = e ++ r /\
    run (Seq (Group (Star false any))
           (Seq (Star true newline)
              (Seq (Lit "```") (Alt (Seq (Star true space) newline) Eol))))
      {| prev := before; rest := x ++ "```" ++ tail; capture := cap |} Some =
    Some {| prev := p; rest := r; capture := Some g |}.
Proof.
  intros Hb He.
  destruct (lazy_fence_content (x ++ "```" ++ tail) tail e cap He x "" before eq_refl Hb)
    as (g & lfs & p & r & Hg & Hl & Ht & R).
  exists g, lfs, p, r. repeat split; try assumption.
  etransitivity; [|exact R]. rewrite run_Seq. unfold any. cbn [run rest].
  apply (star_lazy_char (fun _ => true)). apply Nat.le_refl.
Qed.

Lemma strip_prefix_before_backtick (p : string) :
  Str.all_chars not_backtick p = true ->
  forall x s,
    strip_prefix p x = None -> strip_prefix p (x ++ String backtick s) = None.
Proof.
  induction p as [|a p IH]; intros Hp x s; cbn [strip_prefix]; [discriminate|].
  cbn [Str.all_chars] in Hp. apply andb_true_iff in Hp as [Ha Hp].
  destruct x as [|b x]; cbn [String.append].
  - intros _. unfold not_backtick in Ha. apply negb_true_iff in Ha.
    rewrite Ascii.eqb_sym in Ha. now rewrite Ha.
  - destruct (Ascii.eqb a b); [now apply IH | reflexivity].
Qed.

(** The fence pattern after the opening fence, on a fenced input. *)
Lemma run_mermaid_rule_fenced (between tail e : string) :
  Str.all_chars not_backtick between = true ->
  fence_end tail = Some e ->
  exists g lfs p r,
    fence_content between = g ++ lfs /\
    Str.all_chars (Ascii.eqb LF) lfs = true /\
    tail = e ++ r /\
    run (Seq (Opt (Seq (Lit "mermaid") (Seq (Star true space) newline)))
           (Seq (Group (Star false any))
              (Seq (Star true newline)
                 (Seq (Lit "```") (Alt (Seq (Star true space) newline) Eol)))))
      {| prev := Some backtick; rest := between ++ "```" ++ tail; capture := None |} Some =
    Some {| prev := p; rest := r; capture := Some g |}.
Proof.
  intros Hb He. unfold fence_content.
  destruct (strip_prefix "mermaid" between) as [after|] eqn:P;
    [destruct (line_break after) as [[e' body]|] eqn:L|].
  - apply strip_prefix_spec in P.
    destruct (line_break_split _ _ _ L) as [Ha He'].
    assert (Hbody : Str.all_chars not_backtick body = true).
    { rewrite P, Ha, !all_chars_app in Hb.
      apply andb_true_iff in Hb as [_ Hb]. now apply andb_true_iff in Hb as [_ Hb]. }
    destruct (run_fence_body body tail e (Some LF) None Hbody He)
      as (g & lfs & p & r & Hg & Hl & Ht & R).
    exists g, lfs, p, r. split; [exact Hg|]. split; [exact Hl|]. split; [exact Ht|].
    assert (Lb : line_break (after ++ "```" ++ tail) = Some (e', body ++ "```" ++ tail)).
    { change (after ++ "```" ++ tail) with (after ++ String backtick ("``" ++ tail)).
      rewrite line_break_app by reflexivity. now rewrite L. }
    rewrite run_Seq. unfold Opt. rewrite run_Alt, (run_Seq (Lit "mermaid")).
    rewrite P, Str.append_assoc, run_Lit_app.
    rewrite (run_Seq (Star true space) newline).
    change (Star true space) with (Star true (Char Str.is_space)) at 1.
    rewrite run_star_greedy_char, greedy_line_break.
    + rewrite Lb, R. reflexivity.
    + intros e0 r0. rewrite Lb. intros H.
      assert (Hr : r0 = body ++ "```" ++ tail) by congruence.
      subst r0. now rewrite R.
  - apply strip_prefix_spec in P.
    destruct (run_fence_body between tail e (Some backtick) None Hb He)
      as (g & lfs & p & r & Hg & Hl & Ht & R).
    exists g, lfs, p, r. split; [exact Hg|]. split; [exact Hl|]. split; [exact Ht|].
    assert (Lb : line_break (after ++ "```" ++ tail) = None).
    { change (after ++ "```" ++ tail) with (after ++ String backtick ("``" ++ tail)).
      rewrite line_break_app by reflexivity. now rewrite L. }
    rewrite run_Seq. unfold Opt. rewrite run_Alt, (run_Seq (Lit "mermaid")).
    rewrite P at 1. rewrite Str.append_assoc, run_Lit_app.
    rewrite (run_Seq (Star true space) newline).
    change (Star true space) with (Star true (Char Str.is_space)) at 1.
    rewrite run_star_greedy_char, greedy_line_break.
    + rewrite Lb. cbn [or_try]. exact R.
    + intros e0 r0. rewrite Lb. discriminate.
  - destruct (run_fence_body between tail e (Some backtick) None Hb He)
      as (g & lfs & p & r & Hg & Hl & Ht & R).
    exists g, lfs, p, r. split; [exact Hg|]. split; [exact Hl|]. split; [exact Ht|].
    rewrite run_Seq. unfold Opt. rewrite run_Alt, (run_Seq (Lit "mermaid")), run_Lit_none.
    + cbn [or_try]. exact R.
    + cbn [rest]. apply strip_prefix_none.
      change (between ++ "```" ++ tail) with (between ++ String backtick ("``" ++ tail)).
      now apply strip_prefix_before_backtick.
Qed.

(** The fence pattern on a fenced input: it matches from the opening fence
    through the end of the closing fence, and group 1 is the content of the
    fence up to the line feeds before the closing fence. *)
Lemma exec_mermaid_rule_fenced (between tail e : string) :
  Str.all_chars not_backtick between = true ->
  fence_end tail = Some e ->
  exists g lfs r,
    fence_content between = g ++ lfs /\
    Str.all_chars (Ascii.eqb LF) lfs = true /\
    tail = e ++ r /\
    exec mermaid_rule ("```" ++ between ++ "```" ++ tail) =
    Some {| index := 0; matched := "```" ++ between ++ "```" ++ e;
            group1 := Some g; after := r |}.
Proof.
  intros Hb He.
  destruct (run_mermaid_rule_fenced between tail e Hb He)
    as (g & lfs & p & r & Hg & Hl & Ht & R).
  exists g, lfs, r. split; [exact Hg|]. split; [exact Hl|]. split; [exact Ht|].
  unfold mermaid_rule. rewrite exec_Bol, run_Seq, run_Lit_app. cbn [last_char].
  change (Some "`"%char) with (Some backtick). rewrite R. cbn [rest capture].
  do 2 f_equal. apply consumed_app_eq. rewrite Ht. now rewrite !Str.append_assoc.
Qed.

Lemma greedy_scan_trimStart (cap : option string) :
  forall s before,
    exists p,
      greedy_scan Str.is_space Some before s cap =
      Some {| prev := p; rest := Str.trimStart s; capture := cap |}.
Proof.
  induction s as [|c s IH]; intros before; cbn [greedy_scan Str.trimStart].
  - now exists before.
  - destruct (Str.is_space c).
    + destruct (IH (Some c)) as [p ->]. now exists p.
    + now exists before.
Qed.

Lemma trimStart_idem (s : string) : Str.trimStart (Str.trimStart s) = Str.trimStart s.
Proof.
  induction s as [|c s IH]; cbn [Str.trimStart]; [reflexivity|].
  destruct (Str.is_space c) eqn:E; [exact IH|]. cbn [Str.trimStart]. now rewrite E.
Qed.

(** The text of the token: [showData] goes into a pie chart, after [pie],
    and what follows [pie] is trimmed. *)
Lemma processed_content (content : string) :
  (if Str.startsWith "pie" content
   then "pie showData" ++ String LF (Str.trim (replace_first pie_rule "" content))
   else content) = diagram_text content.
Proof.
  unfold diagram_text.
  destruct (strip_prefix "pie" content) as [rest|] eqn:P.
  - apply strip_prefix_spec in P. subst content. rewrite Str.startsWith_app.
    unfold replace_first, pie_rule. rewrite exec_Bol, run_Seq, run_Lit_app.
    unfold space. rewrite run_star_greedy_char.
    destruct (greedy_scan_trimStart None rest (last_char None "pie")) as [p ->].
    cbn [index after Regex.rest String.substring String.append].
    unfold Str.trim. now rewrite trimStart_idem.
  - now rewrite (strip_prefix_none _ _ P).
Qed.

(** C6 (as amended).  On an input that is an opening fence, a text without
    a backtick, and a closing fence followed by the end of the input or by a
    line break, the tokenizer emits a [mermaidBlock] token exactly when the
    trimmed content of the fence begins with [pie], [graph],
    [sequenceDiagram], [gantt], [classDiagram] or [flowchart] followed by
    white space, and no token otherwise.  The content of the fence is all
    the text between the fences, the info string of the opening fence
    included; only a leading [mermaid] with the line break after it is left
    out.  The token holds the input through the end of the closing fence as
    [raw], and the trimmed content as [text], with [showData] added to a pie
    chart.  On an input that does not begin with a fence, the tokenizer emits
    no token. *)
Theorem mermaidBlock_tokenizer_fence_content (between tail e : string) :
  Str.all_chars not_backtick between = true ->
  fence_end tail = Some e ->
  (begins_diagram (Str.trim (fence_content between)) ->
   mermaidBlock_tokenizer ("```" ++ between ++ "```" ++ tail) =
   Normal (Some {| type := "mermaidBlock"; raw := "```" ++ between ++ "```" ++ e;
                   tokens := [];
                   text := diagram_text (Str.trim (fence_content between)) |})) /\
  (~ begins_diagram (Str.trim (fence_content between)) ->
   mermaidBlock_tokenizer ("```" ++ between ++ "```" ++ tail) = Normal None) /\
  (forall src, Str.startsWith "```" src = false -> mermaidBlock_tokenizer src = Normal None).
Proof.
  intros Hb He.
  destruct (exec_mermaid_rule_fenced between tail e Hb He)
    as (g & lfs & r & Hg & Hl & Ht & Hexec).
  assert (Hcontent : Str.trim g = Str.trim (fence_content between)).
  { rewrite Hg. symmetry.
    exact (trim_space "" g lfs eq_refl (line_feeds_are_space lfs Hl)). }
  split; [|split].
  - intros Hd. unfold mermaidBlock_tokenizer. rewrite Hexec.
    cbn [group1_trim group1 bind matched]. rewrite Hcontent.
    apply test_diagram_rule in Hd. rewrite Hd. now rewrite processed_content.
  - intros Hd. unfold mermaidBlock_tokenizer. rewrite Hexec.
    cbn [group1_trim group1 bind matched]. rewrite Hcontent.
    destruct (test diagram_rule (Str.trim (fence_content between))) eqn:T; [|reflexivity].
    apply test_diagram_rule in T. contradiction.
  - intros src Hsrc. unfold mermaidBlock_tokenizer, mermaid_rule.
    rewrite exec_Bol, run_Seq, run_Lit_none; [reflexivity | exact Hsrc].
Qed.

(** C6 as it is worded, with the content of a fenced block read as the
    lines after the line of the opening fence, fails: a diagram under the info
    string [js] gives no token, although its content begins with [graph]. *)
Lemma fence_content_includes_info_string :
  ~ (forall info content,
       Str.all_chars (fun c => not_backtick c && negb (Ascii.eqb LF c)) info = true ->
       Str.all_chars not_backtick content = true ->
       ((exists token,
           mermaidBlock_tokenizer (fenced_block info content) = Normal (Some token) /\
           type token = "mermaidBlock")
        <-> begins_diagram (Str.trim content))).
Proof.
  intros H. specialize (H "js" "graph TD" eq_refl eq_refl).
  destruct (proj2 H) as (token & Htoken & _).
  - exists "graph". split; [cbn; tauto|]. exists " "%char, "TD". split; reflexivity.
  - vm_compute in Htoken. discriminate Htoken.
Qed.

Lemma mermaidBlock_tokenizer_fence_content_witness :
  mermaidBlock_tokenizer
    ("```mermaid" ++ String LF ("pie title Pets" ++ String LF ("```" ++ String LF "next"))) =
  Normal (Some {| type := "mermaidBlock";
                  raw := "```mermaid" ++ String LF ("pie title Pets" ++ String LF
                                                     ("```" ++ String LF ""));
                  tokens := [];
                  text := "pie showData" ++ String LF "title Pets" |}) /\
  mermaidBlock_tokenizer (fenced_block "graph TD" "") =
  Normal (Some {| type := "mermaidBlock"; raw := fenced_block "graph TD" "";
                  tokens := []; text := "graph TD" |}) /\
  mermaidBlock_tokenizer (fenced_block "js" "graph TD") = Normal None.
Proof.
  split; [|split].
  - apply (proj1 (mermaidBlock_tokenizer_fence_content
                    ("mermaid" ++ String LF ("pie title Pets" ++ String LF ""))
                    (String LF "next") (String LF "") eq_refl eq_refl)).
    exists "pie". split; [cbn; tauto|]. exists " "%char, "title Pets". split; reflexivity.
  - apply (proj1 (mermaidBlock_tokenizer_fence_content
                    ("graph TD" ++ String LF (String LF "")) "" "" eq_refl eq_refl)).
    exists "graph". split; [cbn; tauto|]. exists " "%char, "TD". split; reflexivity.
  - apply (proj1 (proj2 (mermaidBlock_tokenizer_fence_content
                           ("js" ++ String LF ("graph TD" ++ String LF "")) "" ""
                           eq_refl eq_refl))).
    intros (kind & Hin & c & rest & Heq & _). cbn [In diagram_kinds] in Hin.
    vm_compute in Heq.
    repeat destruct Hin as [<- | Hin]; try discriminate Heq. destruct Hin.
Defined.

(** *** Further properties of the tokenizers *)

Lemma sets_group_latex_rule : sets_group latex_rule = true.
Proof. reflexivity. Qed.

(** Neither tokenizer throws, and a token they emit takes its [raw] text
    from the very start of the input: the parser, which cuts [raw.length]
    characters off the input after a token, never skips or repeats text. *)
Theorem tokenizers_consume_a_prefix (src : string) :
  (exists result,
     latexBlock_tokenizer src = Normal result /\
     forall token, result = Some token -> exists rest, src = raw token ++ rest) /\
  (exists result,
     mermaidBlock_tokenizer src = Normal result /\
     forall token, result = Some token -> exists rest, src = raw token ++ rest).
Proof.
  split.
  - unfold latexBlock_tokenizer.
    destruct (exec latex_rule src) as [m|] eqn:Hm.
    + apply exec_Bol_inv in Hm as (_ & Hs & Hg).
      specialize (Hg sets_group_latex_rule). unfold group1_trim.
      destruct (group1 m) as [g|]; [|discriminate]. cbn [bind].
      eexists. split; [reflexivity|]. intros token [= <-]. cbn [raw]. eauto.
    + eexists. split; [reflexivity|]. discriminate.
  - unfold mermaidBlock_tokenizer.
    destruct (exec mermaid_rule src) as [m|] eqn:Hm.
    + apply exec_Bol_inv in Hm as (_ & Hs & Hg).
      specialize (Hg sets_group_mermaid_rule). unfold group1_trim.
      destruct (group1 m) as [g|]; [|discriminate]. cbn [bind].
      destruct (test diagram_rule (Str.trim g)).
      * eexists. split; [reflexivity|]. intros token [= <-]. cbn [raw]. eauto.
      * eexists. split; [reflexivity|]. discriminate.
    + eexists. split; [reflexivity|]. discriminate.
Qed.

(** [start] of the formula extension answers 0 when the input begins with
    [$$] and nothing otherwise; whenever the tokenizer emits a token, [start]
    has announced it. *)
Theorem latexBlock_start_announces_tokens (src : string) :
  latexBlock_start src = (if Str.startsWith "$$" src then Some 0 else None) /\
  (forall token, latexBlock_tokenizer src = Normal (Some token) ->
                 latexBlock_start src = Some 0).
Proof.
  assert (S : latexBlock_start src = if Str.startsWith "$$" src then Some 0 else None).
  { unfold latexBlock_start, latex_start_rule. rewrite exec_Bol.
    destruct (Str.startsWith "$$" src) eqn:P.
    - apply Str.startsWith_inv in P as [r ->]. now rewrite run_Lit_app.
    - now rewrite run_Lit_none. }
  split; [exact S|].
  intros token H. rewrite S.
  destruct (Str.startsWith "$$" src) eqn:P; [reflexivity|].
  unfold latexBlock_tokenizer in H. rewrite exec_latex_rule_no_open in H by exact P.
  discriminate.
Qed.

Lemma run_kind_after_fence_mermaid (kind x : string) :
  Str.startsWith kind ("mermaid" ++ x) = false ->
  run (Seq (Star true (Char (fun c => Str.is_space c || Ascii.eqb LF c)))
           (Seq (Lit kind) (Plus true space)))
      {| prev := Some backtick; rest := "mermaid" ++ x; capture := None |} Some = None.
Proof.
  intros H. rewrite run_Seq, run_star_greedy_char.
  cbn [String.append greedy_scan]. cbn [Str.is_space Str.code orb].
  replace (Str.is_space "m" || Ascii.eqb LF "m") with false by reflexivity.
  rewrite run_Seq. now rewrite run_Lit_none.
Qed.

(** [start] of the diagram extension sees a fence with the info string
    [mermaid] only when nothing but white space follows to the end of the
    input (the [$] of its pattern is the end of the input, not of the line):
    when any other character follows, as the diagram source does, it answers
    nothing. *)
Theorem mermaidBlock_start_info_string (ws : string) :
  Str.all_chars Str.is_space ws = true ->
  mermaidBlock_start ("```mermaid" ++ ws) = Some 0 /\
  (forall c rest,
     Str.is_space c = false ->
     mermaidBlock_start ("```mermaid" ++ ws ++ String c rest) = None).
Proof.
  intros Hws. unfold mermaidBlock_start, mermaid_start_rule. split.
  - rewrite exec_Bol, run_Seq.
    change ("```mermaid" ++ ws) with ("```" ++ "mermaid" ++ ws).
    rewrite run_Lit_app, run_Alt, run_Seq, run_Lit_app, run_Seq.
    unfold space. rewrite run_star_greedy_char, greedy_scan_to_end by exact Hws.
    reflexivity.
  - intros c rest Hc. rewrite exec_Bol, run_Seq.
    change ("```mermaid" ++ ws ++ String c rest)
      with ("```" ++ "mermaid" ++ ws ++ String c rest).
    rewrite run_Lit_app. cbn [last_char].
    rewrite !run_Alt.
    rewrite !run_kind_after_fence_mermaid by reflexivity.
    rewrite run_Seq, run_Lit_app, run_Seq.
    unfold space. rewrite run_star_greedy_char.
    rewrite (greedy_scan_not_at_end Str.is_space None c rest Hc ws _ Hws).
    reflexivity.
Qed.

Lemma mermaidBlock_start_info_string_witness :
  mermaidBlock_start ("```mermaid" ++ String LF ("graph TD" ++ String LF "```")) = None /\
  mermaidBlock_tokenizer ("```mermaid" ++ String LF ("graph TD" ++ String LF "```")) =
  Normal (Some {| type := "mermaidBlock";
                  raw := "```mermaid" ++ String LF ("graph TD" ++ String LF "```");
                  tokens := []; text := "graph TD" |}).
Proof.
  split; [|reflexivity].
  exact (proj2 (mermaidBlock_start_info_string (String LF "") eq_refl)
           "g"%char ("raph TD" ++ String LF "```") eq_refl).
Defined.

End Tokenizers.

(** ** renderer.ts: the renderer overrides *)

(** The tokens the overrides take, with the fields they read. *)
Module Tokens.

Record Heading : Type := { heading_text : string; depth : nat }.

Record Code : Type := { code_text : string; lang : option string }.

Record Paragraph : Type := {
  paragraph_text : string;
  paragraph_tokens : option (list Token)
}.

(** [Tokens.Link] and [Tokens.Image]; an absent or [null] title is [None]. *)
Record Link : Type := { href : string; title : option string; link_text : string }.

(** A block token with the fields [renderer.list] and [renderer.listitem]
    read: [type], [raw] and [text] (empty when the token has none), and, of a
    token of type [list] (a [Tokens.List]), [ordered], [start] and [items];
    and [Tokens.ListItem], whose [tokens] may be absent. *)
Inductive Block : Type := mkBlock {
  block_type : string;
  block_raw : string;
  block_text : string;
  ordered : bool;
  start : value;
  items : list ListItem
}
with ListItem : Type := mkListItem {
  task : bool;
  checked : bool;
  item_text : string;
  item_tokens : option (list Block)
}.

(** [Tokens.TableCell] and [Tokens.Table] *)
Record TableCell : Type := { cell_text : string }.

Record Table : Type := { header : list TableCell; rows : list (list TableCell) }.

End Tokens.

Module Renderer.
Import Styles Regex Tokenizers.

Definition quote : string := String (ascii_of_nat 34) "".

(** [styleStr ? ` style="${styleStr}"` : ""] *)
Definition style_attr (styleStr : string) : string :=
  if styleStr =? "" then "" else " style=" ++ quote ++ styleStr ++ quote.

(** A computation with effects that may throw, and one that cannot. *)
Definition eff (A : Type) : Type := (list event * completion A)%type.
Definition traced (A : Type) : Type := (list event * A)%type.

Definition ret {A} (a : A) : eff A := ([], Normal a).

Definition lift {A} (c : completion A) : eff A := ([], c).

Definition eff_bind {A B} (m : eff A) (f : A -> eff B) : eff B :=
  match m with
  | (evs, Normal a) => let (evs', b) := f a in ((evs ++ evs')%list, b)
  | (evs, Throw e) => (evs, Throw e)
  end.

Notation "x <-- m ;; k" := (eff_bind m (fun x => k))
  (at level 61, m at next level, right associativity).

(** [try { body } catch (error) { handler }] *)
Definition try_catch {A} (body : eff A) (handler : string -> traced A) : traced A :=
  match body with
  | (evs, Normal a) => (evs, a)
  | (evs, Throw error) => let (evs', a) := handler error in ((evs ++ evs')%list, a)
  end.

(** [xs.map(f)] for a callback with effects: the first exception ends the
    loop. *)
Definition mapE {A B} (f : A -> eff B) : list A -> eff (list B) :=
  fix go (xs : list A) : eff (list B) :=
    match xs with
    | [] => ret []
    | x :: xs' => y <-- f x ;; ys <-- go xs' ;; ret (y :: ys)
    end.

(** [console.error(label, error)] *)
Definition console_error (label error : string) : list event := [ConsoleError label error].

(** The character class [[^\n$]] *)
Definition formula_char (c : ascii) : bool := negb (Ascii.eqb LF c || Ascii.eqb dollar c).

(** [/(?<!\$)\$([^\n$]+?)\$/g] *)
Definition inline_latex_rule : regex :=
  Seq (NotAfter (Ascii.eqb dollar))
    (Seq (Char (Ascii.eqb dollar))
    (Seq (Group (Plus false (Char formula_char)))
         (Char (Ascii.eqb dollar)))).

Section WithOptions.
Context {rt : Runtime} {libs : Libraries}.

(** [this.options] *)
Variable options : RendererOptions.

(** [katex.renderToString(tex, {displayMode, throwOnError: false})] *)
Definition call_katex (tex : string) (displayMode : bool) : eff string :=
  ([KatexCall tex displayMode], katex_renderToString tex displayMode).

(** [this.options.block?.[key] || {}] *)
Definition block_style (key : string) : StyleOptions :=
  match block options with
  | Some b => match JS.get key b with Some style => style | None => [] end
  | None => []
  end.

(** [this.options.inline?.[key] || {}] *)
Definition inline_style (key : string) : StyleOptions :=
  match inline options with
  | Some b => match JS.get key b with Some style => style | None => [] end
  | None => []
  end.

(** [this.options.base?.themeColor] *)
Definition base_themeColor : value :=
  match base options with Some b => themeColor b | None => VUndefined end.

(** The [renderer] of [latexBlockTokenizer]. *)
Definition latexBlock_renderer (token : Token) : traced string :=
  try_catch
    (let latexStyle := block_style "latex" in
     let style :=
       JS.spread latexStyle
         [("display", VString "block"); ("margin", VString "1em 0");
          ("textAlign", VString "center")] in
     styleStr <-- lift (cssPropertiesToString (Some style)) ;;
     rendered <-- call_katex (text token) true ;;
     ret ("<div" ++ style_attr styleStr ++ ">" ++ rendered ++ "</div>"))
    (fun error => (console_error "LaTeX rendering error:" error, raw token)).

(** The [renderer] of [mermaidBlockTokenizer]. *)
Definition mermaidBlock_renderer (token : Token) : traced string :=
  try_catch
    (let mermaidStyle := block_style "mermaid" in
     let style :=
       JS.spread mermaidStyle
         [("display", VString "block"); ("margin", VString "1em 0");
          ("textAlign", VString "center"); ("background", VString "transparent")] in
     styleStr <-- lift (cssPropertiesToString (Some style)) ;;
     ret ("<div" ++ style_attr styleStr ++ " class=" ++ quote ++ "mermaid" ++ quote ++ ">"
          ++ text token ++ "</div>"))
    (fun error =>
       (console_error "Mermaid rendering error:" error,
        "<pre><code class=" ++ quote ++ "language-mermaid" ++ quote ++ ">"
        ++ text token ++ "</code></pre>")).

(** The replacement function of [renderer.text], for one inline formula. *)
Definition inline_latex (m : match_result) : traced string :=
  try_catch
    (tex <-- lift (group1_trim m) ;;
     call_katex tex false)
    (fun error => (console_error "LaTeX inline rendering error:" error, matched m)).

(** [renderer.text] *)
Definition renderer_text (token : Token) : traced string :=
  replace_all inline_latex_rule inline_latex (text token).

(** [renderer.heading] *)
Definition renderer_heading (token : Tokens.Heading) : completion string :=
  let text := Tokens.heading_text token in
  let depth := Str.of_nat (Tokens.depth token) in
  let headingKey := "h" ++ depth in
  let headingStyle := block_style headingKey in
  let style := JS.spread headingStyle [("color", base_themeColor)] in
  styleStr <- cssPropertiesToString (Some style) ;;
  let tokens := lexInline text in
  let content := parseInline options tokens in
  Normal ("<h" ++ depth ++ style_attr styleStr ++ ">" ++ content ++ "</h" ++ depth ++ ">").

(** [marked.Parser.parseInline(marked.Lexer.lexInline(text), {renderer})] *)
Definition inline_html (text : string) : string := parseInline options (lexInline text).

(** [title ? ` title="${title}"` : ""] *)
Definition title_attr (title : option string) : string :=
  match title with
  | Some t => if t =? "" then "" else " title=" ++ quote ++ t ++ quote
  | None => ""
  end.

(** [renderer.paragraph] *)
Definition renderer_paragraph (token : Tokens.Paragraph) : completion string :=
  let paragraphStyle := block_style "p" in
  let style :=
    JS.spread paragraphStyle
      [("fontSize", match base options with Some b => fontSize b | None => VUndefined end);
       ("lineHeight", match base options with Some b => lineHeight b | None => VUndefined end)] in
  styleStr <- cssPropertiesToString (Some style) ;;
  let content :=
    match Tokens.paragraph_tokens token with
    | Some tokens =>
        Str.join ""
          (map (fun token =>
                  if type token =? "text" then inline_html (text token)
                  else parseInline options [token])
               tokens)
    | None => inline_html (Tokens.paragraph_text token)
    end in
  Normal ("<p" ++ style_attr styleStr ++ ">" ++ content ++ "</p>").

(** [renderer.blockquote] *)
Definition renderer_blockquote (token : Token) : completion string :=
  let blockquoteStyle := block_style "blockquote" in
  color <- JS.ToString (JS.or_else base_themeColor (VString "#1a1a1a")) ;;
  let style := JS.spread blockquoteStyle [("borderLeft", VString ("4px solid " ++ color))] in
  styleStr <- cssPropertiesToString (Some style) ;;
  let content := inline_html (text token) in
  Normal ("<blockquote" ++ style_attr styleStr ++ ">" ++ content ++ "</blockquote>").

(** [renderer.codespan] *)
Definition renderer_codespan (token : Token) : completion string :=
  let codespanStyle := inline_style "codespan" in
  styleStr <- cssPropertiesToString (Some codespanStyle) ;;
  Normal ("<code class=" ++ quote ++ "inline-code" ++ quote ++ style_attr styleStr ++ ">"
          ++ text token ++ "</code>").

(** [renderer.em] *)
Definition renderer_em (token : Token) : completion string :=
  let emStyle := inline_style "em" in
  let style := JS.spread emStyle [("fontStyle", VString "italic")] in
  styleStr <- cssPropertiesToString (Some style) ;;
  let content := inline_html (text token) in
  Normal ("<em" ++ style_attr styleStr ++ ">" ++ content ++ "</em>").

(** [renderer.strong] *)
Definition renderer_strong (token : Token) : completion string :=
  let strongStyle := inline_style "strong" in
  let style :=
    JS.spread strongStyle [("color", base_themeColor); ("fontWeight", VString "bold")] in
  styleStr <- cssPropertiesToString (Some style) ;;
  let content := inline_html (text token) in
  Normal ("<strong" ++ style_attr styleStr ++ ">" ++ content ++ "</strong>").

(** [renderer.link] *)
Definition renderer_link (token : Tokens.Link) : completion string :=
  let linkStyle := inline_style "link" in
  styleStr <- cssPropertiesToString (Some linkStyle) ;;
  Normal ("<a href=" ++ quote ++ Tokens.href token ++ quote
          ++ title_attr (Tokens.title token) ++ style_attr styleStr ++ ">"
          ++ Tokens.link_text token ++ "</a>").

(** [renderer.image] *)
Definition renderer_image (token : Tokens.Link) : completion string :=
  let imageStyle := block_style "image" in
  let style :=
    JS.spread imageStyle
      [("maxWidth", VString "100%"); ("display", VString "block");
       ("margin", VString "0.5em auto")] in
  styleStr <- cssPropertiesToString (Some style) ;;
  Normal ("<img src=" ++ quote ++ Tokens.href token ++ quote
          ++ title_attr (Tokens.title token)
          ++ " alt=" ++ quote ++ Tokens.link_text token ++ quote
          ++ style_attr styleStr ++ ">").

(** [renderer.del] *)
Definition renderer_del (token : Token) : completion string :=
  let styleOptions := inline_style "del" in
  styleStr <- cssPropertiesToString (Some styleOptions) ;;
  Normal ("<del" ++ style_attr styleStr ++ ">" ++ text token ++ "</del>").

(** [/\$\$([\s\S]+?)\$\$/g] *)
Definition block_latex_rule : regex :=
  Seq (Lit "$$") (Seq (Group (Plus false any)) (Lit "$$")).

(** The replacement function of [renderer.listitem], for one block formula. *)
Definition item_block_latex (m : match_result) : traced string :=
  try_catch
    (let latexStyle := block_style "latex" in
     let style :=
       JS.spread latexStyle
         [("display", VString "block"); ("margin", VString "1em 0");
          ("textAlign", VString "center")] in
     styleStr <-- lift (cssPropertiesToString (Some style)) ;;
     formula <-- lift (group1_trim m) ;;
     rendered <-- call_katex formula true ;;
     ret ("<div" ++ style_attr styleStr ++ ">" ++ rendered ++ "</div>"))
    (fun error => (console_error "LaTeX block rendering error:" error, matched m)).

(** [<input type="checkbox"${checked ? ' checked=""' : ""} disabled="" /> ] *)
Definition checkbox (checked : bool) : string :=
  "<input type=" ++ quote ++ "checkbox" ++ quote
  ++ (if checked then " checked=" ++ quote ++ quote else "")
  ++ " disabled=" ++ quote ++ quote ++ " /> ".

(** [v === 1] *)
Definition is_one (v : value) : bool :=
  match v with
  | VNumber x => PrimFloat.eqb x 1
  | _ => false
  end.

(** [renderer.list], and the body of [renderer.listitem] on
    [{...item, text}]: the item with its [text] replaced. *)
Fixpoint renderer_list (token : Tokens.Block) {struct token} : eff string :=
  let tag := if Tokens.ordered token then "ol" else "ul" in
  let listStyle := block_style tag in
  let style :=
    JS.spread listStyle
      [("listStyle", VString (if Tokens.ordered token then "decimal" else "disc"));
       ("paddingLeft", VString "2em");
       ("marginBottom", VString "16px")] in
  styleStr <-- lift (cssPropertiesToString (Some style)) ;;
  startAttr <-- lift (if Tokens.ordered token && negb (is_one (Tokens.start token))
                      then s <- JS.ToString (Tokens.start token) ;;
                           Normal (" start=" ++ quote ++ s ++ quote)
                      else Normal "") ;;
  items <-- mapE (fun item =>
                    let itemText :=
                      if Tokens.task item
                      then checkbox (Tokens.checked item) ++ Tokens.item_text item
                      else Tokens.item_text item in
                    listitem_with itemText item)
                 (Tokens.items token) ;;
  ret ("<" ++ tag ++ startAttr ++ style_attr styleStr ++ ">" ++ Str.join "" items
       ++ "</" ++ tag ++ ">")
with listitem_with (text : string) (item : Tokens.ListItem) {struct item} : eff string :=
  let listitemStyle := inline_style "listitem" in
  let style :=
    JS.spread listitemStyle
      [("marginBottom", VString "8px"); ("display", VString "list-item")] in
  styleStr <-- lift (cssPropertiesToString (Some style)) ;;
  content <-- match Tokens.item_tokens item with
              | Some tokens =>
                  parts <-- mapE (fun token =>
                                    if Tokens.block_type token =? "list"
                                    then renderer_list token
                                    else if (Tokens.block_type token =? "text")
                                            || (Tokens.block_type token =? "paragraph")
                                    then
                                      let (evs, processedText) :=
                                        replace_all block_latex_rule item_block_latex
                                          (if Tokens.block_text token =? ""
                                           then Tokens.block_raw token
                                           else Tokens.block_text token) in
                                      (evs, Normal (inline_html processedText))
                                    else ret (Tokens.block_raw token))
                                 tokens ;;
                  ret (Str.join "" parts)
              | None => ret (inline_html text)
              end ;;
  let content :=
    if Tokens.task item then checkbox (Tokens.checked item) ++ content else content in
  ret ("<li" ++ style_attr styleStr ++ ">" ++ content ++ "</li>").

(** [renderer.listitem] *)
Definition renderer_listitem (item : Tokens.ListItem) : eff string :=
  listitem_with (Tokens.item_text item) item.

(** [xs.map((x, i) => f(i, x))], counting from [i] *)
Fixpoint mapi_from {A B} (i : nat) (f : nat -> A -> B) (xs : list A) : list B :=
  match xs with
  | [] => []
  | x :: xs' => f i x :: mapi_from (S i) f xs'
  end.

(** [renderer.table] *)
Definition renderer_table (token : Tokens.Table) : completion string :=
  let header := Tokens.header token in
  let rows := Tokens.rows token in
  let themeColor := JS.or_else base_themeColor (VString "#00b38a") in
  let tableStyles :=
    Str.join ";"
      ["width:100%"; "margin-bottom:1em"; "border-collapse:separate"; "border-spacing:0";
       "font-size:14px"; "text-align:center"; "margin:1em 8px"; "border:1px solid #e0e0e0"] in
  let theadStyles := Str.join ";" ["font-weight:bold"] in
  themeColor <- JS.ToString themeColor ;;
  let thStyles :=
    Str.join ";"
      ["padding:12px 16px"; "border:none"; "background-color:" ++ themeColor;
       "color:#ffffff"; "font-weight:bold"; "font-size:14px"; "text-align:center";
       "word-wrap:break-word"; "overflow-wrap:break-word"] in
  let headerCells :=
    Str.join ""
      (map (fun cell =>
              let content := inline_html (Tokens.cell_text cell) in
              "<th style=" ++ quote ++ thStyles ++ quote
              ++ " bgcolor=" ++ quote ++ themeColor ++ quote
              ++ " align=" ++ quote ++ "center" ++ quote ++ ">" ++ content ++ "</th>")
           header) in
  let bodyRows :=
    Str.join ""
      (mapi_from 0
         (fun rowIndex row =>
            let isEven := Nat.odd rowIndex in
            let rowBgColor := if isEven then "#f7f7f7" else "#ffffff" in
            let trStyles := "" in
            let isLastRow := Nat.eqb rowIndex (List.length rows - 1) in
            let cells :=
              Str.join ""
                (map (fun cell =>
                        let tdStyles :=
                          Str.join ";"
                            (filter (fun s => negb (s =? ""))
                               ["background-color:" ++ rowBgColor;
                                "border:none";
                                "padding:12px 16px";
                                if isLastRow then "" else "border-bottom:1px solid #e0e0e0";
                                "color:#333333";
                                "text-align:center";
                                "word-wrap:break-word";
                                "overflow-wrap:break-word"]) in
                        let content := inline_html (Tokens.cell_text cell) in
                        "<td style=" ++ quote ++ tdStyles ++ quote
                        ++ " bgcolor=" ++ quote ++ rowBgColor ++ quote
                        ++ " align=" ++ quote ++ "center" ++ quote ++ ">" ++ content
                        ++ "</td>")
                     row) in
            "<tr" ++ style_attr trStyles ++ ">" ++ cells ++ "</tr>")
         rows) in
  Normal
    ("<table style=" ++ quote ++ tableStyles ++ quote ++ ">" ++ String LF
     ("        <thead style=" ++ quote ++ theadStyles ++ quote ++ ">" ++ String LF
      ("          <tr>" ++ headerCells ++ "</tr>" ++ String LF
       ("        </thead>" ++ String LF
        ("        <tbody>" ++ bodyRows ++ "</tbody>" ++ String LF
         "      </table>"))))).

(** [o.k] on a style object; an absent property is [undefined]. *)
Definition prop (k : string) (o : StyleOptions) : value :=
  match JS.get k o with Some v => v | None => VUndefined end.

Definition default_font : value := VString "Menlo, Monaco, Consolas, monospace".

(** [style="${s}"] *)
Definition style_is (s : string) : string := "style=" ++ quote ++ s ++ quote.

(** [this.options.codeTheme || "github"] *)
Definition code_theme : string :=
  match codeTheme options with
  | Some t => if t =? "" then "github" else t
  | None => "github"
  end.

(** [const forceDarkPalette = isLightCodeTheme(codeTheme)] in
    [renderer.code] *)
Definition code_forceDarkPalette : bool :=
  Themes.isLightCodeTheme codeThemes code_theme.

(** [const highlighted = highlightCode(text, lang || "", codeTheme,
    {forceDarkPalette})] in [renderer.code] *)
Definition code_highlighted (token : Tokens.Code) : string :=
  highlightCode (Tokens.code_text token)
    (match Tokens.lang token with Some l => l | None => "" end)
    code_theme code_forceDarkPalette.

(** [renderer.code] *)
Definition renderer_code (token : Tokens.Code) : completion string :=
  let forceDarkPalette := code_forceDarkPalette in
  let highlighted := code_highlighted token in
  let langLabel :=
    match Tokens.lang token with
    | Some l => if l =? "" then "CODE" else String_toUpperCase l
    | None => "CODE"
    end in
  let codePreOptions := block_style "code_pre" in
  let margin := prop "margin" codePreOptions in
  let marginTop := prop "marginTop" codePreOptions in
  let marginRight := prop "marginRight" codePreOptions in
  let marginBottom := prop "marginBottom" codePreOptions in
  let marginLeft := prop "marginLeft" codePreOptions in
  let boxShadow := prop "boxShadow" codePreOptions in
  let fontFamily := prop "fontFamily" codePreOptions in
  let codePreColor := prop "color" codePreOptions in
  let preStyleOptions :=
    fold_left (fun o k => JS.remove k o)
      ["margin"; "marginTop"; "marginRight"; "marginBottom"; "marginLeft";
       "background"; "backgroundColor"; "border"; "borderRadius"; "boxShadow";
       "fontFamily"; "color"]
      codePreOptions in
  let containerStyleObj :=
    [("borderRadius", VString "10px");
     ("overflow", VString "hidden");
     ("background", VString "linear-gradient(145deg, #1e1e1e, #2d2d2d)");
     ("boxShadow",
      JS.or_else boxShadow
        (VString "0 6px 24px rgba(0,0,0,0.25), 0 0 0 1px rgba(255,255,255,0.05)"));
     ("fontFamily", JS.or_else fontFamily default_font);
     ("margin", margin);
     ("marginTop", marginTop);
     ("marginRight", marginRight);
     ("marginBottom", marginBottom);
     ("marginLeft", marginLeft)] in
  let containerStyleObj :=
    if negb (JS.truthy margin) && negb (JS.truthy marginTop) &&
       negb (JS.truthy marginRight) && negb (JS.truthy marginBottom) &&
       negb (JS.truthy marginLeft)
    then JS.set "margin" (VString "1em 0") containerStyleObj
    else containerStyleObj in
  let preStyleObj :=
    JS.spread
      (JS.spread
         [("margin", VString "0");
          ("padding", VString "16px 20px");
          ("overflowX", VString "auto");
          ("fontFamily", JS.or_else fontFamily default_font);
          ("fontSize", VString "13px");
          ("lineHeight", VString "1.6")]
         preStyleOptions)
      [("background", VString "transparent");
       ("borderRadius", VString "0");
       ("border", VString "none")] in
  let codeStyleOptions := block_style "code" in
  let codeStyleObj :=
    JS.spread
      [("fontFamily", JS.or_else fontFamily default_font);
       ("fontSize",
        JS.or_else (prop "fontSize" codeStyleOptions)
          (JS.or_else (prop "fontSize" preStyleObj) (VString "13px")));
       ("lineHeight",
        JS.or_else (prop "lineHeight" codeStyleOptions)
          (JS.or_else (prop "lineHeight" preStyleObj) (VString "1.6")));
       ("color",
        JS.or_else (prop "color" codeStyleOptions)
          (JS.or_else (if negb forceDarkPalette then codePreColor else VUndefined)
             (VString (if forceDarkPalette then "#f8f8f2" else "#e0e0e0"))))]
      codeStyleOptions in
  containerStyle <- cssPropertiesToString (Some containerStyleObj) ;;
  preStyle <- cssPropertiesToString (Some preStyleObj) ;;
  codeStyle <- cssPropertiesToString (Some codeStyleObj) ;;
  font <- JS.ToString (JS.or_else fontFamily default_font) ;;
  let headerStyle :=
    Str.join "; "
      ["display: flex";
       "align-items: center";
       "justify-content: space-between";
       "padding: 12px 16px";
       "background: linear-gradient(180deg, #3a3a3a 0%, #2a2a2a 100%)";
       "border-bottom: 1px solid rgba(0,0,0,0.3)";
       "font-family: " ++ font] in
  let controlsStyle := "display: flex; gap: 8px;" in
  let btnBaseStyle :=
    "width: 12px; height: 12px; border-radius: 50%; display: inline-block;" in
  let closeBtnStyle :=
    btnBaseStyle ++ " background: linear-gradient(135deg, #ff605c 0%, #d94a46 100%);" in
  let minBtnStyle :=
    btnBaseStyle ++ " background: linear-gradient(135deg, #ffbd44 0%, #d9a038 100%);" in
  let maxBtnStyle :=
    btnBaseStyle ++ " background: linear-gradient(135deg, #00ca4e 0%, #00a63e 100%);" in
  let langStyle :=
    "font-size: 12px; font-weight: 600; color: #888; text-transform: uppercase; letter-spacing: 0.5px;" in
  Normal
    ("<section " ++ style_is containerStyle ++ "><section " ++ style_is headerStyle
     ++ "><section " ++ style_is controlsStyle
     ++ "><span " ++ style_is closeBtnStyle ++ "></span><span " ++ style_is minBtnStyle
     ++ "></span><span " ++ style_is maxBtnStyle ++ "></span></section><span "
     ++ style_is langStyle ++ ">" ++ langLabel ++ "</span></section><pre "
     ++ style_is preStyle ++ "><code " ++ style_is codeStyle ++ ">" ++ highlighted
     ++ "</code></pre></section>").

End WithOptions.
(** ** renderer.ts: the class and the global parser instance *)

(** A [TokenizerAndRendererExtension]. *)
Record Extension : Type := {
  name : string;
  level : string;
  start : string -> option nat;
  tokenizer : string -> completion (option Token);
  renderer : Token -> traced string
}.

(** The global [marked] instance, as far as [marked.use({extensions})]
    changes it: the extensions registered so far, the latest first.  The
    parser gives a token of a registered type to the renderer of the latest
    extension of that name (an earlier one is consulted only when a later one
    returns [false], which the renderers here never do). *)
Record Marked : Type := {
  extensions : list Extension
}.

(** [marked.use({ extensions })] *)
Definition marked_use (exts : list Extension) (marked : Marked) : Marked :=
  {| extensions := (rev exts ++ extensions marked)%list |}.

(** The renderer the parser calls for a token of the given type. *)
Definition extension_renderer (marked : Marked) (type : string)
    : option (Token -> traced string) :=
  option_map renderer (find (fun e => name e =? type) (extensions marked)).

(** The overrides installed on [this.renderer]. *)
Record RendererObject : Type := {
  text_override : Token -> traced string;
  heading_override : Tokens.Heading -> completion string;
  paragraph_override : Tokens.Paragraph -> completion string;
  blockquote_override : Token -> completion string;
  code_override : Tokens.Code -> completion string;
  codespan_override : Token -> completion string;
  em_override : Token -> completion string;
  strong_override : Token -> completion string;
  link_override : Tokens.Link -> completion string;
  image_override : Tokens.Link -> completion string;
  list_override : Tokens.Block -> eff string;
  listitem_override : Tokens.ListItem -> eff string;
  del_override : Token -> completion string;
  table_override : Tokens.Table -> completion string
}.

(** An instance of [MarkdownRenderer]. *)
Record MarkdownRenderer : Type := {
  options_field : RendererOptions;
  renderer_field : RendererObject
}.

Section Class.
Context {rt : Runtime} {libs : Libraries}.

(** [latexBlockTokenizer], of the instance with the given options *)
Definition latexBlockTokenizer (options : RendererOptions) : Extension :=
  {| name := "latexBlock"; level := "block";
     start := latexBlock_start;
     tokenizer := latexBlock_tokenizer;
     renderer := latexBlock_renderer options |}.

(** [mermaidBlockTokenizer], of the instance with the given options *)
Definition mermaidBlockTokenizer (options : RendererOptions) : Extension :=
  {| name := "mermaidBlock"; level := "block";
     start := mermaidBlock_start;
     tokenizer := mermaidBlock_tokenizer;
     renderer := mermaidBlock_renderer options |}.

(** [initializeRenderer()]: the overrides, closed over [this.options] *)
Definition initializeRenderer (options : RendererOptions) : RendererObject :=
  {| text_override := renderer_text;
     heading_override := renderer_heading options;
     paragraph_override := renderer_paragraph options;
     blockquote_override := renderer_blockquote options;
     code_override := renderer_code options;
     codespan_override := renderer_codespan options;
     em_override := renderer_em options;
     strong_override := renderer_strong options;
     link_override := renderer_link options;
     image_override := renderer_image options;
     list_override := renderer_list options;
     listitem_override := renderer_listitem options;
     del_override := renderer_del options;
     table_override := renderer_table options |}.

(** [initializeLatexExtension()] *)
Definition initializeLatexExtension (options : RendererOptions) (marked : Marked) : Marked :=
  marked_use [latexBlockTokenizer options] marked.

(** [initializeMermaidExtension()] *)
Definition initializeMermaidExtension (options : RendererOptions) (marked : Marked) : Marked :=
  marked_use [mermaidBlockTokenizer options] marked.

(** [new MarkdownRenderer(options)]: the instance, and the global parser
    instance after the construction. *)
Definition new_MarkdownRenderer (options : RendererOptions) (marked : Marked)
    : MarkdownRenderer * Marked :=
  let this := {| options_field := options;
                 renderer_field := initializeRenderer options |} in
  let marked := initializeLatexExtension options marked in
  let marked := initializeMermaidExtension options marked in
  (this, marked).

(** [getRenderer()] *)
Definition getRenderer (this : MarkdownRenderer) : RendererObject := renderer_field this.

End Class.

(** ** Properties of the overrides and of the class *)

(** *** code-highlight.ts *)

Module Highlight.

(** A piece of code as the grammar of the highlighting library gives it: its
    token type, [None] for plain text, and its text. *)
Definition piece : Type := (option string * string)%type.

(** Modelled from the spec: [highlightCode] of code-highlight.ts, which is
    not under src/ (its call in [renderer.code] is).  The spec calls it a
    code-syntax-highlighting helper, says that the per-token-type colours of
    a theme are used for syntax highlighting, and leaves the highlighting
    grammar to an external library that the code invokes and post-processes.
    The model: the grammar, a parameter, cuts the code into pieces; the
    helper writes plain text as it is and the text of a token type inside a
    [span] whose style is [getTokenStyles] of the theme, the token type and
    the [forceDarkPalette] option it was called with. *)
Definition highlightCode (grammar : string -> string -> list piece)
    (codeThemes : list Themes.ThemeConfig)
    (text lang theme : string) (forceDarkPalette : bool) : string :=
  Str.join ""
    (map (fun p : piece =>
            match fst p with
            | Some tokenType =>
                "<span style=" ++ quote
                ++ Themes.getTokenStyles codeThemes theme tokenType forceDarkPalette
                ++ quote ++ ">" ++ snd p ++ "</span>"
            | None => snd p
            end)
         (grammar text lang)).

End Highlight.


Section Properties.
Context {rt : Runtime} {libs : Libraries}.

Lemma spread_one {V} (o : JS.object V) (k : string) (v : V) :
  JS.spread o [(k, v)] = JS.set k v o.
Proof. reflexivity. Qed.

(** C7.  The heading override returns [<hd ...>content</hd>] for a heading
    of depth [d]: the style attribute holds the serialization of the style
    configured under [block.hd] with [color] set to [base.themeColor], and is
    left out exactly when that serialization is empty, which is when no entry
    of that style gives a declaration. *)
Theorem heading_inline_style
    (options : RendererOptions) (token : Tokens.Heading) (styleStr : string) :
  cssPropertiesToString
    (Some (JS.set "color" (base_themeColor options)
             (block_style options ("h" ++ Str.of_nat (Tokens.depth token))))) =
    Normal styleStr ->
  renderer_heading options token =
    Normal ("<h" ++ Str.of_nat (Tokens.depth token)
            ++ (if styleStr =? "" then ""
                else " style=" ++ quote ++ styleStr ++ quote)
            ++ ">" ++ parseInline options (lexInline (Tokens.heading_text token))
            ++ "</h" ++ Str.of_nat (Tokens.depth token) ++ ">") /\
  (styleStr = "" <->
   filter emitted
     (JS.set "color" (base_themeColor options)
        (block_style options ("h" ++ Str.of_nat (Tokens.depth token)))) = []).
Proof.
  intros H. split.
  - unfold renderer_heading. rewrite spread_one, H. reflexivity.
  - now apply css_empty_iff.
Qed.

(** The formula blocks of a text all fall back to their source when the
    formula renderer throws: the text comes back unchanged. *)
Lemma renderer_text_all_thrown (token : Token) :
  (forall tex, exists error, katex_renderToString tex false = Throw error) ->
  snd (renderer_text token) = text token.
Proof.
  intros Hk. unfold renderer_text, replace_all.
  apply replace_all_loop_identity. intros m.
  unfold inline_latex, group1_trim, call_katex, lift, eff_bind, try_catch.
  destruct (group1 m) as [g|]; [|reflexivity].
  destruct (Hk (Str.trim g)) as [error ->]. reflexivity.
Qed.

(** C1 (as amended).  When the formula renderer throws on a formula block,
    the block override calls it once, logs the error and returns the raw
    source of the block; when it throws on an inline formula, the text
    override does the same with the matched source text (so a text all of
    whose formulas fail comes back unchanged); when the style serialization
    throws, the formula-block override returns the raw source without calling
    the formula renderer.  The diagram-block override falls back differently:
    when its body throws it returns the diagram text inside
    [<pre><code class="language-mermaid">]. *)
Theorem formula_fallback_is_raw_source
    (options : RendererOptions) (token : Token) (error : string) :
  (forall styleStr,
     cssPropertiesToString
       (Some (JS.spread (block_style options "latex")
                [("display", VString "block"); ("margin", VString "1em 0");
                 ("textAlign", VString "center")])) = Normal styleStr ->
     katex_renderToString (text token) true = Throw error ->
     latexBlock_renderer options token =
     ([KatexCall (text token) true; ConsoleError "LaTeX rendering error:" error],
      raw token)) /\
  (cssPropertiesToString
     (Some (JS.spread (block_style options "latex")
              [("display", VString "block"); ("margin", VString "1em 0");
               ("textAlign", VString "center")])) = Throw error ->
   latexBlock_renderer options token =
   ([ConsoleError "LaTeX rendering error:" error], raw token)) /\
  (forall m g,
     group1 m = Some g ->
     katex_renderToString (Str.trim g) false = Throw error ->
     inline_latex m =
     ([KatexCall (Str.trim g) false; ConsoleError "LaTeX inline rendering error:" error],
      matched m)) /\
  ((forall tex, exists e, katex_renderToString tex false = Throw e) ->
   snd (renderer_text token) = text token) /\
  (cssPropertiesToString
     (Some (JS.spread (block_style options "mermaid")
              [("display", VString "block"); ("margin", VString "1em 0");
               ("textAlign", VString "center"); ("background", VString "transparent")])) =
     Throw error ->
   mermaidBlock_renderer options token =
   ([ConsoleError "Mermaid rendering error:" error],
    "<pre><code class=" ++ quote ++ "language-mermaid" ++ quote ++ ">"
    ++ text token ++ "</code></pre>")).
Proof.
  repeat split.
  - intros styleStr Hs Hk. unfold latexBlock_renderer, call_katex, lift, eff_bind, try_catch.
    rewrite Hs, Hk. reflexivity.
  - intros Hs. unfold latexBlock_renderer, lift, eff_bind, try_catch.
    rewrite Hs. reflexivity.
  - intros m g Hg Hk. unfold inline_latex, group1_trim, call_katex, lift, eff_bind, try_catch.
    rewrite Hg, Hk. reflexivity.
  - apply renderer_text_all_thrown.
  - intros Hs. unfold mermaidBlock_renderer, lift, eff_bind, try_catch.
    rewrite Hs. reflexivity.
Qed.


Lemma find_skip {A} (p : A -> bool) (x : A) (l : list A) :
  p x = false -> find p (x :: l) = find p l.
Proof. intros H. cbn [find]. now rewrite H. Qed.

(** C2 (as amended).  Constructing a [MarkdownRenderer] changes the global
    parser instance: it registers the formula-block and diagram-block
    extensions of the new instance in front of those registered before, so
    that from then on the parser renders such blocks with the options of the
    instance constructed last; the renderers of other extensions stay as they
    were, and the instance itself (its options and overrides) does not depend
    on what was registered before. *)
Theorem construction_registers_extensions
    (options : RendererOptions) (marked marked0 : Marked) (token : Token) :
  extensions (snd (new_MarkdownRenderer options marked)) =
    mermaidBlockTokenizer options :: latexBlockTokenizer options :: extensions marked /\
  option_map (fun render => render token)
    (extension_renderer (snd (new_MarkdownRenderer options marked)) "latexBlock") =
    Some (latexBlock_renderer options token) /\
  option_map (fun render => render token)
    (extension_renderer (snd (new_MarkdownRenderer options marked)) "mermaidBlock") =
    Some (mermaidBlock_renderer options token) /\
  (forall type,
     type <> "latexBlock" -> type <> "mermaidBlock" ->
     extension_renderer (snd (new_MarkdownRenderer options marked)) type =
     extension_renderer marked type) /\
  fst (new_MarkdownRenderer options marked) = fst (new_MarkdownRenderer options marked0).
Proof.
  repeat split.
  intros type Hl Hm. unfold extension_renderer.
  cbn [new_MarkdownRenderer snd initializeMermaidExtension initializeLatexExtension
       marked_use extensions rev app].
  apply String.eqb_neq in Hl, Hm. rewrite String.eqb_sym in Hl, Hm.
  rewrite !find_skip; [reflexivity | exact Hl | exact Hm].
Qed.

(** *** Further properties of the overrides *)

Definition not_dollar (c : ascii) : bool := negb (Ascii.eqb dollar c).

Lemma run_inline_needs_dollar (st : state) (k : state -> option state) :
  match rest st with
  | String c _ => Ascii.eqb dollar c = false
  | EmptyString => True
  end ->
  run inline_latex_rule st k = None.
Proof.
  intros H. unfold inline_latex_rule. cbn [run].
  destruct (rest st) as [|c s]; [|rewrite H];
    (destruct (prev st) as [c0|]; [destruct (Ascii.eqb dollar c0)|]; reflexivity).
Qed.

Lemma search_inline_none (s : string) :
  Str.all_chars not_dollar s = true ->
  forall before i, search inline_latex_rule before s i = None.
Proof.
  induction s as [|c s IH]; intros H before i; cbn [search].
  - now rewrite run_inline_needs_dollar.
  - cbn [Str.all_chars] in H. apply andb_true_iff in H as [Hc H].
    rewrite run_inline_needs_dollar.
    + now apply IH.
    + cbn [rest]. unfold not_dollar in Hc. now destruct (Ascii.eqb dollar c).
Qed.

Lemma replace_all_loop_none {E} (r : regex) (f : match_result -> list E * string)
    (fuel : nat) (before : option ascii) (s : string) :
  search r before s 0 = None -> replace_all_loop fuel r f before s = ([], s).
Proof. intros H. destruct fuel; cbn [replace_all_loop]; [reflexivity | now rewrite H]. Qed.

(** A text without [$] is returned as it is, and the formula renderer is not
    called. *)
Theorem text_without_dollar_unchanged (token : Token) :
  Str.all_chars not_dollar (text token) = true ->
  renderer_text token = ([], text token).
Proof.
  intros H. unfold renderer_text, replace_all.
  apply replace_all_loop_none. now apply search_inline_none.
Qed.

Lemma search_inline_skip (s : string) :
  forall pre before i,
    Str.all_chars not_dollar pre = true ->
    search inline_latex_rule before (pre ++ s) i =
    search inline_latex_rule (last_char before pre) s (i + String.length pre).
Proof.
  induction pre as [|c pre IH]; intros before i H.
  - cbn [String.append last_char String.length]. now rewrite Nat.add_0_r.
  - cbn [Str.all_chars] in H. apply andb_true_iff in H as [Hc H].
    cbn [String.append search last_char String.length].
    rewrite run_inline_needs_dollar.
    + rewrite (IH (Some c) (S i) H). f_equal. lia.
    + cbn [rest]. unfold not_dollar in Hc. now destruct (Ascii.eqb dollar c).
Qed.

Lemma last_char_not_dollar (pre : string) :
  Str.all_chars not_dollar pre = true ->
  forall before,
    match before with Some c => Ascii.eqb dollar c = false | None => True end ->
    match last_char before pre with Some c => Ascii.eqb dollar c = false | None => True end.
Proof.
  induction pre as [|c pre IH]; intros H before Hb; [exact Hb|].
  cbn [Str.all_chars] in H. apply andb_true_iff in H as [Hc H].
  cbn [last_char]. apply IH; [exact H|].
  unfold not_dollar in Hc. now destruct (Ascii.eqb dollar c).
Qed.

Lemma formula_char_not_dollar (c : ascii) :
  formula_char c = true -> Ascii.eqb dollar c = false.
Proof. unfold formula_char. destruct (Ascii.eqb LF c), (Ascii.eqb dollar c); cbn; congruence. Qed.

Lemma lazy_scan_to_dollar (body post : string) :
  forall tex before,
    Str.all_chars formula_char tex = true ->
    lazy_scan formula_char
      (fun st1 =>
         run (Char (Ascii.eqb dollar))
           {| prev := prev st1; rest := rest st1;
              capture := Some (consumed body (rest st1)) |} Some)
      before (tex ++ String dollar post) None =
    Some {| prev := Some dollar; rest := post;
            capture := Some (consumed body (String dollar post)) |}.
Proof.
  induction tex as [|c tex IH]; intros before H.
  - cbn [String.append]. rewrite lazy_scan_unfold. cbn [run rest prev capture].
    rewrite Ascii.eqb_refl. reflexivity.
  - cbn [Str.all_chars] in H. apply andb_true_iff in H as [Hc H].
    cbn [String.append]. rewrite lazy_scan_unfold. cbn [run rest prev capture].
    rewrite (formula_char_not_dollar c Hc). cbn [or_try]. rewrite Hc.
    now apply IH.
Qed.

Lemma run_Group (r : regex) (st : state) (k : state -> option state) :
  run (Group r) st k =
  run r st (fun st1 => k {| prev := prev st1; rest := rest st1;
                            capture := Some (consumed (rest st) (rest st1)) |}).
Proof. reflexivity. Qed.

(** The inline-formula pattern at the opening [$] of a formula. *)
Lemma run_inline_formula (before : option ascii) (t : ascii) (tex post : string) :
  match before with Some c => Ascii.eqb dollar c = false | None => True end ->
  Str.all_chars formula_char (String t tex) = true ->
  run inline_latex_rule
    {| prev := before; rest := String dollar (String t tex ++ String dollar post);
       capture := None |} Some =
  Some {| prev := Some dollar; rest := post; capture := Some (String t tex) |}.
Proof.
  intros Hb Htex. cbn [Str.all_chars] in Htex. apply andb_true_iff in Htex as [Ht Htex].
  unfold inline_latex_rule. rewrite run_Seq.
  assert (N : forall k st, prev st = before ->
            run (NotAfter (Ascii.eqb dollar)) st k = k st).
  { intros k st E. cbn [run]. rewrite E.
    destruct before as [c|]; [now rewrite Hb | reflexivity]. }
  rewrite N by reflexivity. clear N.
  rewrite run_Seq. cbn [run rest capture]. rewrite Ascii.eqb_refl.
  cbn [String.append]. rewrite run_Plus_char, Ht.
  etransitivity;
    [apply (lazy_scan_to_dollar (String t (tex ++ String dollar post)) post tex (Some t) Htex)|].
  do 3 f_equal.
  apply (consumed_app_eq _ (String t tex) (String dollar post)). reflexivity.
Qed.

(** A text with one inline formula between two texts without [$]: the
    formula, trimmed, is given once to the formula renderer in inline mode,
    and its result replaces the formula with its delimiters. *)
Theorem text_single_formula_rendered
    (token : Token) (pre post rendered : string) (t : ascii) (tex : string) :
  text token = pre ++ String dollar (String t tex ++ String dollar post) ->
  Str.all_chars not_dollar pre = true ->
  Str.all_chars not_dollar post = true ->
  Str.all_chars formula_char (String t tex) = true ->
  katex_renderToString (Str.trim (String t tex)) false = Normal rendered ->
  renderer_text token =
  ([KatexCall (Str.trim (String t tex)) false], pre ++ rendered ++ post).
Proof.
  intros Htext Hpre Hpost Htex Hk.
  unfold renderer_text, replace_all. rewrite Htext.
  set (s := pre ++ String dollar (String t tex ++ String dollar post)).
  cbn [replace_all_loop].
  assert (Hm : search inline_latex_rule None s 0 =
               Some {| index := String.length pre;
                       matched := String dollar (String t tex ++ String dollar "");
                       group1 := Some (String t tex);
                       after := post |}).
  { subst s. rewrite (search_inline_skip _ pre None 0 Hpre). cbn [Nat.add].
    pose proof (last_char_not_dollar pre Hpre None I) as Hl.
    cbn [search].
    rewrite (run_inline_formula (last_char None pre) t tex post Hl Htex).
    cbn [rest capture]. do 2 f_equal.
    apply (consumed_app_eq _ (String dollar (String t tex ++ String dollar "")) post).
    cbn [String.append]. do 2 f_equal.
    now rewrite Str.append_assoc. }
  rewrite Hm. cbn [index matched after].
  assert (Hsk : String.substring 0 (String.length pre) s = pre)
    by (subst s; apply substring_0_app).
  rewrite Hsk.
  unfold inline_latex at 1, group1_trim, call_katex, lift, eff_bind, try_catch.
  cbn [group1]. rewrite Hk.
  rewrite replace_all_loop_none by (now apply search_inline_none).
  reflexivity.
Qed.

(** A formula block the formula renderer accepts comes in a [div] that
    always has a style attribute: whatever is configured for formula blocks,
    the declarations [display: block], [margin: 1em 0] and
    [text-align: center] are among those of its style. *)
Theorem formula_block_always_styled
    (options : RendererOptions) (token : Token) (rendered : string) :
  forallb (fun e => convertible (snd e)) (block_style options "latex") = true ->
  katex_renderToString (text token) true = Normal rendered ->
  exists ds,
    latexBlock_renderer options token =
    ([KatexCall (text token) true],
     "<div style=" ++ quote ++ Str.join ";" ds ++ quote ++ ">" ++ rendered ++ "</div>") /\
    In "display: block" ds /\ In "margin: 1em 0" ds /\ In "text-align: center" ds.
Proof.
  intros Hc Hk.
  set (style := JS.spread (block_style options "latex")
                  [("display", VString "block"); ("margin", VString "1em 0");
                   ("textAlign", VString "center")]).
  assert (Hcs : forallb (fun e => convertible (snd e)) style = true).
  { subst style. cbn [JS.spread fold_left fst snd].
    repeat apply forallb_set; try reflexivity. exact Hc. }
  assert (Hd : In ("display", VString "block") style).
  { subst style. cbn [JS.spread fold_left fst snd].
    repeat (apply JS.In_set_other; [discriminate|]). apply JS.In_set_same. }
  assert (Hm : In ("margin", VString "1em 0") style).
  { subst style. cbn [JS.spread fold_left fst snd].
    repeat (apply JS.In_set_other; [discriminate|]). apply JS.In_set_same. }
  assert (Ht : In ("textAlign", VString "center") style).
  { subst style. cbn [JS.spread fold_left fst snd]. apply JS.In_set_same. }
  destruct (css_has_declaration style _ _ Hcs Hd eq_refl) as (ds & Hcss & Hds & Hind & Hne).
  exists ds. split; [|split; [exact Hind|split]].
  - unfold latexBlock_renderer, call_katex, lift, eff_bind, try_catch. cbv zeta.
    change (JS.spread (block_style options "latex")
              [("display", VString "block"); ("margin", VString "1em 0");
               ("textAlign", VString "center")]) with style.
    change (cssPropertiesToString (Some style))
      with (cssPropertiesToString (@Some StyleOptions style)).
    rewrite Hcss, Hk. unfold style_attr, ret. rewrite Hne. cbv beta iota. cbn [app].
    f_equal. now rewrite !Str.append_assoc.
  - rewrite Hds. apply (in_map declaration_text) with (x := ("margin", VString "1em 0")).
    apply filter_In. now split.
  - rewrite Hds. apply (in_map declaration_text) with (x := ("textAlign", VString "center")).
    apply filter_In. now split.
Qed.

(** A colour configured for a heading level never shows without a theme
    colour: when [base.themeColor] is absent, the heading is rendered as if
    its style had no [color] property. *)
Theorem heading_colour_needs_theme_colour
    (options : RendererOptions) (token : Tokens.Heading) :
  base_themeColor options = VUndefined ->
  NoDup (JS.keys (block_style options ("h" ++ Str.of_nat (Tokens.depth token)))) ->
  renderer_heading options token =
  (styleStr <-
     cssPropertiesToString
       (Some (JS.remove "color"
                (block_style options ("h" ++ Str.of_nat (Tokens.depth token))))) ;;
   Normal ("<h" ++ Str.of_nat (Tokens.depth token) ++ style_attr styleStr ++ ">"
           ++ parseInline options (lexInline (Tokens.heading_text token))
           ++ "</h" ++ Str.of_nat (Tokens.depth token) ++ ">")).
Proof.
  intros Hb Hnd. unfold renderer_heading.
  rewrite spread_one, Hb, (css_set_undefined "color" _ Hnd). reflexivity.
Qed.

(** **** The code block *)

Definition convertible_style (o : StyleOptions) : bool :=
  forallb (fun e => convertible (snd e)) o.

Lemma get_spread_keep {V} (k : string) (a b : JS.object V) :
  JS.get k b = None -> JS.get k (JS.spread a b) = JS.get k a.
Proof.
  unfold JS.spread. revert a.
  induction b as [|[k' v'] b IH]; intros a; cbn [JS.get fold_left fst snd]; [reflexivity|].
  destruct (k' =? k) eqn:E; [discriminate|]. intros H.
  rewrite (IH _ H). apply JS.get_set_other.
  intros ->. now rewrite String.eqb_refl in E.
Qed.

Lemma get_removed_keep {V} (k : string) (ks : list string) (o : JS.object V) :
  JS.get k o = None -> JS.get k (fold_left (fun o k => JS.remove k o) ks o) = None.
Proof.
  revert o. induction ks as [|k' ks IH]; intros o H; cbn [fold_left]; [exact H|].
  apply IH. rewrite JS.get_remove, H. now destruct (k' =? k).
Qed.

Lemma get_removed {V} (k : string) (ks : list string) (o : JS.object V) :
  In k ks -> JS.get k (fold_left (fun o k => JS.remove k o) ks o) = None.
Proof.
  revert o. induction ks as [|k' ks IH]; intros o; cbn [In fold_left]; [intros []|].
  intros [-> | Hin]; [|now apply IH].
  apply get_removed_keep. rewrite JS.get_remove. now rewrite String.eqb_refl.
Qed.

Lemma convertible_remove (k : string) (o : StyleOptions) :
  convertible_style o = true -> convertible_style (JS.remove k o) = true.
Proof.
  unfold convertible_style.
  induction o as [|[k' v'] o IH]; cbn [JS.remove forallb snd]; [reflexivity|].
  intros H. apply andb_true_iff in H as [H1 H2].
  destruct (k' =? k); cbn [forallb snd]; [auto | now rewrite H1, IH].
Qed.

Lemma convertible_removed (ks : list string) (o : StyleOptions) :
  convertible_style o = true ->
  convertible_style (fold_left (fun o k => JS.remove k o) ks o) = true.
Proof.
  revert o. induction ks as [|k ks IH]; intros o H; cbn [fold_left]; [exact H|].
  apply IH. now apply convertible_remove.
Qed.

Lemma convertible_set (k : string) (v : value) (o : StyleOptions) :
  convertible_style o = true -> convertible v = true ->
  convertible_style (JS.set k v o) = true.
Proof. intros Ho Hv. now apply forallb_set. Qed.

Lemma convertible_spread (a b : StyleOptions) :
  convertible_style a = true -> convertible_style b = true ->
  convertible_style (JS.spread a b) = true.
Proof.
  unfold JS.spread. revert a.
  induction b as [|[k v] b IH]; intros a Ha Hb; cbn [fold_left fst snd]; [exact Ha|].
  unfold convertible_style in Hb. cbn [forallb snd] in Hb.
  apply andb_true_iff in Hb as [Hv Hb].
  apply IH; [now apply convertible_set | exact Hb].
Qed.

Lemma convertible_prop (k : string) (o : StyleOptions) :
  convertible_style o = true -> convertible (prop k o) = true.
Proof.
  unfold convertible_style, prop.
  induction o as [|[k' v'] o IH]; cbn [JS.get forallb snd]; [reflexivity|].
  intros H. apply andb_true_iff in H as [H1 H2].
  destruct (k' =? k); [exact H1 | now apply IH].
Qed.

Lemma convertible_or_else (v w : value) :
  convertible v = true -> convertible w = true -> convertible (JS.or_else v w) = true.
Proof. intros Hv Hw. unfold JS.or_else. now destruct (JS.truthy v). Qed.

Lemma ToString_convertible (v : value) :
  convertible v = true -> exists s, JS.ToString v = Normal s.
Proof.
  destruct v as [| |x|s|t [s|e]]; cbn [convertible JS.ToString]; intros H;
    try discriminate; eauto.
Qed.

Lemma css_convertible_style (o : StyleOptions) :
  convertible_style o = true -> exists s, cssPropertiesToString (Some o) = Normal s.
Proof.
  intros H. eexists. exact (css_convertible o H).
Qed.

Lemma convertible_cons (k : string) (v : value) (o : StyleOptions) :
  convertible v = true -> convertible_style o = true ->
  convertible_style ((k, v) :: o) = true.
Proof. intros Hv Ho. unfold convertible_style in *. cbn [forallb snd]. now rewrite Hv. Qed.

(** Styles built from convertible values by the operations of the
    overrides are convertible. *)
Ltac solve_convertible :=
  repeat match goal with
  | H : ?g |- ?g => exact H
  | |- convertible_style (if ?b then _ else _) = true => destruct b
  | |- convertible_style (JS.set _ _ _) = true => apply convertible_set
  | |- convertible_style (JS.spread _ _) = true => apply convertible_spread
  | |- convertible_style (fold_left _ _ _) = true => apply convertible_removed
  | |- convertible_style (_ :: _) = true => apply convertible_cons
  | |- convertible_style [] = true => reflexivity
  | |- convertible (JS.or_else _ _) = true => apply convertible_or_else
  | |- convertible (prop _ _) = true => apply convertible_prop
  | |- convertible (if ?b then _ else _) = true => destruct b
  | |- convertible (VString _) = true => reflexivity
  | |- convertible VUndefined = true => reflexivity
  | |- convertible default_font = true => reflexivity
  end.

(** Placing a prefix in front of a string keeps what the string contains. *)
Lemma contains_after_prefix (f : string -> string) (p s : string) :
  (exists before after, s = before ++ f after) ->
  exists before after, p ++ s = before ++ f after.
Proof.
  intros (before & after & ->). exists (p ++ before), after.
  now rewrite Str.append_assoc.
Qed.

(** The three declarations that end the style of the [<pre>] element. *)
Definition pre_forced : string := "background: transparent;border-radius: 0;border: none".

Lemma pre_style_forced (o : StyleOptions) (v : value) (preStyle : string) :
  cssPropertiesToString
    (Some
       (JS.spread
          (JS.spread
             [("margin", VString "0");
              ("padding", VString "16px 20px");
              ("overflowX", VString "auto");
              ("fontFamily", v);
              ("fontSize", VString "13px");
              ("lineHeight", VString "1.6")]
             (fold_left (fun o k => JS.remove k o)
                ["margin"; "marginTop"; "marginRight"; "marginBottom"; "marginLeft";
                 "background"; "backgroundColor"; "border"; "borderRadius"; "boxShadow";
                 "fontFamily"; "color"] o))
          [("background", VString "transparent");
           ("borderRadius", VString "0");
           ("border", VString "none")])) = Normal preStyle ->
  exists declarations, preStyle = declarations ++ pre_forced.
Proof.
  set (ks := ["margin"; "marginTop"; "marginRight"; "marginBottom"; "marginLeft";
              "background"; "backgroundColor"; "border"; "borderRadius"; "boxShadow";
              "fontFamily"; "color"]).
  set (inner := JS.spread _ (fold_left (fun o k => JS.remove k o) ks o)).
  assert (Hfree : forall k, In k ["background"; "borderRadius"; "border"] ->
                            JS.get k inner = None).
  { intros k Hk. unfold inner. rewrite get_spread_keep.
    - cbn [In] in Hk. destruct Hk as [<- | [<- | [<- | []]]]; reflexivity.
    - apply get_removed. unfold ks. cbn [In] in *.
      destruct Hk as [<- | [<- | [<- | []]]]; auto 12. }
  assert (Hobj : JS.spread inner
                   [("background", VString "transparent");
                    ("borderRadius", VString "0");
                    ("border", VString "none")] =
                 (inner ++ [("background", VString "transparent");
                            ("borderRadius", VString "0");
                            ("border", VString "none")])%list).
  { unfold JS.spread. cbn [fold_left fst snd].
    rewrite (JS.set_fresh "background") by (apply Hfree; cbn [In]; auto).
    rewrite (JS.set_fresh "borderRadius")
      by (rewrite JS.get_app_none by (apply Hfree; cbn [In]; auto); reflexivity).
    rewrite (JS.set_fresh "border")
      by (rewrite <- app_assoc, JS.get_app_none by (apply Hfree; cbn [In]; auto);
          reflexivity).
    now rewrite <- !app_assoc. }
  rewrite Hobj.
  change (cssPropertiesToString (Some (inner ++ ?l)%list))
    with (cssPropertiesToString (@Some StyleOptions (inner ++ l)%list)).
  rewrite css_app.
  destruct (cssPropertiesToString (@Some StyleOptions inner)) as [x|e]; cbn [bind];
    [|discriminate].
  change (cssPropertiesToString _) with (@Normal string pre_forced). cbn [bind].
  intros H. apply Normal_inj in H. subst preStyle. unfold glue.
  destruct (x =? ""); [now exists ""|].
  cbn [String.eqb pre_forced]. exists (x ++ ";"). now rewrite Str.append_assoc.
Qed.

(** A code block is always rendered when the styles configured for
    [code_pre] and [code] hold values that convert to strings, and whatever
    these styles say, the style of its [<pre>] element ends with a
    transparent background, no corner radius and no border: the three
    properties are removed from the configured style and written last. *)
Theorem code_block_pre_style_forced
    (options : RendererOptions) (token : Tokens.Code) :
  convertible_style (block_style options "code_pre") = true ->
  convertible_style (block_style options "code") = true ->
  exists before declarations after,
    renderer_code options token =
    Normal (before ++ "<pre " ++ style_is (declarations ++ pre_forced) ++ after).
Proof.
  intros Hpre Hcode.
  remember (renderer_code options token) as result eqn:R.
  unfold renderer_code in R.
  repeat match type of R with
  | context [cssPropertiesToString ?style] =>
      match style with
      | Some ?o =>
          let c := fresh "c" in
          let Hc := fresh "Hc" in
          destruct (css_convertible_style o) as [c Hc];
          [solve_convertible
          |replace (cssPropertiesToString style) with (@Normal string c) in R
             by (symmetry; exact Hc);
           cbn [bind] in R]
      end
  end.
  match type of R with
  | context [JS.ToString ?v] =>
      let font := fresh "font" in
      let Hfont := fresh "Hfont" in
      destruct (ToString_convertible v) as [font Hfont];
      [solve_convertible | rewrite Hfont in R; cbn [bind] in R]
  end.
  match goal with
  | H : cssPropertiesToString (Some (JS.spread (JS.spread _ _) _)) = Normal _ |- _ =>
      apply pre_style_forced in H; destruct H as [declarations ->]
  end.
  subst result.
  set (f := fun after => "<pre " ++ style_is (declarations ++ pre_forced) ++ after).
  match goal with
  | |- exists _ _ _, Normal ?html = _ =>
      assert (E : exists before after, html = before ++ f after)
  end.
  { change ("</span></section><pre " ++ ?x) with ("</span></section>" ++ "<pre " ++ x).
    do 17 apply (contains_after_prefix f). eexists "", _. reflexivity. }
  destruct E as (before & after & E). exists before, declarations, after.
  now rewrite E.
Qed.




(** **** Block quotes *)

(** A block quote is always rendered when its configured style and the
    theme colour convert to strings, and its left border takes the theme
    colour, or [#1a1a1a] when the theme colour is absent or empty, whatever
    [borderLeft] the configured style gives. *)
Theorem blockquote_border_follows_theme_colour
    (options : RendererOptions) (token : Token) :
  convertible_style (block_style options "blockquote") = true ->
  convertible (base_themeColor options) = true ->
  exists colour ds,
    JS.ToString (JS.or_else (base_themeColor options) (VString "#1a1a1a")) = Normal colour /\
    renderer_blockquote options token =
    Normal ("<blockquote style=" ++ quote ++ Str.join ";" ds ++ quote ++ ">"
            ++ inline_html options (text token) ++ "</blockquote>") /\
    In ("border-left: 4px solid " ++ colour) ds.
Proof.
  intros Hstyle Htheme.
  destruct (ToString_convertible (JS.or_else (base_themeColor options) (VString "#1a1a1a")))
    as [colour Hcolour]; [now apply convertible_or_else|].
  set (style := JS.set "borderLeft" (VString ("4px solid " ++ colour))
                  (block_style options "blockquote")).
  assert (Hcs : forallb (fun e => convertible (snd e)) style = true)
    by (apply convertible_set; [exact Hstyle | reflexivity]).
  destruct (css_has_declaration style "borderLeft" (VString ("4px solid " ++ colour)) Hcs
              (JS.In_set_same _ _ _) eq_refl) as (ds & Hcss & _ & Hin & Hne).
  exists colour, ds. split; [exact Hcolour|]. split; [|exact Hin].
  unfold renderer_blockquote. rewrite Hcolour. cbn [bind]. rewrite spread_one.
  change (cssPropertiesToString (Some (JS.set "borderLeft" _ _)))
    with (cssPropertiesToString (@Some StyleOptions style)).
  rewrite Hcss. cbn [bind]. unfold style_attr. rewrite Hne.
  f_equal. now rewrite !Str.append_assoc.
Qed.

(** **** Emphasis, images and paragraphs *)

(** A convertible style with an entry that is emitted serializes to a
    non-empty list of declarations that holds the declaration of every
    emitted entry. *)
Lemma css_declarations (style : StyleOptions) (k0 : string) (v0 : value) :
  convertible_style style = true ->
  In (k0, v0) style -> emitted (k0, v0) = true ->
  exists ds,
    cssPropertiesToString (Some style) = Normal (Str.join ";" ds) /\
    (Str.join ";" ds =? "") = false /\
    forall k v, In (k, v) style -> emitted (k, v) = true -> In (declaration_text (k, v)) ds.
Proof.
  intros Hc Hin He.
  destruct (css_has_declaration style k0 v0 Hc Hin He) as (ds & Hcss & Hds & _ & Hne).
  exists ds. split; [exact Hcss|]. split; [exact Hne|].
  intros k v Hkv Hemit. rewrite Hds.
  apply (in_map declaration_text) with (x := (k, v)). apply filter_In. now split.
Qed.

(** An entry of the properties spread last is an entry of the result. *)
Ltac in_spread :=
  cbn [JS.spread fold_left fst snd];
  repeat (apply JS.In_set_other; [discriminate|]); apply JS.In_set_same.

(** When the configured styles and the theme colour convert to strings,
    the emphasis, strong-emphasis and image overrides return, and their
    styles always hold the declarations the code spreads last: italic for
    [em], bold for [strong], and a centred block of at most the full width
    for images, whatever the configured styles say about these
    properties. *)
Theorem emphasis_and_image_forced_styles
    (options : RendererOptions) (token : Token) (image : Tokens.Link) :
  convertible_style (inline_style options "em") = true ->
  convertible_style (inline_style options "strong") = true ->
  convertible (base_themeColor options) = true ->
  convertible_style (block_style options "image") = true ->
  (exists ds,
     renderer_em options token =
     Normal ("<em style=" ++ quote ++ Str.join ";" ds ++ quote ++ ">"
             ++ inline_html options (text token) ++ "</em>") /\
     In "font-style: italic" ds) /\
  (exists ds,
     renderer_strong options token =
     Normal ("<strong style=" ++ quote ++ Str.join ";" ds ++ quote ++ ">"
             ++ inline_html options (text token) ++ "</strong>") /\
     In "font-weight: bold" ds) /\
  (exists ds,
     renderer_image options image =
     Normal ("<img src=" ++ quote ++ Tokens.href image ++ quote
             ++ title_attr (Tokens.title image)
             ++ " alt=" ++ quote ++ Tokens.link_text image ++ quote
             ++ " style=" ++ quote ++ Str.join ";" ds ++ quote ++ ">") /\
     In "max-width: 100%" ds /\ In "display: block" ds /\ In "margin: 0.5em auto" ds).
Proof.
  intros Hem Hstrong Htheme Himage. repeat split.
  - set (style := JS.spread (inline_style options "em") [("fontStyle", VString "italic")]).
    assert (Hin : In ("fontStyle", VString "italic") style) by (subst style; in_spread).
    destruct (css_declarations style _ _ ltac:(subst style; solve_convertible) Hin eq_refl)
      as (ds & Hcss & Hne & Hall).
    exists ds. split; [|exact (Hall _ _ Hin eq_refl)].
    unfold renderer_em. fold style.
    change (cssPropertiesToString (Some style))
      with (cssPropertiesToString (@Some StyleOptions style)).
    rewrite Hcss. cbn [bind]. unfold style_attr. rewrite Hne.
    f_equal. now rewrite !Str.append_assoc.
  - set (style := JS.spread (inline_style options "strong")
                    [("color", base_themeColor options); ("fontWeight", VString "bold")]).
    assert (Hin : In ("fontWeight", VString "bold") style) by (subst style; in_spread).
    destruct (css_declarations style _ _ ltac:(subst style; solve_convertible) Hin eq_refl)
      as (ds & Hcss & Hne & Hall).
    exists ds. split; [|exact (Hall _ _ Hin eq_refl)].
    unfold renderer_strong. fold style.
    change (cssPropertiesToString (Some style))
      with (cssPropertiesToString (@Some StyleOptions style)).
    rewrite Hcss. cbn [bind]. unfold style_attr. rewrite Hne.
    f_equal. now rewrite !Str.append_assoc.
  - set (style := JS.spread (block_style options "image")
                    [("maxWidth", VString "100%"); ("display", VString "block");
                     ("margin", VString "0.5em auto")]).
    assert (Hw : In ("maxWidth", VString "100%") style) by (subst style; in_spread).
    assert (Hd : In ("display", VString "block") style) by (subst style; in_spread).
    assert (Hm : In ("margin", VString "0.5em auto") style) by (subst style; in_spread).
    destruct (css_declarations style _ _ ltac:(subst style; solve_convertible) Hw eq_refl)
      as (ds & Hcss & Hne & Hall).
    exists ds.
    split; [|exact (conj (Hall _ _ Hw eq_refl)
                      (conj (Hall _ _ Hd eq_refl) (Hall _ _ Hm eq_refl)))].
    unfold renderer_image. fold style.
    change (cssPropertiesToString (Some style))
      with (cssPropertiesToString (@Some StyleOptions style)).
    rewrite Hcss. cbn [bind]. unfold style_attr. rewrite Hne.
    f_equal. now rewrite !Str.append_assoc.
Qed.

Definition same_defined (a b : StyleOptions) : Prop :=
  filter (fun e => JS.defined (snd e)) a = filter (fun e => JS.defined (snd e)) b.

Lemma css_same_defined (a b : StyleOptions) :
  same_defined a b -> cssPropertiesToString (Some a) = cssPropertiesToString (Some b).
Proof. unfold same_defined, cssPropertiesToString. now intros ->. Qed.

Lemma set_undefined_same_defined (k : string) (o : StyleOptions) :
  NoDup (JS.keys o) -> same_defined (JS.set k VUndefined o) (JS.remove k o).
Proof.
  unfold same_defined. intros Hnd.
  induction o as [|[k' v'] o IH]; [reflexivity|].
  cbn [JS.keys map fst] in Hnd. inversion Hnd as [|? ? Hnotin Hnd']; subst.
  cbn [JS.set JS.remove]. destruct (k' =? k) eqn:E.
  - apply String.eqb_eq in E. subst k'.
    rewrite (JS.remove_not_in k o (JS.get_not_in k o Hnotin)). reflexivity.
  - cbn [filter snd]. now rewrite (IH Hnd').
Qed.

Lemma keys_set_undefined (k : string) (o : StyleOptions) :
  JS.keys (JS.set k VUndefined o) =
  match JS.get k o with Some _ => JS.keys o | None => (JS.keys o ++ [k])%list end.
Proof.
  induction o as [|[k' v'] o IH]; [reflexivity|].
  cbn [JS.set JS.get]. destruct (k' =? k) eqn:E.
  - apply String.eqb_eq in E. now subst k'.
  - change (JS.keys ((k', v') :: JS.set k VUndefined o))
      with (k' :: JS.keys (JS.set k VUndefined o)).
    rewrite IH. now destruct (JS.get k o).
Qed.

Lemma get_none_not_in (k : string) (o : StyleOptions) :
  JS.get k o = None -> ~ In k (JS.keys o).
Proof.
  induction o as [|[k' v'] o IH]; cbn [JS.get JS.keys map fst In]; [tauto|].
  destruct (k' =? k) eqn:E; [discriminate|].
  apply String.eqb_neq in E. intros H [Hk | Hin]; [now elim E | now apply IH].
Qed.

Lemma NoDup_keys_set_undefined (k : string) (o : StyleOptions) :
  NoDup (JS.keys o) -> NoDup (JS.keys (JS.set k VUndefined o)).
Proof.
  intros Hnd. rewrite keys_set_undefined.
  destruct (JS.get k o) eqn:G; [exact Hnd|].
  apply NoDup_app; [exact Hnd | repeat constructor; intros [] |].
  intros x Hx [<- | []]. exact (get_none_not_in _ _ G Hx).
Qed.

Lemma filter_remove (P : string * value -> bool) (k : string) (o : StyleOptions) :
  filter P (JS.remove k o) = JS.remove k (filter P o).
Proof.
  induction o as [|[k' v'] o IH]; [reflexivity|].
  cbn [JS.remove filter]. destruct (k' =? k) eqn:E.
  - destruct (P (k', v')); cbn [JS.remove]; [now rewrite E|exact IH].
  - cbn [filter]. destruct (P (k', v')); cbn [JS.remove]; [now rewrite E, IH|exact IH].
Qed.

Lemma same_defined_remove (k : string) (a b : StyleOptions) :
  same_defined a b -> same_defined (JS.remove k a) (JS.remove k b).
Proof. unfold same_defined. intros H. now rewrite !filter_remove, H. Qed.

(** A font size or a line height configured for paragraphs never shows
    without the base option of that name: the paragraph override overwrites
    both with [base.fontSize] and [base.lineHeight], so when the base options
    give neither, the style of the paragraph is that of the configured style
    without the two properties. *)
Theorem paragraph_font_needs_base_options
    (options : RendererOptions) (token : Tokens.Paragraph) :
  match base options with Some b => fontSize b | None => VUndefined end = VUndefined ->
  match base options with Some b => lineHeight b | None => VUndefined end = VUndefined ->
  NoDup (JS.keys (block_style options "p")) ->
  exists content,
    renderer_paragraph options token =
    (styleStr <-
       cssPropertiesToString
         (Some (JS.remove "lineHeight" (JS.remove "fontSize" (block_style options "p")))) ;;
     Normal ("<p" ++ style_attr styleStr ++ ">" ++ content ++ "</p>")).
Proof.
  intros Hsize Hheight Hnd. unfold renderer_paragraph. rewrite Hsize, Hheight.
  eexists.
  match goal with
  | |- context [cssPropertiesToString ?style] =>
      match style with
      | Some (JS.spread _ _) =>
          replace (cssPropertiesToString style)
            with (cssPropertiesToString
                    (Some (JS.remove "lineHeight"
                             (JS.remove "fontSize" (block_style options "p")))));
          [reflexivity|]
      end
  end.
  symmetry. apply css_same_defined.
  change (JS.spread (block_style options "p")
            [("fontSize", VUndefined); ("lineHeight", VUndefined)])
    with (JS.set "lineHeight" VUndefined
            (JS.set "fontSize" VUndefined (block_style options "p"))).
  unfold same_defined.
  rewrite (set_undefined_same_defined "lineHeight")
    by (now apply NoDup_keys_set_undefined).
  apply same_defined_remove. now apply set_undefined_same_defined.
Qed.

(** **** Lists *)

(** The list override puts a check box in front of the text of a task item
    before it calls the item override; an item that has child tokens is
    rendered from them, so that text is not read and the check box shows
    once, the one the item override adds itself. *)
Theorem task_item_text_unused
    (options : RendererOptions) (item : Tokens.ListItem) (tokens : list Tokens.Block)
    (text : string) :
  Tokens.item_tokens item = Some tokens ->
  listitem_with options text item = renderer_listitem options item.
Proof.
  unfold renderer_listitem. destruct item as [task checked item_text item_tokens].
  cbn [Tokens.item_tokens Tokens.item_text]. intros ->. reflexivity.
Qed.

Lemma item_block_latex_thrown (options : RendererOptions) (m : match_result) :
  (forall tex, exists error, katex_renderToString tex true = Throw error) ->
  snd (item_block_latex options m) = matched m.
Proof.
  intros Hk. unfold item_block_latex, group1_trim, call_katex, lift, eff_bind, try_catch.
  destruct (cssPropertiesToString _) as [styleStr|e]; [|reflexivity].
  destruct (group1 m) as [g|]; [|reflexivity].
  destruct (Hk (Str.trim g)) as [error ->]. reflexivity.
Qed.

(** When the formula renderer throws, a list item falls back as the formula
    block does: the block formulas of a text child stay in the text as they
    were written, and the item holds what the inline parser makes of the
    unchanged text. *)
Theorem list_item_formula_fallback
    (options : RendererOptions) (item : Tokens.ListItem) (child : Tokens.Block)
    (styleStr : string) :
  (forall tex, exists error, katex_renderToString tex true = Throw error) ->
  Tokens.item_tokens item = Some [child] ->
  Tokens.block_type child = "text" \/ Tokens.block_type child = "paragraph" ->
  Tokens.task item = false ->
  cssPropertiesToString
    (Some (JS.spread (inline_style options "listitem")
             [("marginBottom", VString "8px"); ("display", VString "list-item")])) =
    Normal styleStr ->
  snd (renderer_listitem options item) =
  Normal ("<li" ++ style_attr styleStr ++ ">"
          ++ inline_html options
               (if Tokens.block_text child =? "" then Tokens.block_raw child
                else Tokens.block_text child)
          ++ "</li>").
Proof.
  intros Hk Htokens Htype Htask Hcss.
  unfold renderer_listitem. destruct item as [task checked item_text item_tokens].
  cbn [Tokens.item_tokens Tokens.item_text Tokens.task] in *. subst item_tokens task.
  cbn [listitem_with Tokens.item_tokens Tokens.task mapE].
  unfold lift, eff_bind at 1. rewrite Hcss.
  assert (T : (Tokens.block_type child =? "list") = false
              /\ (Tokens.block_type child =? "text")
                 || (Tokens.block_type child =? "paragraph") = true).
  { destruct Htype as [-> | ->]; split; reflexivity. }
  destruct T as [T1 T2]. rewrite T1, T2.
  pose proof (replace_all_loop_identity block_latex_rule (item_block_latex options)
                (fun m => item_block_latex_thrown options m Hk)) as Hid.
  unfold replace_all.
  set (source := if Tokens.block_text child =? "" then Tokens.block_raw child
                 else Tokens.block_text child) in *.
  specialize (Hid (S (String.length source)) None source).
  destruct (replace_all_loop _ _ _ None source) as [evs processedText].
  cbn [snd] in Hid. subst processedText.
  reflexivity.
Qed.

(** **** Tables *)

Lemma mapi_from_ext {A B} (f g : nat -> A -> B) (xs : list A) (i : nat) :
  (forall j x, f j x = g j x) -> mapi_from i f xs = mapi_from i g xs.
Proof.
  intros H. revert i. induction xs as [|x xs IH]; intros i; cbn [mapi_from]; [reflexivity|].
  now rewrite H, IH.
Qed.

(** A table takes from the options the theme colour only, for its header
    cells: an absent, empty or otherwise falsy theme colour gives the table of
    the theme colour [#00b38a], and the override returns. *)
Theorem table_default_theme_colour
    (options options' : RendererOptions) (token : Tokens.Table) :
  (forall tokens, parseInline options tokens = parseInline options' tokens) ->
  JS.truthy (base_themeColor options) = false ->
  base_themeColor options' = VString "#00b38a" ->
  renderer_table options token = renderer_table options' token /\
  exists html, renderer_table options token = Normal html.
Proof.
  intros Hparse Hfalsy Hdefault.
  assert (Hinline : forall text, inline_html options text = inline_html options' text).
  { intros text. unfold inline_html. apply Hparse. }
  unfold renderer_table, JS.or_else. rewrite Hfalsy, Hdefault.
  cbn [JS.truthy String.eqb Ascii.eqb Bool.eqb negb JS.ToString bind].
  split; [|eexists; reflexivity].
  match goal with
  | |- Normal ?l = Normal ?r =>
      match l with
      | context [map ?f (Tokens.header token)] =>
          match r with
          | context [map ?g (Tokens.header token)] =>
              rewrite (map_ext f g) by (intros cell; now rewrite Hinline)
          end
      end
  end.
  match goal with
  | |- Normal ?l = Normal ?r =>
      match l with
      | context [mapi_from 0 ?f (Tokens.rows token)] =>
          match r with
          | context [mapi_from 0 ?g (Tokens.rows token)] =>
              rewrite (mapi_from_ext f g (Tokens.rows token) 0); [reflexivity|]
          end
      end
  end.
  intros j row. cbv beta. do 4 f_equal. apply (f_equal (Str.join "")).
  apply map_ext. intros cell. now rewrite Hinline.
Qed.

End Properties.

(** *** Worked examples *)

(** Stand-ins for the libraries: a formula renderer that throws on the
    formula [\boom], an inline parser that returns the text as it is, a
    highlighter that returns the code as it is, and the sample themes. *)
Definition sample_libraries : Libraries :=
  {| katex_renderToString := fun tex _ =>
       if tex =? "\boom" then Throw "ParseError"
       else Normal ("<span class=katex>" ++ tex ++ "</span>");
     lexInline := fun s => [{| type := "text"; raw := s; text := s; tokens := [] |}];
     parseInline := fun _ toks => String.concat "" (map text toks);
     highlightCode := fun text _ _ _ => text;
     codeThemes := Themes.sample_themes |}.

#[local] Existing Instance Examples.runtime.
#[local] Existing Instance sample_libraries.

Definition plain_options : RendererOptions :=
  {| base := None; block := None; inline := None; codeTheme := None |}.

Definition sample_options : RendererOptions :=
  {| base := Some {| themeColor := VString "#00b38a"; fontSize := VUndefined;
                     lineHeight := VUndefined; textAlign := VUndefined |};
     block := Some [("h2", [("fontSize", VString "20px")]);
                    ("latex", [("color", VString "red")])];
     inline := None;
     codeTheme := Some "github" |}.

(** Options whose diagram style holds a value that cannot be converted to a
    string (a symbol). *)
Definition symbol_options : RendererOptions :=
  {| base := None;
     block := Some [("mermaid",
                     [("color",
                       VOther true
                         (Throw "TypeError: Cannot convert a Symbol value to a string"))])];
     inline := None;
     codeTheme := None |}.

Definition boom_token : Token :=
  {| type := "latexBlock"; raw := "$$ \boom $$"; text := "\boom"; tokens := [] |}.

Definition graph_token : Token :=
  {| type := "mermaidBlock"; raw := "```" ++ String LF ("graph TD" ++ String LF "```");
     text := "graph TD"; tokens := [] |}.

Lemma heading_inline_style_witness :
  renderer_heading sample_options {| Tokens.heading_text := "Title"; Tokens.depth := 2 |} =
  Normal ("<h2 style=" ++ quote ++ "font-size: 20px;color: #00b38a" ++ quote
          ++ ">Title</h2>").
Proof.
  exact (proj1 (heading_inline_style sample_options
                  {| Tokens.heading_text := "Title"; Tokens.depth := 2 |}
                  "font-size: 20px;color: #00b38a" eq_refl)).
Defined.

Lemma formula_fallback_is_raw_source_witness :
  latexBlock_renderer plain_options boom_token =
  ([KatexCall "\boom" true; ConsoleError "LaTeX rendering error:" "ParseError"],
   "$$ \boom $$").
Proof.
  exact (proj1 (formula_fallback_is_raw_source plain_options boom_token "ParseError")
           "display: block;margin: 1em 0;text-align: center" eq_refl eq_refl).
Defined.

(** C1 as it is worded fails on the diagram-block override: when its body
    throws (here on a style value that cannot be converted to a string), it
    returns the diagram text inside a code block, not the raw source of the
    block. *)
Lemma diagram_fallback_is_not_raw_source :
  ~ (forall (rt : Runtime) (libs : Libraries) (options : RendererOptions)
            (token : Token) (error : string),
       cssPropertiesToString
         (Some (JS.spread (block_style options "mermaid")
                  [("display", VString "block"); ("margin", VString "1em 0");
                   ("textAlign", VString "center");
                   ("background", VString "transparent")])) = Throw error ->
       snd (mermaidBlock_renderer options token) = raw token).
Proof.
  intros H.
  specialize (H Examples.runtime sample_libraries symbol_options graph_token
                "TypeError: Cannot convert a Symbol value to a string" eq_refl).
  vm_compute in H. discriminate H.
Qed.




(** C2 as it is worded fails on the construction: after a second instance
    is constructed with other options, the parser renders a formula block
    with the style of the second instance, not of the first. *)
Lemma construction_changes_parser_state :
  ~ (forall (rt : Runtime) (libs : Libraries) (options : RendererOptions)
            (marked : Marked) (type : string) (token : Token),
       option_map (fun render => render token)
         (extension_renderer (snd (new_MarkdownRenderer options marked)) type) =
       option_map (fun render => render token)
         (extension_renderer marked type)).
Proof.
  intros H.
  specialize (H Examples.runtime sample_libraries plain_options
                (snd (new_MarkdownRenderer sample_options {| extensions := [] |}))
                "latexBlock"
                {| type := "latexBlock"; raw := "$$x$$"; text := "x"; tokens := [] |}).
  vm_compute in H. discriminate H.
Qed.

Lemma text_without_dollar_unchanged_witness :
  renderer_text {| type := "text"; raw := "plain text"; text := "plain text"; tokens := [] |} =
  ([], "plain text").
Proof.
  exact (text_without_dollar_unchanged
           {| type := "text"; raw := "plain text"; text := "plain text"; tokens := [] |}
           eq_refl).
Defined.

Lemma text_single_formula_rendered_witness :
  renderer_text {| type := "text"; raw := "area $ \pi r^2 $ of a disc";
                   text := "area $ \pi r^2 $ of a disc"; tokens := [] |} =
  ([KatexCall "\pi r^2" false],
   "area <span class=katex>\pi r^2</span> of a disc").
Proof.
  exact (text_single_formula_rendered
           {| type := "text"; raw := "area $ \pi r^2 $ of a disc";
              text := "area $ \pi r^2 $ of a disc"; tokens := [] |}
           "area " " of a disc" "<span class=katex>\pi r^2</span>" " "%char "\pi r^2 "
           eq_refl eq_refl eq_refl eq_refl eq_refl).
Defined.

Lemma formula_block_always_styled_witness :
  exists ds,
    latexBlock_renderer sample_options
      {| type := "latexBlock"; raw := "$$x$$"; text := "x"; tokens := [] |} =
    ([KatexCall "x" true],
     "<div style=" ++ quote ++ Str.join ";" ds ++ quote ++ ">"
     ++ "<span class=katex>x</span>" ++ "</div>") /\
    In "display: block" ds /\ In "margin: 1em 0" ds /\ In "text-align: center" ds.
Proof.
  exact (formula_block_always_styled sample_options
           {| type := "latexBlock"; raw := "$$x$$"; text := "x"; tokens := [] |}
           "<span class=katex>x</span>" eq_refl eq_refl).
Defined.

(** Options with a colour for second-level headings and no theme colour. *)
Definition heading_colour_options : RendererOptions :=
  {| base := None;
     block := Some [("h2", [("color", VString "navy"); ("fontSize", VString "20px")])];
     inline := None;
     codeTheme := None |}.

Lemma heading_colour_needs_theme_colour_witness :
  renderer_heading heading_colour_options
    {| Tokens.heading_text := "Title"; Tokens.depth := 2 |} =
  Normal ("<h2 style=" ++ quote ++ "font-size: 20px" ++ quote ++ ">Title</h2>").
Proof.
  refine (heading_colour_needs_theme_colour heading_colour_options
            {| Tokens.heading_text := "Title"; Tokens.depth := 2 |} eq_refl _).
  repeat constructor; cbn; intuition discriminate.
Defined.

(** Options whose style for [code_pre] sets a background, a border and a
    padding. *)
Definition code_pre_options : RendererOptions :=
  {| base := None;
     block := Some [("code_pre", [("background", VString "#fff");
                                  ("border", VString "1px solid");
                                  ("padding", VString "8px")])];
     inline := None;
     codeTheme := None |}.

Lemma code_block_pre_style_forced_witness :
  exists before declarations after,
    renderer_code code_pre_options
      {| Tokens.code_text := "let x = 1"; Tokens.lang := Some "js" |} =
    Normal (before ++ "<pre " ++ style_is (declarations ++ pre_forced) ++ after).
Proof.
  exact (code_block_pre_style_forced code_pre_options
           {| Tokens.code_text := "let x = 1"; Tokens.lang := Some "js" |}
           eq_refl eq_refl).
Defined.

Lemma blockquote_border_follows_theme_colour_witness :
  exists colour ds,
    JS.ToString (JS.or_else (base_themeColor plain_options) (VString "#1a1a1a")) =
      Normal colour /\
    renderer_blockquote plain_options
      {| type := "blockquote"; raw := "> wise"; text := "wise"; tokens := [] |} =
    Normal ("<blockquote style=" ++ quote ++ Str.join ";" ds ++ quote ++ ">"
            ++ inline_html plain_options "wise" ++ "</blockquote>") /\
    In ("border-left: 4px solid " ++ colour) ds.
Proof.
  exact (blockquote_border_follows_theme_colour plain_options
           {| type := "blockquote"; raw := "> wise"; text := "wise"; tokens := [] |}
           eq_refl eq_refl).
Defined.

Definition emphasis_token : Token :=
  {| type := "em"; raw := "*very*"; text := "very"; tokens := [] |}.

Definition logo_image : Tokens.Link :=
  {| Tokens.href := "logo.png"; Tokens.title := None; Tokens.link_text := "logo" |}.

Lemma emphasis_and_image_forced_styles_witness :
  (exists ds,
     renderer_em plain_options emphasis_token =
     Normal ("<em style=" ++ quote ++ Str.join ";" ds ++ quote ++ ">"
             ++ inline_html plain_options (text emphasis_token) ++ "</em>") /\
     In "font-style: italic" ds) /\
  (exists ds,
     renderer_strong plain_options emphasis_token =
     Normal ("<strong style=" ++ quote ++ Str.join ";" ds ++ quote ++ ">"
             ++ inline_html plain_options (text emphasis_token) ++ "</strong>") /\
     In "font-weight: bold" ds) /\
  (exists ds,
     renderer_image plain_options logo_image =
     Normal ("<img src=" ++ quote ++ Tokens.href logo_image ++ quote
             ++ title_attr (Tokens.title logo_image)
             ++ " alt=" ++ quote ++ Tokens.link_text logo_image ++ quote
             ++ " style=" ++ quote ++ Str.join ";" ds ++ quote ++ ">") /\
     In "max-width: 100%" ds /\ In "display: block" ds /\ In "margin: 0.5em auto" ds).
Proof.
  exact (emphasis_and_image_forced_styles plain_options emphasis_token logo_image
           eq_refl eq_refl eq_refl eq_refl).
Defined.

(** Options with a font size for paragraphs and no base options. *)
Definition paragraph_options : RendererOptions :=
  {| base := None;
     block := Some [("p", [("fontSize", VString "18px"); ("color", VString "#333")])];
     inline := None;
     codeTheme := None |}.

Lemma paragraph_font_needs_base_options_witness :
  exists content,
    renderer_paragraph paragraph_options
      {| Tokens.paragraph_text := "plain"; Tokens.paragraph_tokens := None |} =
    (styleStr <-
       cssPropertiesToString
         (Some (JS.remove "lineHeight"
                  (JS.remove "fontSize" (block_style paragraph_options "p")))) ;;
     Normal ("<p" ++ style_attr styleStr ++ ">" ++ content ++ "</p>")).
Proof.
  refine (paragraph_font_needs_base_options paragraph_options
            {| Tokens.paragraph_text := "plain"; Tokens.paragraph_tokens := None |}
            eq_refl eq_refl _).
  repeat constructor; cbn; intuition discriminate.
Defined.

(** A text child of a list item, and a checked task item that holds it. *)
Definition text_child (s : string) : Tokens.Block :=
  {| Tokens.block_type := "text"; Tokens.block_raw := s; Tokens.block_text := s;
     Tokens.ordered := false; Tokens.start := VUndefined; Tokens.items := [] |}.

Definition task_item : Tokens.ListItem :=
  {| Tokens.task := true; Tokens.checked := true; Tokens.item_text := "buy milk";
     Tokens.item_tokens := Some [text_child "buy milk"] |}.

Lemma task_item_text_unused_witness :
  listitem_with sample_options (checkbox true ++ "buy milk") task_item =
  renderer_listitem sample_options task_item.
Proof.
  exact (task_item_text_unused sample_options task_item [text_child "buy milk"]
           (checkbox true ++ "buy milk") eq_refl).
Defined.

(** Libraries whose formula renderer throws on every formula. *)
Definition failing_libraries : Libraries :=
  {| katex_renderToString := fun _ _ => Throw "ParseError";
     lexInline := lexInline;
     parseInline := parseInline;
     highlightCode := highlightCode;
     codeThemes := codeThemes |}.

Lemma list_item_formula_fallback_witness :
  snd (renderer_listitem (libs := failing_libraries) plain_options
         {| Tokens.task := false; Tokens.checked := false; Tokens.item_text := "see $$x$$";
            Tokens.item_tokens := Some [text_child "see $$x$$"] |}) =
  Normal ("<li style=" ++ quote ++ "margin-bottom: 8px;display: list-item" ++ quote
          ++ ">see $$x$$</li>").
Proof.
  exact (list_item_formula_fallback (libs := failing_libraries) plain_options
           {| Tokens.task := false; Tokens.checked := false;
              Tokens.item_text := "see $$x$$";
              Tokens.item_tokens := Some [text_child "see $$x$$"] |}
           (text_child "see $$x$$") "margin-bottom: 8px;display: list-item"
           (fun _ => ex_intro _ "ParseError" eq_refl)
           eq_refl (or_introl eq_refl) eq_refl eq_refl).
Defined.

(** Options that spell out the default theme colour of tables. *)
Definition green_options : RendererOptions :=
  {| base := Some {| themeColor := VString "#00b38a"; fontSize := VUndefined;
                     lineHeight := VUndefined; textAlign := VUndefined |};
     block := None; inline := None; codeTheme := None |}.

Definition sample_table : Tokens.Table :=
  {| Tokens.header := [{| Tokens.cell_text := "name" |}; {| Tokens.cell_text := "size" |}];
     Tokens.rows := [[{| Tokens.cell_text := "a" |}; {| Tokens.cell_text := "1" |}];
                     [{| Tokens.cell_text := "b" |}; {| Tokens.cell_text := "2" |}]] |}.

Lemma table_default_theme_colour_witness :
  renderer_table plain_options sample_table = renderer_table green_options sample_table /\
  exists html, renderer_table plain_options sample_table = Normal html.
Proof.
  exact (table_default_theme_colour plain_options green_options sample_table
           (fun _ => eq_refl) eq_refl eq_refl).
Defined.

End Renderer.

(** * next.config.js *)

Module NextConfig.

(** [s.split(sep)] for a separator of one character: the pieces between
    the separators, at least one piece. *)
Fixpoint split (sep : ascii) (s : string) : list string :=
  match s with
  | EmptyString => [EmptyString]
  | String c rest =>
      if Ascii.eqb c sep then EmptyString :: split sep rest
      else match split sep rest with
           | piece :: pieces => String c piece :: pieces
           | [] => [String c EmptyString]
           end
  end.

(** [process.env]: the two variables the file reads; [None] is a variable
    that is not set. *)
Record Env : Type := {
  NODE_ENV : option string;
  GITHUB_REPOSITORY : option string
}.

(** [s || ''] on a string or [undefined] *)
Definition or_empty (s : option string) : string :=
  match s with
  | Some v => v
  | None => ""
  end.

Section WithEnv.
Variable env : Env.

(** [process.env.NODE_ENV === 'production'] *)
Definition isProduction : bool :=
  match NODE_ENV env with
  | Some v => v =? "production"
  | None => false
  end.

(** [process.env.GITHUB_REPOSITORY || ''] *)
Definition repository : string := or_empty (GITHUB_REPOSITORY env).

(** [repository.split('/')[1] || ''] *)
Definition repositoryName : string := or_empty (nth_error (split "/" repository) 1).

(** [isProduction && repositoryName ? `/${repositoryName}` : ''] *)
Definition basePath : string :=
  if isProduction && negb (repositoryName =? "") then "/" ++ repositoryName else "".

(** [basePath ? `${basePath}/` : ''] *)
Definition assetPrefix : string :=
  if negb (basePath =? "") then basePath ++ "/" else "".

End WithEnv.

(** [false] *)
Definition js_false : value := VOther false (Normal "false").

(** The part of webpack's configuration the [webpack] hook touches,
    [config.resolve.fallback]; [None] when it is not set. *)
Record WebpackConfig : Type := { resolve_fallback : option (JS.object value) }.

(** The [webpack] hook: [config.resolve.fallback = {...config.resolve.fallback,
    fs: false}; return config]. *)
Definition webpack (config : WebpackConfig) : WebpackConfig :=
  {| resolve_fallback :=
       Some (JS.spread (match resolve_fallback config with Some f => f | None => [] end)
                       [("fs", js_false)]) |}.

Definition not_slash (c : ascii) : bool := negb (Ascii.eqb c "/").

Lemma split_not_nil (sep : ascii) (s : string) : split sep s <> [].
Proof.
  destruct s as [|c rest]; cbn [split]; [discriminate|].
  destruct (Ascii.eqb c sep); [discriminate|].
  destruct (split sep rest); discriminate.
Qed.

(** No piece of a split holds the separator. *)
Lemma split_pieces (s : string) :
  Forall (fun piece => Str.all_chars not_slash piece = true) (split "/" s).
Proof.
  induction s as [|c rest IH]; cbn [split].
  - constructor; [reflexivity | constructor].
  - destruct (Ascii.eqb c "/") eqn:E.
    + constructor; [reflexivity | exact IH].
    + destruct (split "/" rest) as [|piece pieces].
      * constructor; [|constructor]. cbn [Str.all_chars]. unfold not_slash. now rewrite E.
      * inversion IH as [|? ? Hp Hps]; subst. constructor; [|exact Hps].
        cbn [Str.all_chars]. unfold not_slash at 1. now rewrite E, Hp.
Qed.

Lemma split_no_slash (s : string) :
  Str.all_chars not_slash s = true -> split "/" s = [s].
Proof.
  induction s as [|c rest IH]; cbn [split Str.all_chars]; [reflexivity|].
  unfold not_slash at 1. intros H. apply andb_true_iff in H as [Hc Hrest].
  apply negb_true_iff in Hc. rewrite Hc, (IH Hrest). reflexivity.
Qed.

Lemma split_at_slash (a b : string) :
  Str.all_chars not_slash a = true ->
  split "/" (a ++ String "/" b) = a :: split "/" b.
Proof.
  induction a as [|c rest IH]; cbn [split Str.all_chars String.append]; [reflexivity|].
  unfold not_slash at 1. intros H. apply andb_true_iff in H as [Hc Hrest].
  apply negb_true_iff in Hc. rewrite Hc, (IH Hrest). reflexivity.
Qed.

Lemma nth_error_Forall {A} (P : A -> Prop) (l : list A) (n : nat) (x : A) :
  Forall P l -> nth_error l n = Some x -> P x.
Proof.
  intros H. revert n. induction H as [|y l Hy Hl IH]; intros [|n]; cbn [nth_error];
    try discriminate.
  - now intros [= <-].
  - apply IH.
Qed.

Lemma set_set {V} (k : string) (v : V) (o : JS.object V) :
  JS.set k v (JS.set k v o) = JS.set k v o.
Proof.
  induction o as [|[k' v'] o IH]; cbn [JS.set].
  - now rewrite String.eqb_refl.
  - destruct (k' =? k) eqn:E; cbn [JS.set].
    + now rewrite String.eqb_refl.
    + now rewrite E, IH.
Qed.

(** The base path is empty, and the asset prefix with it, or the build is a
    production build and the base path is [/<name>] and the asset prefix
    [/<name>/], where [<name>] is not empty and holds no [/]. *)
Theorem base_path_and_asset_prefix (env : Env) :
  (basePath env = "" /\ assetPrefix env = "") \/
  (isProduction env = true /\
   exists name,
     name <> "" /\ Str.all_chars not_slash name = true /\
     basePath env = "/" ++ name /\ assetPrefix env = "/" ++ name ++ "/").
Proof.
  unfold assetPrefix, basePath.
  destruct (isProduction env); cbn [andb]; [|now left].
  destruct (repositoryName env =? "") eqn:E; cbn [negb]; [now left|].
  right. split; [reflexivity|]. exists (repositoryName env).
  apply String.eqb_neq in E. split; [exact E|]. split.
  - unfold repositoryName in *.
    destruct (nth_error (split "/" (repository env)) 1) as [name|] eqn:Hn;
      cbn [or_empty] in *; [|now elim E].
    exact (nth_error_Forall _ _ _ _ (split_pieces _) Hn).
  - split; reflexivity.
Qed.

(** In a production build with [GITHUB_REPOSITORY] set to [<owner>/<name>],
    the base path is [/<name>] and the asset prefix [/<name>/]; what follows
    a second [/] is ignored. *)
Theorem base_path_of_repository (env : Env) (owner name more : string) :
  NODE_ENV env = Some "production" ->
  Str.all_chars not_slash owner = true ->
  Str.all_chars not_slash name = true ->
  name <> "" ->
  GITHUB_REPOSITORY env = Some (owner ++ String "/" name) \/
  GITHUB_REPOSITORY env = Some (owner ++ String "/" (name ++ String "/" more)) ->
  basePath env = "/" ++ name /\ assetPrefix env = "/" ++ name ++ "/".
Proof.
  intros Hprod Ho Hn Hne Hrepo.
  assert (R : repositoryName env = name).
  { unfold repositoryName, repository.
    destruct Hrepo as [-> | ->]; cbn [or_empty]; rewrite (split_at_slash _ _ Ho).
    - now rewrite (split_no_slash _ Hn).
    - now rewrite (split_at_slash _ _ Hn). }
  unfold assetPrefix, basePath, isProduction. rewrite Hprod, R.
  apply String.eqb_neq in Hne. rewrite Hne. cbn [String.eqb Ascii.eqb Bool.eqb andb negb].
  split; reflexivity.
Qed.

(** Outside a production build, and in any build whose [GITHUB_REPOSITORY]
    is not set or holds no [/], the site is served from the root: base path
    and asset prefix are empty. *)
Theorem base_path_empty (env : Env) :
  NODE_ENV env <> Some "production" \/
  Str.all_chars not_slash (or_empty (GITHUB_REPOSITORY env)) = true ->
  basePath env = "" /\ assetPrefix env = "".
Proof.
  intros H.
  assert (B : basePath env = "").
  { unfold basePath. destruct H as [H | H].
    - unfold isProduction. destruct (NODE_ENV env) as [v|]; [|reflexivity].
      destruct (v =? "production") eqn:E; [|reflexivity].
      apply String.eqb_eq in E. subst v. now elim H.
    - unfold repositoryName, repository. rewrite (split_no_slash _ H).
      cbn [nth_error or_empty String.eqb negb]. now rewrite andb_false_r. }
  split; [exact B|]. unfold assetPrefix. now rewrite B.
Qed.

(** The [webpack] hook sets [fs] to [false] in the fallback table and leaves
    every other entry as it was; applying it again changes nothing. *)
Theorem webpack_sets_fs_only (config : WebpackConfig) :
  (exists fallback,
     resolve_fallback (webpack config) = Some fallback /\
     JS.get "fs" fallback = Some js_false /\
     forall k, k <> "fs" ->
       JS.get k fallback =
       match resolve_fallback config with Some f => JS.get k f | None => None end) /\
  webpack (webpack config) = webpack config.
Proof.
  split.
  - eexists. split; [reflexivity|]. split.
    + apply JS.get_set_same.
    + intros k Hk. change (JS.spread ?o [("fs", js_false)]) with (JS.set "fs" js_false o).
      rewrite (JS.get_set_other "fs" k) by exact Hk.
      now destruct (resolve_fallback config).
  - unfold webpack. cbn [resolve_fallback]. f_equal. f_equal.
    change (JS.spread ?o [("fs", js_false)]) with (JS.set "fs" js_false o).
    apply set_set.
Qed.

Lemma base_path_of_repository_witness :
  basePath {| NODE_ENV := Some "production";
              GITHUB_REPOSITORY := Some "hepingfly/gzh-template" |} = "/gzh-template" /\
  assetPrefix {| NODE_ENV := Some "production";
                 GITHUB_REPOSITORY := Some "hepingfly/gzh-template" |} = "/gzh-template/".
Proof.
  refine (base_path_of_repository
            {| NODE_ENV := Some "production";
               GITHUB_REPOSITORY := Some "hepingfly/gzh-template" |}
            "hepingfly" "gzh-template" "" eq_refl eq_refl eq_refl _ (or_introl eq_refl)).
  discriminate.
Defined.

Lemma base_path_empty_witness :
  basePath {| NODE_ENV := Some "development";
              GITHUB_REPOSITORY := Some "hepingfly/gzh-template" |} = "" /\
  assetPrefix {| NODE_ENV := Some "development";
                 GITHUB_REPOSITORY := Some "hepingfly/gzh-template" |} = "".
Proof.
  refine (base_path_empty
            {| NODE_ENV := Some "development";
               GITHUB_REPOSITORY := Some "hepingfly/gzh-template" |} (or_introl _)).
  discriminate.
Defined.

End NextConfig.
